(** * A-Eye: the voice command dispatcher, its handlers and the face log

    A shallow embedding of the parts of the A-Eye assistant that decide
    what is said, which feature handler runs, and what is written:
    - [src/main.py] [start]: the top-level voice loop and its keyword
      dispatch;
    - [src/modules/object_recognizer.py]: [generate_contextual_response]
      and the follow-up sub-session [handle_follow_up_queries];
    - [src/modules/emergency_handler.py] [send_sos_message];
    - [src/modules/iot_controller.py] [get_frame];
    - [src/modules/face_recognition.py]: the face log as
      [register_new_face], [delete_face_registration],
      [get_registered_faces] and [get_face_detection_stats] read and write
      it;
    - [src/modules/video_analyzer.py]: the producer [capture_frames] and the
      consumer [describe_frames] around their shared FIFO queue.

    A Python [str] is modelled as the [string] of its UTF-8 bytes; the
    string methods used ([lower], [strip], [split]) follow Python's Unicode
    rules on the decoded text.  Files are a map from paths to bytes, with
    the operations that raise [OSError]; text files are read with universal
    newlines.  Remote services, devices and the microphone are oracles
    over an abstract [World]; a Python exception is [Raise msg], [msg] being [str(e)].  [print] output
    is not modelled.  The observable behaviour of the voice loop is a trace
    of events: what is spoken, servo moves, which feature handler is called,
    each capture-and-transcribe call, and each call of the contextual
    response generator. *)

From Stdlib Require Import String Ascii List Bool Arith ZArith Lia.
From Stdlib Require QArith.
Import ListNotations.
Open Scope string_scope.

(** ** Python string operations *)
Module PyStr.

(** [sub in s] *)
Fixpoint contains (sub s : string) : bool :=
  if String.prefix sub s then true
  else match s with
       | EmptyString => false
       | String _ s' => contains sub s'
       end.

(** [any(word in s for word in words)] *)
Definition any_in (words : list string) (s : string) : bool :=
  existsb (fun w => contains w s) words.

Definition newline : ascii := ascii_of_nat 10.
Definition nl : string := String newline EmptyString.

(** *** UTF-8 text *)

(** A Python [str] is held as the bytes of its UTF-8 encoding.  [decode]
    reads its code points; a byte that starts no well-formed sequence
    (table 3-7 of the Unicode standard) is kept as a [UByte]. *)
Inductive uchar : Type :=
| UChar (c : Z)
| UByte (b : ascii).

Definition byte_val (a : ascii) : Z := Z.of_nat (nat_of_ascii a).

Definition byte_in (lo hi : Z) (a : ascii) : bool :=
  (lo <=? byte_val a)%Z && (byte_val a <=? hi)%Z.

(** A continuation byte. *)
Definition cont (a : ascii) : bool := byte_in 128 191 a.

(** The second byte of a three- and of a four-byte sequence. *)
Definition second3 (a b : ascii) : bool :=
  if (byte_val a =? 224)%Z then byte_in 160 191 b
  else if (byte_val a =? 237)%Z then byte_in 128 159 b
  else cont b.

Definition second4 (a b : ascii) : bool :=
  if (byte_val a =? 240)%Z then byte_in 144 191 b
  else if (byte_val a =? 244)%Z then byte_in 128 143 b
  else cont b.

Fixpoint decode (s : string) : list uchar :=
  match s with
  | EmptyString => []
  | String a s1 =>
      if (byte_val a <? 128)%Z then UChar (byte_val a) :: decode s1
      else if byte_in 194 223 a then
        match s1 with
        | String b s2 =>
            if cont b then UChar ((byte_val a - 192) * 64 + (byte_val b - 128))%Z :: decode s2
            else UByte a :: decode s1
        | EmptyString => UByte a :: decode s1
        end
      else if byte_in 224 239 a then
        match s1 with
        | String b (String c s3) =>
            if second3 a b && cont c
            then UChar ((byte_val a - 224) * 4096 + (byte_val b - 128) * 64 + (byte_val c - 128))%Z
                   :: decode s3
            else UByte a :: decode s1
        | _ => UByte a :: decode s1
        end
      else if byte_in 240 244 a then
        match s1 with
        | String b (String c (String d s4)) =>
            if second4 a b && cont c && cont d
            then UChar ((byte_val a - 240) * 262144 + (byte_val b - 128) * 4096
                        + (byte_val c - 128) * 64 + (byte_val d - 128))%Z :: decode s4
            else UByte a :: decode s1
        | _ => UByte a :: decode s1
        end
      else UByte a :: decode s1
  end.

(** Strict UTF-8 decoding succeeds. *)
Definition utf8_valid (s : string) : bool :=
  forallb (fun u => match u with UChar _ => true | UByte _ => false end) (decode s).


Definition byte_of (n : Z) : ascii := ascii_of_nat (Z.to_nat n).

(** The UTF-8 encoding of a code point. *)
Definition encode_char (c : Z) : string :=
  if (c <? 128)%Z then String (byte_of c) EmptyString
  else if (c <? 2048)%Z then
    String (byte_of (192 + c / 64)) (String (byte_of (128 + c mod 64)) EmptyString)
  else if (c <? 65536)%Z then
    String (byte_of (224 + c / 4096))
      (String (byte_of (128 + (c / 64) mod 64))
         (String (byte_of (128 + c mod 64)) EmptyString))
  else
    String (byte_of (240 + c / 262144))
      (String (byte_of (128 + (c / 4096) mod 64))
         (String (byte_of (128 + (c / 64) mod 64))
            (String (byte_of (128 + c mod 64)) EmptyString))).

Definition encode_uchar (u : uchar) : string :=
  match u with
  | UChar c => encode_char c
  | UByte b => String b EmptyString
  end.

Definition encode (us : list uchar) : string :=
  fold_right (fun u s => encode_uchar u ++ s) EmptyString us.

(** *** [str.lower], with the case data of Python 3.11 (Unicode 14.0) *)

Local Open Scope Z_scope.

(** [(first, last, step, delta)]: the code points [first], [first + step], ...,
    [last] are lowered to themselves plus [delta]. *)
Definition lower_runs : list (Z * Z * Z * Z) :=
  [(65, 90, 1, 32); (192, 214, 1, 32); (216, 222, 1, 32); (256, 302, 2, 1);
   (306, 310, 2, 1); (313, 327, 2, 1); (330, 374, 2, 1); (376, 376, 1, -121);
   (377, 381, 2, 1); (385, 385, 1, 210); (386, 388, 2, 1); (390, 390, 1, 206);
   (391, 391, 1, 1); (393, 394, 1, 205); (395, 395, 1, 1); (398, 398, 1, 79);
   (399, 399, 1, 202); (400, 400, 1, 203); (401, 401, 1, 1); (403, 403, 1, 205);
   (404, 404, 1, 207); (406, 406, 1, 211); (407, 407, 1, 209); (408, 408, 1, 1);
   (412, 412, 1, 211); (413, 413, 1, 213); (415, 415, 1, 214); (416, 420, 2, 1);
   (422, 422, 1, 218); (423, 423, 1, 1); (425, 425, 1, 218); (428, 428, 1, 1);
   (430, 430, 1, 218); (431, 431, 1, 1); (433, 434, 1, 217); (435, 437, 2, 1);
   (439, 439, 1, 219); (440, 440, 1, 1); (444, 444, 1, 1); (452, 452, 1, 2);
   (453, 453, 1, 1); (455, 455, 1, 2); (456, 456, 1, 1); (458, 458, 1, 2);
   (459, 475, 2, 1); (478, 494, 2, 1); (497, 497, 1, 2); (498, 500, 2, 1);
   (502, 502, 1, -97); (503, 503, 1, -56); (504, 542, 2, 1); (544, 544, 1, -130);
   (546, 562, 2, 1); (570, 570, 1, 10795); (571, 571, 1, 1); (573, 573, 1, -163);
   (574, 574, 1, 10792); (577, 577, 1, 1); (579, 579, 1, -195); (580, 580, 1, 69);
   (581, 581, 1, 71); (582, 590, 2, 1); (880, 882, 2, 1); (886, 886, 1, 1);
   (895, 895, 1, 116); (902, 902, 1, 38); (904, 906, 1, 37); (908, 908, 1, 64);
   (910, 911, 1, 63); (913, 929, 1, 32); (932, 939, 1, 32); (975, 975, 1, 8);
   (984, 1006, 2, 1); (1012, 1012, 1, -60); (1015, 1015, 1, 1); (1017, 1017, 1, -7);
   (1018, 1018, 1, 1); (1021, 1023, 1, -130); (1024, 1039, 1, 80); (1040, 1071, 1, 32);
   (1120, 1152, 2, 1); (1162, 1214, 2, 1); (1216, 1216, 1, 15); (1217, 1229, 2, 1);
   (1232, 1326, 2, 1); (1329, 1366, 1, 48); (4256, 4293, 1, 7264); (4295, 4295, 1, 7264);
   (4301, 4301, 1, 7264); (5024, 5103, 1, 38864); (5104, 5109, 1, 8); (7312, 7354, 1, -3008);
   (7357, 7359, 1, -3008); (7680, 7828, 2, 1); (7838, 7838, 1, -7615); (7840, 7934, 2, 1);
   (7944, 7951, 1, -8); (7960, 7965, 1, -8); (7976, 7983, 1, -8); (7992, 7999, 1, -8);
   (8008, 8013, 1, -8); (8025, 8031, 2, -8); (8040, 8047, 1, -8); (8072, 8079, 1, -8);
   (8088, 8095, 1, -8); (8104, 8111, 1, -8); (8120, 8121, 1, -8); (8122, 8123, 1, -74);
   (8124, 8124, 1, -9); (8136, 8139, 1, -86); (8140, 8140, 1, -9); (8152, 8153, 1, -8);
   (8154, 8155, 1, -100); (8168, 8169, 1, -8); (8170, 8171, 1, -112); (8172, 8172, 1, -7);
   (8184, 8185, 1, -128); (8186, 8187, 1, -126); (8188, 8188, 1, -9); (8486, 8486, 1, -7517);
   (8490, 8490, 1, -8383); (8491, 8491, 1, -8262); (8498, 8498, 1, 28); (8544, 8559, 1, 16);
   (8579, 8579, 1, 1); (9398, 9423, 1, 26); (11264, 11311, 1, 48); (11360, 11360, 1, 1);
   (11362, 11362, 1, -10743); (11363, 11363, 1, -3814); (11364, 11364, 1, -10727); (11367, 11371, 2, 1);
   (11373, 11373, 1, -10780); (11374, 11374, 1, -10749); (11375, 11375, 1, -10783); (11376, 11376, 1, -10782);
   (11378, 11378, 1, 1); (11381, 11381, 1, 1); (11390, 11391, 1, -10815); (11392, 11490, 2, 1);
   (11499, 11501, 2, 1); (11506, 11506, 1, 1); (42560, 42604, 2, 1); (42624, 42650, 2, 1);
   (42786, 42798, 2, 1); (42802, 42862, 2, 1); (42873, 42875, 2, 1); (42877, 42877, 1, -35332);
   (42878, 42886, 2, 1); (42891, 42891, 1, 1); (42893, 42893, 1, -42280); (42896, 42898, 2, 1);
   (42902, 42920, 2, 1); (42922, 42922, 1, -42308); (42923, 42923, 1, -42319); (42924, 42924, 1, -42315);
   (42925, 42925, 1, -42305); (42926, 42926, 1, -42308); (42928, 42928, 1, -42258); (42929, 42929, 1, -42282);
   (42930, 42930, 1, -42261); (42931, 42931, 1, 928); (42932, 42946, 2, 1); (42948, 42948, 1, -48);
   (42949, 42949, 1, -42307); (42950, 42950, 1, -35384); (42951, 42953, 2, 1); (42960, 42960, 1, 1);
   (42966, 42968, 2, 1); (42997, 42997, 1, 1); (65313, 65338, 1, 32); (66560, 66599, 1, 40);
   (66736, 66771, 1, 40); (66928, 66938, 1, 39); (66940, 66954, 1, 39); (66956, 66962, 1, 39);
   (66964, 66965, 1, 39); (68736, 68786, 1, 64); (71840, 71871, 1, 32); (93760, 93791, 1, 32);
   (125184, 125217, 1, 34)].

(** The code points that are cased ([Cased]) and not case-ignorable. *)
Definition cased_ranges : list (Z * Z) :=
  [(65, 90); (97, 122); (170, 170); (181, 181); (186, 186); (192, 214);
   (216, 246); (248, 442); (444, 447); (452, 659); (661, 687); (880, 883);
   (886, 887); (891, 893); (895, 895); (902, 902); (904, 906); (908, 908);
   (910, 929); (931, 1013); (1015, 1153); (1162, 1327); (1329, 1366); (1376, 1416);
   (4256, 4293); (4295, 4295); (4301, 4301); (4304, 4346); (4349, 4351); (5024, 5109);
   (5112, 5117); (7296, 7304); (7312, 7354); (7357, 7359); (7424, 7467); (7531, 7543);
   (7545, 7578); (7680, 7957); (7960, 7965); (7968, 8005); (8008, 8013); (8016, 8023);
   (8025, 8025); (8027, 8027); (8029, 8029); (8031, 8061); (8064, 8116); (8118, 8124);
   (8126, 8126); (8130, 8132); (8134, 8140); (8144, 8147); (8150, 8155); (8160, 8172);
   (8178, 8180); (8182, 8188); (8450, 8450); (8455, 8455); (8458, 8467); (8469, 8469);
   (8473, 8477); (8484, 8484); (8486, 8486); (8488, 8488); (8490, 8493); (8495, 8500);
   (8505, 8505); (8508, 8511); (8517, 8521); (8526, 8526); (8544, 8575); (8579, 8580);
   (9398, 9449); (11264, 11387); (11390, 11492); (11499, 11502); (11506, 11507); (11520, 11557);
   (11559, 11559); (11565, 11565); (42560, 42605); (42624, 42651); (42786, 42863); (42865, 42887);
   (42891, 42894); (42896, 42954); (42960, 42961); (42963, 42963); (42965, 42969); (42997, 42998);
   (43002, 43002); (43824, 43866); (43872, 43880); (43888, 43967); (64256, 64262); (64275, 64279);
   (65313, 65338); (65345, 65370); (66560, 66639); (66736, 66771); (66776, 66811); (66928, 66938);
   (66940, 66954); (66956, 66962); (66964, 66965); (66967, 66977); (66979, 66993); (66995, 67001);
   (67003, 67004); (68736, 68786); (68800, 68850); (71840, 71903); (93760, 93823); (119808, 119892);
   (119894, 119964); (119966, 119967); (119970, 119970); (119973, 119974); (119977, 119980); (119982, 119993);
   (119995, 119995); (119997, 120003); (120005, 120069); (120071, 120074); (120077, 120084); (120086, 120092);
   (120094, 120121); (120123, 120126); (120128, 120132); (120134, 120134); (120138, 120144); (120146, 120485);
   (120488, 120512); (120514, 120538); (120540, 120570); (120572, 120596); (120598, 120628); (120630, 120654);
   (120656, 120686); (120688, 120712); (120714, 120744); (120746, 120770); (120772, 120779); (122624, 122633);
   (122635, 122654); (125184, 125251); (127280, 127305); (127312, 127337); (127344, 127369)].

(** The case-ignorable code points ([Case_Ignorable]). *)
Definition case_ignorable_ranges : list (Z * Z) :=
  [(39, 39); (46, 46); (58, 58); (94, 94); (96, 96); (168, 168);
   (173, 173); (175, 175); (180, 180); (183, 184); (688, 879); (884, 885);
   (890, 890); (900, 901); (903, 903); (1155, 1161); (1369, 1369); (1375, 1375);
   (1425, 1469); (1471, 1471); (1473, 1474); (1476, 1477); (1479, 1479); (1524, 1524);
   (1536, 1541); (1552, 1562); (1564, 1564); (1600, 1600); (1611, 1631); (1648, 1648);
   (1750, 1757); (1759, 1768); (1770, 1773); (1807, 1807); (1809, 1809); (1840, 1866);
   (1958, 1968); (2027, 2037); (2042, 2042); (2045, 2045); (2070, 2093); (2137, 2139);
   (2184, 2184); (2192, 2193); (2200, 2207); (2249, 2306); (2362, 2362); (2364, 2364);
   (2369, 2376); (2381, 2381); (2385, 2391); (2402, 2403); (2417, 2417); (2433, 2433);
   (2492, 2492); (2497, 2500); (2509, 2509); (2530, 2531); (2558, 2558); (2561, 2562);
   (2620, 2620); (2625, 2626); (2631, 2632); (2635, 2637); (2641, 2641); (2672, 2673);
   (2677, 2677); (2689, 2690); (2748, 2748); (2753, 2757); (2759, 2760); (2765, 2765);
   (2786, 2787); (2810, 2815); (2817, 2817); (2876, 2876); (2879, 2879); (2881, 2884);
   (2893, 2893); (2901, 2902); (2914, 2915); (2946, 2946); (3008, 3008); (3021, 3021);
   (3072, 3072); (3076, 3076); (3132, 3132); (3134, 3136); (3142, 3144); (3146, 3149);
   (3157, 3158); (3170, 3171); (3201, 3201); (3260, 3260); (3263, 3263); (3270, 3270);
   (3276, 3277); (3298, 3299); (3328, 3329); (3387, 3388); (3393, 3396); (3405, 3405);
   (3426, 3427); (3457, 3457); (3530, 3530); (3538, 3540); (3542, 3542); (3633, 3633);
   (3636, 3642); (3654, 3662); (3761, 3761); (3764, 3772); (3782, 3782); (3784, 3789);
   (3864, 3865); (3893, 3893); (3895, 3895); (3897, 3897); (3953, 3966); (3968, 3972);
   (3974, 3975); (3981, 3991); (3993, 4028); (4038, 4038); (4141, 4144); (4146, 4151);
   (4153, 4154); (4157, 4158); (4184, 4185); (4190, 4192); (4209, 4212); (4226, 4226);
   (4229, 4230); (4237, 4237); (4253, 4253); (4348, 4348); (4957, 4959); (5906, 5908);
   (5938, 5939); (5970, 5971); (6002, 6003); (6068, 6069); (6071, 6077); (6086, 6086);
   (6089, 6099); (6103, 6103); (6109, 6109); (6155, 6159); (6211, 6211); (6277, 6278);
   (6313, 6313); (6432, 6434); (6439, 6440); (6450, 6450); (6457, 6459); (6679, 6680);
   (6683, 6683); (6742, 6742); (6744, 6750); (6752, 6752); (6754, 6754); (6757, 6764);
   (6771, 6780); (6783, 6783); (6823, 6823); (6832, 6862); (6912, 6915); (6964, 6964);
   (6966, 6970); (6972, 6972); (6978, 6978); (7019, 7027); (7040, 7041); (7074, 7077);
   (7080, 7081); (7083, 7085); (7142, 7142); (7144, 7145); (7149, 7149); (7151, 7153);
   (7212, 7219); (7222, 7223); (7288, 7293); (7376, 7378); (7380, 7392); (7394, 7400);
   (7405, 7405); (7412, 7412); (7416, 7417); (7468, 7530); (7544, 7544); (7579, 7679);
   (8125, 8125); (8127, 8129); (8141, 8143); (8157, 8159); (8173, 8175); (8189, 8190);
   (8203, 8207); (8216, 8217); (8228, 8228); (8231, 8231); (8234, 8238); (8288, 8292);
   (8294, 8303); (8305, 8305); (8319, 8319); (8336, 8348); (8400, 8432); (11388, 11389);
   (11503, 11505); (11631, 11631); (11647, 11647); (11744, 11775); (11823, 11823); (12293, 12293);
   (12330, 12333); (12337, 12341); (12347, 12347); (12441, 12446); (12540, 12542); (40981, 40981);
   (42232, 42237); (42508, 42508); (42607, 42610); (42612, 42621); (42623, 42623); (42652, 42655);
   (42736, 42737); (42752, 42785); (42864, 42864); (42888, 42890); (42994, 42996); (43000, 43001);
   (43010, 43010); (43014, 43014); (43019, 43019); (43045, 43046); (43052, 43052); (43204, 43205);
   (43232, 43249); (43263, 43263); (43302, 43309); (43335, 43345); (43392, 43394); (43443, 43443);
   (43446, 43449); (43452, 43453); (43471, 43471); (43493, 43494); (43561, 43566); (43569, 43570);
   (43573, 43574); (43587, 43587); (43596, 43596); (43632, 43632); (43644, 43644); (43696, 43696);
   (43698, 43700); (43703, 43704); (43710, 43711); (43713, 43713); (43741, 43741); (43756, 43757);
   (43763, 43764); (43766, 43766); (43867, 43871); (43881, 43883); (44005, 44005); (44008, 44008);
   (44013, 44013); (64286, 64286); (64434, 64450); (65024, 65039); (65043, 65043); (65056, 65071);
   (65106, 65106); (65109, 65109); (65279, 65279); (65287, 65287); (65294, 65294); (65306, 65306);
   (65342, 65342); (65344, 65344); (65392, 65392); (65438, 65439); (65507, 65507); (65529, 65531);
   (66045, 66045); (66272, 66272); (66422, 66426); (67456, 67461); (67463, 67504); (67506, 67514);
   (68097, 68099); (68101, 68102); (68108, 68111); (68152, 68154); (68159, 68159); (68325, 68326);
   (68900, 68903); (69291, 69292); (69446, 69456); (69506, 69509); (69633, 69633); (69688, 69702);
   (69744, 69744); (69747, 69748); (69759, 69761); (69811, 69814); (69817, 69818); (69821, 69821);
   (69826, 69826); (69837, 69837); (69888, 69890); (69927, 69931); (69933, 69940); (70003, 70003);
   (70016, 70017); (70070, 70078); (70089, 70092); (70095, 70095); (70191, 70193); (70196, 70196);
   (70198, 70199); (70206, 70206); (70367, 70367); (70371, 70378); (70400, 70401); (70459, 70460);
   (70464, 70464); (70502, 70508); (70512, 70516); (70712, 70719); (70722, 70724); (70726, 70726);
   (70750, 70750); (70835, 70840); (70842, 70842); (70847, 70848); (70850, 70851); (71090, 71093);
   (71100, 71101); (71103, 71104); (71132, 71133); (71219, 71226); (71229, 71229); (71231, 71232);
   (71339, 71339); (71341, 71341); (71344, 71349); (71351, 71351); (71453, 71455); (71458, 71461);
   (71463, 71467); (71727, 71735); (71737, 71738); (71995, 71996); (71998, 71998); (72003, 72003);
   (72148, 72151); (72154, 72155); (72160, 72160); (72193, 72202); (72243, 72248); (72251, 72254);
   (72263, 72263); (72273, 72278); (72281, 72283); (72330, 72342); (72344, 72345); (72752, 72758);
   (72760, 72765); (72767, 72767); (72850, 72871); (72874, 72880); (72882, 72883); (72885, 72886);
   (73009, 73014); (73018, 73018); (73020, 73021); (73023, 73029); (73031, 73031); (73104, 73105);
   (73109, 73109); (73111, 73111); (73459, 73460); (78896, 78904); (92912, 92916); (92976, 92982);
   (92992, 92995); (94031, 94031); (94095, 94111); (94176, 94177); (94179, 94180); (110576, 110579);
   (110581, 110587); (110589, 110590); (113821, 113822); (113824, 113827); (118528, 118573); (118576, 118598);
   (119143, 119145); (119155, 119170); (119173, 119179); (119210, 119213); (119362, 119364); (121344, 121398);
   (121403, 121452); (121461, 121461); (121476, 121476); (121499, 121503); (121505, 121519); (122880, 122886);
   (122888, 122904); (122907, 122913); (122915, 122916); (122918, 122922); (123184, 123197); (123566, 123566);
   (123628, 123631); (125136, 125142); (125252, 125259); (127995, 127999); (917505, 917505); (917536, 917631);
   (917760, 917999)].

Local Close Scope Z_scope.

Definition in_ranges (rs : list (Z * Z)) (c : Z) : bool :=
  existsb (fun r => (fst r <=? c)%Z && (c <=? snd r)%Z) rs.

Fixpoint lower_delta (runs : list (Z * Z * Z * Z)) (c : Z) : Z :=
  match runs with
  | [] => 0
  | (first, last, step, delta) :: runs' =>
      if (first <=? c)%Z && (c <=? last)%Z && ((c - first) mod step =? 0)%Z
      then delta else lower_delta runs' c
  end.

(** The lowercase of a code point other than U+03A3: U+0130 has the
    two-code-point lowercase U+0069 U+0307. *)
Definition lower_char (c : Z) : list Z :=
  if (c =? 304)%Z then [105; 775]%Z else [c + lower_delta lower_runs c]%Z.

Definition is_cased (u : uchar) : bool :=
  match u with UChar c => in_ranges cased_ranges c | UByte _ => false end.

Definition is_case_ignorable (u : uchar) : bool :=
  match u with UChar c => in_ranges case_ignorable_ranges c | UByte _ => false end.

(** The context of a final sigma: a cased letter before it, case-ignorable
    characters skipped, ... *)
Fixpoint cased_before (before : list uchar) : bool :=
  match before with
  | [] => false
  | u :: before' => if is_case_ignorable u then cased_before before' else is_cased u
  end.

(** ... and none after it. *)
Fixpoint uncased_after (after : list uchar) : bool :=
  match after with
  | [] => true
  | u :: after' => if is_case_ignorable u then uncased_after after' else negb (is_cased u)
  end.

(** [before] holds the characters already read, the nearest first. *)
Fixpoint lower_chars (before after : list uchar) : list uchar :=
  match after with
  | [] => []
  | UChar c :: after' =>
      (if (c =? 931)%Z
       then [UChar (if cased_before before && uncased_after after' then 962 else 963)]
       else map UChar (lower_char c))
      ++ lower_chars (UChar c :: before) after'
  | UByte b :: after' => UByte b :: lower_chars (UByte b :: before) after'
  end.

(** [s.lower()] *)
Definition lower (s : string) : string := encode (lower_chars [] (decode s)).


(** *** Whitespace *)

(** [c.isspace()] for a one-byte character: U+0009..U+000D and
    U+001C..U+0020. *)
Definition is_space (c : ascii) : bool :=
  let n := nat_of_ascii c in
  (Nat.leb 9 n && Nat.leb n 13) || (Nat.leb 28 n && Nat.leb n 32).

(** The other whitespace characters: U+0085 and U+00A0 (bytes C2 85 and
    C2 A0), U+1680 (E1 9A 80), U+2000..U+200A (E2 80 80..8A), U+2028,
    U+2029 and U+202F (E2 80 A8, A9, AF), U+205F (E2 81 9F) and U+3000
    (E3 80 80). *)
Definition is_space2 (a b : ascii) : bool :=
  (byte_val a =? 194)%Z && ((byte_val b =? 133)%Z || (byte_val b =? 160)%Z).

Definition is_space3 (a b c : ascii) : bool :=
  ((byte_val a =? 225)%Z && (byte_val b =? 154)%Z && (byte_val c =? 128)%Z) ||
  ((byte_val a =? 226)%Z && (byte_val b =? 128)%Z &&
     (byte_in 128 138 c || (byte_val c =? 168)%Z || (byte_val c =? 169)%Z || (byte_val c =? 175)%Z)) ||
  ((byte_val a =? 226)%Z && (byte_val b =? 129)%Z && (byte_val c =? 159)%Z) ||
  ((byte_val a =? 227)%Z && (byte_val b =? 128)%Z && (byte_val c =? 128)%Z).

(** [s.lstrip()] *)
Fixpoint lstrip (s : string) : string :=
  match s with
  | EmptyString => EmptyString
  | String a s1 =>
      if is_space a then lstrip s1
      else match s1 with
           | String b s2 =>
               if is_space2 a b then lstrip s2
               else match s2 with
                    | String c s3 => if is_space3 a b c then lstrip s3 else s
                    | EmptyString => s
                    end
           | EmptyString => s
           end
  end.

(** [s.rstrip()]: the longest suffix made of whitespace is removed; in
    UTF-8 text a whitespace character can only start where a character
    starts, so the suffix from a byte is all whitespace exactly when
    [lstrip] removes it whole. *)
Fixpoint rstrip (s : string) : string :=
  match s with
  | EmptyString => EmptyString
  | String a s1 => if lstrip s =? "" then EmptyString else String a (rstrip s1)
  end.

(** [s.strip()] *)
Definition strip (s : string) : string := rstrip (lstrip s).

(** *** Text files *)

Definition cr : ascii := ascii_of_nat 13.

(** Reading a file in text mode ([newline=None], universal newlines):
    ["\r\n"] and a lone ["\r"] become ["\n"]. *)
Fixpoint universal_newlines (s : string) : string :=
  match s with
  | EmptyString => EmptyString
  | String a s1 =>
      if Ascii.eqb a cr then
        String newline
          (match s1 with
           | String b s2 =>
               if Ascii.eqb b newline then universal_newlines s2 else universal_newlines s1
           | EmptyString => EmptyString
           end)
      else String a (universal_newlines s1)
  end.

(** [for line in f]: the lines of a text, each keeping its newline. *)
Fixpoint readlines (s : string) : list string :=
  match s with
  | EmptyString => []
  | String c s' =>
      if Ascii.eqb c newline then nl :: readlines s'
      else match readlines s' with
           | [] => [String c EmptyString]
           | l :: ls => String c l :: ls
           end
  end.

(** [s.split(",", 1)]: [Some (before, after)] when [s] has a comma, [None]
    when the split yields a single piece. *)
Fixpoint split_comma (s : string) : option (string * string) :=
  match s with
  | EmptyString => None
  | String c s' =>
      if Ascii.eqb c "," then Some (EmptyString, s')
      else match split_comma s' with
           | Some (a, b) => Some (String c a, b)
           | None => None
           end
  end.

(** [f.writelines(ls)] *)
Definition writelines (ls : list string) : string :=
  fold_right String.append EmptyString ls.

(** Python truthiness of a [str | None]: the string when it is non-empty. *)
Definition as_truthy (o : option string) : option string :=
  match o with
  | Some EmptyString => None
  | _ => o
  end.

End PyStr.
Import PyStr.

(** A value or a raised exception carrying [str(e)]. *)
Inductive result (A : Type) : Type :=
| Ok (a : A)
| Raise (e : string).
Arguments Ok {A} a.
Arguments Raise {A} e.

(** ** The voice loop of [src/main.py] *)

(** The six trigger categories of [start], in the order of its [if]s. *)
Inductive category : Type :=
| Scene | Sensory | Ocr | Sos | Navigation | Face.

(** What the voice loop does that can be observed. *)
Inductive event : Type :=
| EvListen                                   (* a [get_voice_input()] call *)
| EvSpeak (text : string)                    (* [speak_text(text)] *)
| EvServo (angle : nat)                      (* [set_servo_angle(angle)] *)
| EvHandler (c : category)                   (* the handler of [c] is called *)
| EvContextual (user_input : string) (context : option string).
  (* [generate_contextual_response(user_input, context)] *)

(** The devices and remote services the loop calls.  Each handler returns
    its value ([None] for Python's [None]) and the new world.  Handlers that
    catch all their exceptions are given their catching type; Twilio's
    [Client(...)] and [client.messages.create(...)] and the generative
    model call may raise.  [get_location] catches its own exceptions. *)
Record Env (World : Type) : Type := {
  get_voice_input : World -> option string * World;
  analyze_scene : World -> option string * World;
  recognize_object : World -> option string * World;
  extract_text_from_image : World -> option string * World;
  analyze_environment : World -> option string * World;
  register_new_face : World -> option string * World;
  twilio_client : World -> result unit * World;
  get_location : World -> string * World;
  messages_create : string -> string -> string -> World -> result string * World;
    (* [from_], [body], [to] -> [message.sid] *)
  generate_content : string -> World -> result string * World;
    (* [model.generate_content([s]).text] *)
  TWILIO_PHONE_NUMBER : World -> string;
  EMERGENCY_PHONE_NUMBER : World -> string
}.

(** A run of the loop: it returns a value, the final world and its trace,
    or is still running when the fuel given to its [while True] loops is
    spent (with the trace so far). *)
Inductive outcome (World A : Type) : Type :=
| Done (a : A) (w : World) (tr : list event)
| OutOfFuel (tr : list event).
Arguments Done {World A} a w tr.
Arguments OutOfFuel {World A} tr.

Definition M (World A : Type) : Type := World -> outcome World A.

Definition prepend {World A} (tr : list event) (o : outcome World A)
  : outcome World A :=
  match o with
  | Done a w t => Done a w (tr ++ t)
  | OutOfFuel t => OutOfFuel (tr ++ t)
  end.

Definition ret {World A} (a : A) : M World A := fun w => Done a w [].

Definition bind {World A B} (m : M World A) (k : A -> M World B) : M World B :=
  fun w =>
    match m w with
    | Done a w1 t1 => prepend t1 (k a w1)
    | OutOfFuel t => OutOfFuel t
    end.

Notation "x <- c1 ;; c2" := (bind c1 (fun x => c2))
  (at level 61, c1 at next level, right associativity).
Notation "e1 ;; e2" := (bind e1 (fun _ => e2))
  (at level 61, right associativity).

Definition emit {World} (e : event) : M World unit := fun w => Done tt w [e].

Definition lift {World A} (f : World -> A * World) : M World A :=
  fun w => let (a, w') := f w in Done a w' [].

Definition speak_text {World} (text : string) : M World unit := emit (EvSpeak text).

(** [set_servo_angle] is best effort: its result is ignored by every caller. *)
Definition set_servo_angle {World} (angle : nat) : M World unit := emit (EvServo angle).

(* Trigger words of [start] *)
Definition scene_trigger := ["scene"; "describe"; "description"; "seeing"; "see"].
Definition sensory_trigger := ["sensory"; "search"; "holding"; "buy"].
Definition ocr_trigger := ["read"; "book"; "notice"; "pamphlet"].
Definition sos_trigger := ["sos"; "emergency"; "help"].
Definition face_trigger := ["face"; "recognize"; "register"].
Definition nav_trigger :=
  ["navigation"; "route"; "navigate"; "path"; "show me route"; "show me"].

Definition trigger_words (c : category) : list string :=
  match c with
  | Scene => scene_trigger
  | Sensory => sensory_trigger
  | Ocr => ocr_trigger
  | Sos => sos_trigger
  | Navigation => nav_trigger
  | Face => face_trigger
  end.

(** The order of the [if]s in [start]. *)
Definition dispatch_order : list category :=
  [Scene; Sensory; Ocr; Sos; Navigation; Face].

Section Dispatcher.
Context {World : Type} (E : Env World).

Definition listen : M World (option string) :=
  emit EvListen ;; lift (get_voice_input _ E).

Definition call {A} (c : category) (h : M World A) : M World A :=
  emit (EvHandler c) ;; h.

(** [object_recognizer.generate_contextual_response] *)
Definition generate_contextual_response (user_input : string)
    (context : option string) : M World string :=
  emit (EvContextual user_input context) ;;
  match as_truthy context with
  | Some ctx =>
      r <- lift (generate_content _ E (ctx ++ nl ++ "User: " ++ user_input)) ;;
      match r with
      | Ok text => ret text
      | Raise _ => ret "Sorry, I couldn't process your request."
      end
  | None => ret "There is no context available to respond to your question."
  end.

(** [object_recognizer.handle_follow_up_queries]; [fuel] bounds the
    iterations of its [while True]. *)
Fixpoint handle_follow_up_queries (fuel : nat) (context : string) : M World unit :=
  match fuel with
  | O => fun _ => OutOfFuel []
  | S fuel' =>
      speak_text "You can ask follow-up questions or say 'exit' to end." ;;
      user_query <- listen ;;
      match as_truthy user_query with
      | Some q =>
          let user_query := lower q in
          if contains "exit" user_query then
            speak_text "Exiting follow-up session."
          else
            response <- generate_contextual_response user_query (Some context) ;;
            speak_text response ;;
            handle_follow_up_queries fuel' context
      | None =>
          speak_text "No valid input detected. Please try again or say 'exit' to end." ;;
          handle_follow_up_queries fuel' context
      end
  end.

(** [emergency_handler.send_sos_message]: its [try] covers the whole body. *)
Definition send_sos_message : M World string :=
  fun w =>
    match twilio_client _ E w with
    | (Raise e, w1) => Done ("Failed to send SOS message: " ++ e) w1 []
    | (Ok _, w1) =>
        let (location, w2) := get_location _ E w1 in
        let message_body :=
          "🚨 SOS Alert 🚨" ++ nl ++ "Please send help!" ++ nl ++ "Location: " ++ location in
        match messages_create _ E (TWILIO_PHONE_NUMBER _ E w2) message_body
                (EMERGENCY_PHONE_NUMBER _ E w2) w2 with
        | (Ok sid, w3) => Done sid w3 []
        | (Raise e, w3) => Done ("Failed to send SOS message: " ++ e) w3 []
        end
    end.

(** The six trigger blocks of [start], on the utterance [u]. *)
Definition scene_block (u : string) : M World unit :=
  if any_in scene_trigger u then
    set_servo_angle 115 ;;
    scene_description <- call Scene (lift (analyze_scene _ E)) ;;
    match as_truthy scene_description with
    | Some d => speak_text d
    | None => speak_text "Failed to analyze scene"
    end
  else ret tt.

Definition sensory_block (fuel : nat) (u : string) : M World unit :=
  if any_in sensory_trigger u then
    object_info <- call Sensory (lift (recognize_object _ E)) ;;
    match as_truthy object_info with
    | Some info => handle_follow_up_queries fuel info
    | None => speak_text "Failed to recognize object"
    end
  else ret tt.

Definition ocr_block (u : string) : M World unit :=
  if any_in ocr_trigger u then
    set_servo_angle 115 ;;
    extracted_text <- call Ocr (lift (extract_text_from_image _ E)) ;;
    match as_truthy extracted_text with
    | Some _ => ret tt
    | None => speak_text "Failed to extract text from image"
    end
  else ret tt.

Definition sos_block (u : string) : M World unit :=
  if any_in sos_trigger u then
    result <- call Sos send_sos_message ;;
    if contains "SID" result then speak_text "SOS message sent successfully"
    else speak_text "Failed to send SOS message"
  else ret tt.

Definition nav_block (u : string) : M World unit :=
  if any_in nav_trigger u then
    set_servo_angle 90 ;;
    navigation_info <- call Navigation (lift (analyze_environment _ E)) ;;
    match as_truthy navigation_info with
    | Some _ => ret tt
    | None => speak_text "Failed to analyze environment for navigation"
    end
  else ret tt.

Definition face_block (u : string) : M World unit :=
  if any_in face_trigger u then
    set_servo_angle 90 ;;
    detected_name <- call Face (lift (register_new_face _ E)) ;;
    match as_truthy detected_name with
    | Some name => speak_text ("Face registered as " ++ name)
    | None => speak_text "Face registration failed."
    end
  else ret tt.

(** The exit command of [start]; [true] when [start] returns. *)
Definition exit_check (u : string) : M World bool :=
  if contains "exit" u then speak_text "Exiting now." ;; ret true
  else ret false.

(** The checks that follow the object-recognition block. *)
Definition dispatch_after_sensory (u : string) : M World bool :=
  ocr_block u ;;
  sos_block u ;;
  nav_block u ;;
  face_block u ;;
  exit_check u.

(** The body of [if user_talk:] in [start]. *)
Definition dispatch (fuel : nat) (u : string) : M World bool :=
  scene_block u ;;
  sensory_block fuel u ;;
  dispatch_after_sensory u.

(** One iteration of the inner [while True] of [start]; [true] when
    [start] returns.  [fuel] is given to a follow-up sub-session. *)
Definition start_cycle (fuel : nat) : M World bool :=
  user_talk <- listen ;;
  match as_truthy user_talk with
  | Some u => dispatch fuel u
  | None => speak_text "No Input" ;; ret false
  end.

(** The inner [while True] of [start], for at most [cycles] iterations. *)
Fixpoint start_loop (cycles fuel : nat) : M World unit :=
  match cycles with
  | O => fun _ => OutOfFuel []
  | S n =>
      stop <- start_cycle fuel ;;
      if stop then ret tt else start_loop n fuel
  end.

(** [start]: the outer [while True] runs once, since the inner loop is left
    only by [return]. *)
Definition start (cycles fuel : nat) : M World unit :=
  speak_text "Start to speak" ;; start_loop cycles fuel.

End Dispatcher.

(** The trace of a run, finished or not. *)
Definition trace_of {World A} (o : outcome World A) : list event :=
  match o with
  | Done _ _ t => t
  | OutOfFuel t => t
  end.

(** The feature handlers called in a trace, in order. *)
Fixpoint handler_events (tr : list event) : list category :=
  match tr with
  | [] => []
  | EvHandler c :: tr' => c :: handler_events tr'
  | _ :: tr' => handler_events tr'
  end.

(** The categories whose trigger words occur in [u], in dispatch order. *)
Definition matched (u : string) : list category :=
  filter (fun c => any_in (trigger_words c) u) dispatch_order.


(** ** [iot_controller.get_frame] *)
Module Capture.

(** The device calls [get_frame] makes, each one ending in a value or a
    raised exception.  [esp32_fetch url timeout] is
    [cv2.imdecode(urlopen(url, timeout=timeout).read())], [None] when the
    bytes do not decode; [local_open i] is [cv2.VideoCapture(i).isOpened()];
    [local_read i] is [cap.read()]. *)
Record Devices (Frame : Type) : Type := {
  esp32_fetch : string -> nat -> result (option Frame);
  local_open : nat -> result bool;
  local_read : nat -> result (bool * option Frame)
}.
Arguments esp32_fetch {Frame} d url timeout.
Arguments local_open {Frame} d i.
Arguments local_read {Frame} d i.

Inductive attempt : Type :=
| NetAttempt (url : string) (timeout : nat)
| LocalAttempt (index : nat).

(** The frame returned and the cameras tried, in order. *)
Definition get_frame {Frame} (d : Devices Frame) (ESP32_CAM_URL : string)
    (CAMERA_INDEX : nat) : option Frame * list attempt :=
  let first := NetAttempt ESP32_CAM_URL 5 in
  match esp32_fetch d ESP32_CAM_URL 5 with
  | Ok (Some frame) => (Some frame, [first])
  | _ =>
      let local :=
        match local_open d CAMERA_INDEX with
        | Raise _ => None
        | Ok false => None
        | Ok true =>
            match local_read d CAMERA_INDEX with
            | Raise _ => None
            | Ok (false, _) => None
            | Ok (true, frame) => frame
            end
        end in
      (local, [first; LocalAttempt CAMERA_INDEX])
  end.

End Capture.

(** ** Paths and files *)
Module OsPath.

Fixpoint ends_with_slash (a : string) : bool :=
  match a with
  | EmptyString => false
  | String c EmptyString => Ascii.eqb c "/"
  | String _ a' => ends_with_slash a'
  end.

(** [os.path.join(a, b)] ([posixpath]): [b] when it is absolute, [a + b]
    when [a] is empty or ends with a slash, [a + "/" + b] otherwise. *)
Definition join (a b : string) : string :=
  if String.prefix "/" b then b
  else if (a =? "") || ends_with_slash a then a ++ b
  else a ++ "/" ++ b.

End OsPath.

Module FS.

(** The operations on a path that can raise [OSError]. *)
Inductive os_op : Type := OpRead | OpWrite | OpAppend | OpUnlink.

(** The files, by path, with their bytes, and the operations that raise
    [OSError] on a path (permissions, a missing directory, a full disk).
    A path names the file it spells: links, ["."] and [".."] are not
    resolved. *)
Record fs : Type := {
  files : list (string * string);
  raises : os_op -> string -> bool
}.

Fixpoint lookup (p : string) (l : list (string * string)) : option string :=
  match l with
  | [] => None
  | (q, b) :: l' => if q =? p then Some b else lookup p l'
  end.

Definition read_bytes (F : fs) (p : string) : option string := lookup p (files F).

(** [os.path.exists(p)] *)
Definition path_exists (F : fs) (p : string) : bool :=
  match read_bytes F p with Some _ => true | None => false end.

Definition put (F : fs) (p b : string) : fs :=
  {| files := (p, b) :: filter (fun e => negb (fst e =? p)) (files F);
     raises := raises F |}.

Definition drop (F : fs) (p : string) : fs :=
  {| files := filter (fun e => negb (fst e =? p)) (files F); raises := raises F |}.

Definition no_such_file (p : string) : string :=
  "[Errno 2] No such file or directory: '" ++ p ++ "'".

Definition denied (p : string) : string :=
  "[Errno 13] Permission denied: '" ++ p ++ "'".

(** Reading [p] in text mode with the UTF-8 locale encoding: strict
    decoding, universal newlines. *)
Definition read_text (F : fs) (p : string) : result string :=
  if raises F OpRead p then Raise (denied p)
  else match read_bytes F p with
       | None => Raise (no_such_file p)
       | Some b =>
           if utf8_valid b then Ok (universal_newlines b)
           else Raise "'utf-8' codec can't decode bytes: invalid continuation byte"
       end.

(** [open(p, "w")] and writing [text] ([\n] is written as it is). *)
Definition write_text (F : fs) (p text : string) : result fs :=
  if raises F OpWrite p then Raise (denied p) else Ok (put F p text).

(** [open(p, "a")] and writing [text]. *)
Definition append_text (F : fs) (p text : string) : result fs :=
  if raises F OpAppend p then Raise (denied p)
  else Ok (put F p (match read_bytes F p with Some b => b | None => EmptyString end ++ text)).

(** [os.unlink(p)] *)
Definition unlink (F : fs) (p : string) : result fs :=
  if raises F OpUnlink p then Raise (denied p)
  else match read_bytes F p with
       | None => Raise (no_such_file p)
       | Some _ => Ok (drop F p)
       end.

End FS.

(** ** The face-registration log of [face_recognition] *)
Module FaceLog.
Import FS.

(** [os.path.join(FACE_OUTPUT_DIR, "face_log.txt")] *)
Definition log_file_path (FACE_OUTPUT_DIR : string) : string :=
  OsPath.join FACE_OUTPUT_DIR "face_log.txt".

(** The line [register_new_face] appends:
    [f.write(f"{person_name}, {output_path}\n")]. *)
Definition log_line (person_name output_path : string) : string :=
  person_name ++ ", " ++ output_path ++ nl.

(** The reading loop of [delete_face_registration]: the lines kept and the
    image paths to delete, or the [ValueError] of
    [name, file_path = line.strip().split(",", 1)]. *)
Fixpoint scan_registrations (person_name : string) (lines : list string)
  : result (list string * list string) :=
  match lines with
  | [] => Ok ([], [])
  | line :: rest =>
      if strip line =? "" then scan_registrations person_name rest
      else match split_comma (strip line) with
           | None => Raise "not enough values to unpack (expected 2, got 1)"
           | Some (name, file_path) =>
               match scan_registrations person_name rest with
               | Raise e => Raise e
               | Ok (registrations, deleted_files) =>
                   if strip name =? person_name
                   then Ok (registrations, strip file_path :: deleted_files)
                   else Ok (line :: registrations, deleted_files)
               end
           end
  end.

(** The loop [for file_path in deleted_files: if os.path.exists(file_path):
    os.unlink(file_path)]: the files afterwards, and the [OSError] that
    ended it, if any. *)
Fixpoint unlink_existing (F : fs) (paths : list string) : fs * result unit :=
  match paths with
  | [] => (F, Ok tt)
  | file_path :: rest =>
      if path_exists F file_path then
        match unlink F file_path with
        | Raise e => (F, Raise e)
        | Ok F1 => unlink_existing F1 rest
        end
      else unlink_existing F rest
  end.

(** [delete_face_registration]: the [bool] returned and the files
    afterwards; every exception is caught and gives [False]. *)
Definition delete_face_registration (FACE_OUTPUT_DIR person_name : string) (F : fs)
  : bool * fs :=
  let log_file_path := log_file_path FACE_OUTPUT_DIR in
  if negb (path_exists F log_file_path) then (false, F)
  else
    match read_text F log_file_path with
    | Raise _ => (false, F)
    | Ok text =>
        match scan_registrations person_name (readlines text) with
        | Raise _ => (false, F)
        | Ok (registrations, deleted_files) =>
            match unlink_existing F deleted_files with
            | (F1, Raise _) => (false, F1)
            | (F1, Ok _) =>
                match write_text F1 log_file_path (writelines registrations) with
                | Raise _ => (false, F1)
                | Ok F2 => (true, F2)
                end
            end
        end
    end.

(** The name field of a log line, as [delete_face_registration] reads it. *)
Definition name_field (line : string) : option string :=
  match split_comma (strip line) with
  | Some (name, _) => Some (strip name)
  | None => None
  end.

(** Predicates on log lines, used to state the round trip. *)

(** [line] is one text line: it ends with its only newline. *)
Fixpoint line_ok (line : string) : bool :=
  match line with
  | EmptyString => false
  | String c s => if Ascii.eqb c newline then s =? "" else line_ok s
  end.

Fixpoint no_cr (s : string) : bool :=
  match s with
  | EmptyString => true
  | String c s' => negb (Ascii.eqb c cr) && no_cr s'
  end.

Definition has_comma (s : string) : bool :=
  match split_comma s with Some _ => true | None => false end.

(** A line the reading loop accepts: blank, or with a comma. *)
Definition registration_line (line : string) : bool :=
  line_ok line && no_cr line && ((strip line =? "") || has_comma (strip line)).

(** A line the reading loop rejects with [ValueError]. *)
Definition bad_line (line : string) : bool :=
  negb (strip line =? "") && negb (has_comma (strip line)).

(** The name field of [line] is [person_name]. *)
Definition named (person_name line : string) : bool :=
  match name_field line with Some n => n =? person_name | None => false end.

(** The lines the rewrite keeps: not blank and not named [person_name]. *)
Definition kept (person_name line : string) : bool :=
  negb (strip line =? "") && negb (named person_name line).

End FaceLog.

(** ** The producer and consumer of [video_analyzer] *)
Module Video.

(** Decimal digits of a [nat], as in an f-string. *)
Fixpoint digits_aux (fuel n : nat) (acc : string) : string :=
  match fuel with
  | O => acc
  | S f =>
      let acc' := String (ascii_of_nat (48 + n mod 10)) acc in
      if Nat.ltb n 10 then acc' else digits_aux f (n / 10) acc'
  end.

Definition string_of_nat (n : nat) : string := digits_aux (S n) n EmptyString.

(** One [cap.read()] of the capture loop: whether it succeeded, the clock
    at that moment, and whether 'q' was pressed in the following
    [cv2.waitKey(1)]. *)
Record tick : Type := { read_ok : bool; clock : string; key_q : bool }.

(** The camera of [cv2.VideoCapture(0)]: [isOpened()], [get(CAP_PROP_FPS)]
    and its successive reads; reads past the end of [cam_ticks] fail. *)
Record camera : Type := { cam_opened : bool; cam_fps : nat; cam_ticks : list tick }.

(** A queue entry: [(frame_filename, timestamp)], or the sentinel [None]. *)
Definition entry : Type := (string * string)%type.

(** The [while True] loop of [capture_frames]: the queue after it, and the
    exception that left it, if any. *)
Fixpoint capture_loop (output_folder : string) (ticks : list tick)
    (frame_count frame_interval : nat) (frame_queue : list (option entry))
  : list (option entry) * option string :=
  match ticks with
  | [] => (frame_queue, None)
  | t :: ts =>
      if negb (read_ok t) then (frame_queue, None)
      else if Nat.eqb frame_interval 0 then
        (frame_queue, Some "integer division or modulo by zero")
      else
        let frame_queue' :=
          if Nat.eqb (frame_count mod frame_interval) 0 then
            (frame_queue ++ [Some (OsPath.join output_folder
                                     ("frame_" ++ string_of_nat frame_count ++ ".jpg"),
                                   clock t)])%list
          else frame_queue in
        if key_q t then (frame_queue', None)
        else capture_loop output_folder ts (S frame_count) frame_interval frame_queue'
  end.

(** [capture_frames]: the queue after the producer thread ends. *)
Definition capture_frames (output_folder : string) (cam : camera)
    (frame_queue : list (option entry)) (interval : nat) : list (option entry) :=
  if negb (cam_opened cam) then frame_queue
  else
    let fps := if Nat.eqb (cam_fps cam) 0 then 30 else cam_fps cam in
    let frame_interval := fps * interval in
    match capture_loop output_folder (cam_ticks cam) 0 frame_interval frame_queue with
    | (q, None) => (q ++ [None])%list
    | (q, Some _) => q
    end.

(** [describe_frames] reading the queue in FIFO order: the PDF pages it
    writes on the sentinel, or [None] when [frame_queue.get()] is left
    waiting on an empty queue forever.  [describe] is the text of one page
    (the model's description or ["Error generating description."]). *)
Fixpoint describe_frames (describe : entry -> string)
    (frame_queue : list (option entry)) (pages : list string) : option (list string) :=
  match frame_queue with
  | [] => None
  | None :: _ => Some pages
  | Some e :: rest => describe_frames describe rest (pages ++ [describe e])%list
  end.

(** [start_video_analysis]: one producer and one consumer over a fresh
    FIFO queue, so the consumer's [get]s return the producer's [put]s in
    order, whatever the interleaving; it returns when both threads end. *)
Definition start_video_analysis (output_folder : string) (cam : camera)
    (interval : nat) (describe : entry -> string) : option (list string) :=
  describe_frames describe (capture_frames output_folder cam [] interval) [].

End Video.

(** ** The rest of [emergency_handler] *)
Module Emergency.

(** [data.get(key, default)] on the object decoded from the ipinfo
    response; its fields are strings. *)
Fixpoint dict_get (data : list (string * string)) (key default : string) : string :=
  match data with
  | [] => default
  | (k, v) :: rest => if k =? key then v else dict_get rest key default
  end.

(** [get_location]: [response] is [requests.get(...).json()], [Raise] when
    the request or the decoding raises. *)
Definition get_location (response : result (list (string * string))) : string :=
  match response with
  | Raise _ => "Location unavailable"
  | Ok data =>
      let location := dict_get data "loc" "Unknown location" in
      let city := dict_get data "city" "Unknown city" in
      let region := dict_get data "region" "Unknown region" in
      let country := dict_get data "country" "Unknown country" in
      let maps_link :=
        if negb (location =? "Unknown location")
        then "https://www.google.com/maps?q=" ++ location
        else "Location unavailable" in
      city ++ ", " ++ region ++ ", " ++ country ++ nl ++ "📍 Location: " ++ location
        ++ nl ++ "🔗 Google Maps: " ++ maps_link
  end.





(** The dictionary of [test_emergency_system]. *)
Record test_results : Type := {
  location_service : bool;
  twilio_connection : bool;
  message_composition : bool
}.

(** [test_emergency_system]: [ipinfo] is the geolocation response of
    [get_location], [client] the construction of [Client(...)] and [fetch]
    the account fetch, each raising or not. *)
Definition test_emergency_system (ipinfo : result (list (string * string)))
    (client : result unit) (fetch : result (option unit)) : test_results :=
  let location := get_location ipinfo in
  let location_service := negb (location =? "Location unavailable") in
  match client with
  | Raise _ => {| location_service := location_service; twilio_connection := false;
                  message_composition := false |}
  | Ok _ =>
      match fetch with
      | Raise _ => {| location_service := location_service; twilio_connection := false;
                      message_composition := false |}
      | Ok account =>
          {| location_service := location_service;
             twilio_connection := match account with Some _ => true | None => false end;
             message_composition :=
               Nat.ltb 0 (String.length ("Test message - Location: " ++ location)) |}
      end
  end.

(** The first line of the alert of [send_custom_emergency_message]. *)
Definition custom_alert_banner : string := "🚨 Emergency Alert 🚨".

(** [send_custom_emergency_message]: [client] is [Client(...)], [ipinfo]
    the response [get_location] reads and [create] is
    [client.messages.create(...)] on a body, giving the message SID or
    raising.  It returns the [str] returned and the body of the message
    sent, if one was. *)
Definition send_custom_emergency_message (client : result unit)
    (ipinfo : result (list (string * string))) (create : string -> result string)
    (custom_message : string) : string * option string :=
  match client with
  | Raise e => ("Failed to send custom emergency message: " ++ e, None)
  | Ok _ =>
      let location := get_location ipinfo in
      let message_body :=
        custom_alert_banner ++ nl ++ custom_message ++ nl ++ "Location: " ++ location in
      match create message_body with
      | Raise e => ("Failed to send custom emergency message: " ++ e, None)
      | Ok sid => (sid, Some message_body)
      end
  end.

End Emergency.

(** ** The rest of [face_recognition] *)
Module FaceRegistry.
Import FS.

(** [line.split(",")[0]] *)
Definition first_field (line : string) : string :=
  match split_comma line with
  | Some (name, _) => name
  | None => line
  end.

(** [line.split(",")[0].strip()] *)
Definition registered_name (line : string) : string := strip (first_field line).

(** The reading loop of [get_registered_faces]. *)
Fixpoint collect_names (registered_faces : list string) (lines : list string) : list string :=
  match lines with
  | [] => registered_faces
  | line :: rest =>
      if strip line =? "" then collect_names registered_faces rest
      else
        let name := registered_name line in
        if existsb (String.eqb name) registered_faces
        then collect_names registered_faces rest
        else collect_names (registered_faces ++ [name]) rest
  end.

(** [get_registered_faces]: [[]] when the log does not exist, and when
    reading it raises. *)
Definition get_registered_faces (FACE_OUTPUT_DIR : string) (F : fs) : list string :=
  let log_file_path := FaceLog.log_file_path FACE_OUTPUT_DIR in
  if negb (path_exists F log_file_path) then []
  else
    match read_text F log_file_path with
    | Raise _ => []
    | Ok text => collect_names [] (readlines text)
    end.

(** The counted fields of [get_face_detection_stats]; the others are the
    constants of [config.py]. *)
Record face_stats : Type := {
  total_registrations : nat;
  registered_persons : list string
}.

(** [get_face_detection_stats]: [None] is the [{}] returned when reading
    the log raises. *)
Definition get_face_detection_stats (FACE_OUTPUT_DIR : string) (F : fs)
  : option face_stats :=
  let log_file_path := FaceLog.log_file_path FACE_OUTPUT_DIR in
  let total :=
    if path_exists F log_file_path then
      match read_text F log_file_path with
      | Raise e => Raise e
      | Ok text => Ok (List.length (readlines text))
      end
    else Ok 0 in
  match total with
  | Raise _ => None
  | Ok n =>
      Some {| total_registrations := n;
              registered_persons := get_registered_faces FACE_OUTPUT_DIR F |}
  end.

(** The devices and inputs [register_new_face] meets: whether
    [get_frame] returned a frame, the number of faces [detect_faces] found,
    the transcription of [get_voice_input], the line typed at [input]
    ([Raise] on end of file), the [strftime] timestamp, what
    [cv2.imwrite] returns or raises, and the bytes of the image it
    writes. *)
Record registration_io : Type := {
  frame_captured : bool;
  faces_found : nat;
  spoken_name : option string;
  typed_name : result string;
  timestamp : string;
  imwrite_result : result bool;
  image_bytes : string
}.

(** [register_new_face]: the name returned and the files afterwards. *)
Definition register_new_face (io : registration_io) (FACE_OUTPUT_DIR : string) (F : fs)
  : option string * fs :=
  if negb (frame_captured io) then (None, F)
  else if Nat.eqb (faces_found io) 0 then (None, F)
  else
    let person_name :=
      match as_truthy (spoken_name io) with
      | Some name => Ok (Some name)
      | None =>
          match typed_name io with
          | Raise e => Raise e
          | Ok typed => Ok (as_truthy (Some (strip typed)))
          end
      end in
    match person_name with
    | Raise _ => (None, F)
    | Ok None => (None, F)
    | Ok (Some person_name) =>
        let output_path :=
          OsPath.join FACE_OUTPUT_DIR (person_name ++ "_" ++ timestamp io ++ ".jpg") in
        match imwrite_result io with
        | Raise _ => (None, F)
        | Ok written =>
            let F1 := if written then put F output_path (image_bytes io) else F in
            match append_text F1 (FaceLog.log_file_path FACE_OUTPUT_DIR)
                    (FaceLog.log_line person_name output_path) with
            | Raise _ => (None, F1)
            | Ok F2 => (Some person_name, F2)
            end
        end
    end.

(** Predicates on the lines of a text, used to state the properties. *)

Fixpoint no_newline (s : string) : bool :=
  match s with
  | EmptyString => true
  | String c s' => negb (Ascii.eqb c newline) && no_newline s'
  end.

(** The lines of a text: each ends with its only newline, but the last,
    which may instead be a non-empty piece with no newline. *)
Fixpoint text_lines (ls : list string) : bool :=
  match ls with
  | [] => true
  | [l] => FaceLog.line_ok l || (negb (l =? "") && no_newline l)
  | l :: rest => FaceLog.line_ok l && text_lines rest
  end.

End FaceRegistry.

(** ** The rest of [video_analyzer] *)
Module VideoFaces.

(** [s.replace(old, new)] for a non-empty [old]: occurrences are replaced
    from left to right.  [fuel] bounds the number of characters read. *)
Fixpoint str_replace_fuel (fuel : nat) (old new s : string) : string :=
  match fuel with
  | O => s
  | S f =>
      match s with
      | EmptyString => EmptyString
      | String c s' =>
          if String.prefix old s
          then new ++ str_replace_fuel f old new
                        (String.substring (String.length old)
                           (String.length s - String.length old) s)
          else String c (str_replace_fuel f old new s')
      end
  end.

Definition str_replace (old new s : string) : string :=
  str_replace_fuel (String.length s) old new s.

(** A double quote. *)
Definition dq : string := String (ascii_of_nat 34) EmptyString.

(** The arguments of [replace_special_characters], as the source has them
    (UTF-8 text).  Its second line is a single call of [text.replace] whose
    first argument is a triple-quoted string: the 15 characters comma,
    space, apostrophe, double quote, apostrophe, closing parenthesis and
    [.replace(]; its second argument is a double quote. *)
Definition quote_call : string := ", '" ++ dq ++ "').replace(".
Definition en_dash : string := "–".
Definition em_dash : string := "—".
Definition bullet : string := "•".

Definition replace_special_characters (text : string) : string :=
  let text := str_replace "'" "'" (str_replace "'" "'" text) in
  let text := str_replace quote_call dq text in
  let text := str_replace em_dash "-" (str_replace en_dash "-" text) in
  str_replace bullet "*" text.

(** [s.lower().endswith(suffix)] for an ASCII [suffix]. *)
Definition ends_with (suffix s : string) : bool :=
  let n := String.length s in
  let m := String.length suffix in
  Nat.leb m n && (String.substring (n - m) m s =? suffix).

Definition image_file (filename : string) : bool :=
  let l := lower filename in
  ends_with ".png" l || ends_with ".jpg" l || ends_with ".jpeg" l.

(** The index of the last ["."]. *)
Fixpoint rfind_dot (s : string) : option nat :=
  match s with
  | EmptyString => None
  | String c s' =>
      match rfind_dot s' with
      | Some i => Some (S i)
      | None => if Ascii.eqb c "." then Some 0 else None
      end
  end.

Fixpoint has_non_dot (s : string) : bool :=
  match s with
  | EmptyString => false
  | String c s' => negb (Ascii.eqb c ".") || has_non_dot s'
  end.

(** [os.path.splitext] of a file name with no separator: the extension
    starts at the last dot, unless only dots precede it. *)
Definition splitext (p : string) : string * string :=
  match rfind_dot p with
  | None => (p, EmptyString)
  | Some i =>
      if has_non_dot (String.substring 0 i p)
      then (String.substring 0 i p, String.substring i (String.length p - i) p)
      else (p, EmptyString)
  end.

Section Faces.
Variable Enc : Type.

(** The loop of [load_known_faces] over [os.listdir]; [encodings_of] is
    [face_recognition.face_encodings(load_image_file(path))]. *)
Fixpoint load_loop (encodings_of : string -> result (list Enc)) (files : list string)
    (known_encodings : list Enc) (known_names : list string)
  : result (list Enc * list string) :=
  match files with
  | [] => Ok (known_encodings, known_names)
  | filename :: rest =>
      if image_file filename then
        match encodings_of filename with
        | Raise e => Raise e
        | Ok [] => load_loop encodings_of rest known_encodings known_names
        | Ok (enc :: _) =>
            load_loop encodings_of rest (known_encodings ++ [enc])
              (known_names ++ [fst (splitext filename)])
        end
      else load_loop encodings_of rest known_encodings known_names
  end.

Definition load_known_faces (dir_exists : bool) (listdir : result (list string))
    (encodings_of : string -> result (list Enc)) : list Enc * list string :=
  if negb dir_exists then ([], [])
  else
    match listdir with
    | Raise _ => ([], [])
    | Ok files =>
        match load_loop encodings_of files [] [] with
        | Ok r => r
        | Raise _ => ([], [])
        end
    end.

Import QArith.

Variable face_distance : Enc -> Enc -> Q.

(** [numpy.argmin]: the first index of the least value. *)
Fixpoint argmin_aux (ds : list Q) (idx best : nat) (m : Q) : nat :=
  match ds with
  | [] => best
  | d :: ds' => if negb (Qle_bool m d) then argmin_aux ds' (S idx) idx d
                else argmin_aux ds' (S idx) best m
  end.

Definition argmin (ds : list Q) : nat :=
  match ds with
  | [] => O
  | d :: ds' => argmin_aux ds' 1%nat O d
  end.

(** The default [tolerance] of [compare_faces]. *)
Definition tolerance : Q := 6 # 10.

(** The label of one face; [None] is the [IndexError] of
    [known_names[best_match_index]]. *)
Definition face_label (known_encodings : list Enc) (known_names : list string)
    (encoding : Enc) : option string :=
  match known_encodings with
  | [] => Some "Unknown"
  | _ :: _ =>
      let distances := map (fun k => face_distance k encoding) known_encodings in
      let results := map (fun d => Qle_bool d tolerance) distances in
      if existsb (fun b => b) results
      then nth_error known_names (argmin distances)
      else Some "Unknown"
  end.

Fixpoint label_all (known_encodings : list Enc) (known_names : list string)
    (encodings : list Enc) (recognized_faces : list string) : option (list string) :=
  match encodings with
  | [] => Some recognized_faces
  | e :: rest =>
      match face_label known_encodings known_names e with
      | None => None
      | Some label => label_all known_encodings known_names rest (recognized_faces ++ [label])
      end
  end.

(** [recognize_faces]: [image_encodings] are the encodings of the image,
    [Raise] when it cannot be read; every exception gives [[]]. *)
Definition recognize_faces (image_encodings : result (list Enc))
    (known_encodings : list Enc) (known_names : list string) : list string :=
  match image_encodings with
  | Raise _ => []
  | Ok encodings =>
      match label_all known_encodings known_names encodings [] with
      | Some r => r
      | None => []
      end
  end.

End Faces.

(** [int(s)] on a string of decimal digits. *)
Fixpoint digits_value (acc : nat) (s : string) : nat :=
  match s with
  | EmptyString => acc
  | String c s' => digits_value (acc * 10 + (nat_of_ascii c - 48)) s'
  end.

End VideoFaces.

(** ** [speech_manager]: the voice input behind [get_voice_input] *)
Module Speech.

(** [transcribe_audio]: [read] is the reading of the recorded file and
    [recognize] the [client.recognize] call, each raising or not; its
    [results] are given with the transcripts of their [alternatives]. *)
Definition transcribe_audio (read : result unit) (recognize : result (list (list string)))
  : option string :=
  match read with
  | Raise _ => None
  | Ok _ =>
      match recognize with
      | Raise _ => None
      | Ok results =>
          match results with
          | [] => None
          | alternatives :: _ =>
              match alternatives with
              | [] => None            (* the [IndexError] of [alternatives[0]] *)
              | transcript :: _ => Some transcript
              end
          end
      end
  end.

(** What [get_voice_input] meets: the name [NamedTemporaryFile] gives
    and whether creating the file raises, the [bool] of [record_audio]
    (which catches its exceptions), the two steps of [transcribe_audio] and
    whether [os.unlink] raises. *)
Record voice_io : Type := {
  temp_audio_path : string;
  temp_file_result : result unit;
  record_audio_ok : bool;
  read_result : result unit;
  recognize_result : result (list (list string));
  unlink_result : result unit
}.

(** [get_voice_input]: the transcript returned and the files that exist
    afterwards ([files] before). *)
Definition get_voice_input (io : voice_io) (files : list string) : option string * list string :=
  match temp_file_result io with
  | Raise _ => (None, files)
  | Ok _ =>
      let temp_path := temp_audio_path io in
      let files1 := temp_path :: files in
      if record_audio_ok io then
        let transcript := transcribe_audio (read_result io) (recognize_result io) in
        match unlink_result io with
        | Raise _ => (None, files1)
        | Ok _ => (transcript, remove string_dec temp_path files1)
        end
      else (None, files1)
  end.

End Speech.

(** ** [iot_controller.set_servo_angle] *)
Module IoT.

(** [f"{ESP32_SERVO_URL}/servo_angle?value={angle}"] *)
Definition servo_url (ESP32_SERVO_URL : string) (angle : nat) : string :=
  ESP32_SERVO_URL ++ "/servo_angle?value=" ++ Video.string_of_nat angle.

(** [set_servo_angle]: [get] is [requests.get(url, timeout=5)], giving
    the status code or raising. *)
Definition set_servo_angle (ESP32_SERVO_URL : string) (get : string -> result nat)
    (angle : nat) : bool :=
  match get (servo_url ESP32_SERVO_URL angle) with
  | Raise _ => false
  | Ok status_code => Nat.eqb status_code 200
  end.

End IoT.

(** ** [recognize_object] and [analyze_multiple_objects] *)
Module FrameAnalysis.

(** What the two functions meet: whether [get_frame] returned a frame,
    whether [cv2.cvtColor] raises, the name [tempfile.mktemp] returns, the
    [bool] of [cv2.imwrite] (or its exception), [Image.open], the model's
    [response.text] for the function's prompt, and [os.unlink]. *)
Record analysis_io : Type := {
  got_frame : bool;
  cvt_result : result unit;
  temp_image_path : string;
  imwrite_result : result bool;
  open_result : result unit;
  response_text : result string;
  unlink_result : result unit
}.

Definition file_exists (path : string) (files : list string) : bool :=
  existsb (String.eqb path) files.

(** The body of [recognize_object] (and of [analyze_multiple_objects],
    which differs only in its prompt and messages): the value returned, the
    files that exist afterwards and the texts given to [speak_text]. *)
Definition frame_analysis (io : analysis_io) (files : list string)
  : option string * list string * list string :=
  if negb (got_frame io) then (None, files, [])
  else
    match cvt_result io with
    | Raise _ => (None, files, [])
    | Ok _ =>
        let temp_path := temp_image_path io in
        match imwrite_result io with
        | Raise _ => (None, files, [])
        | Ok written =>
            let files1 :=
              if written && negb (file_exists temp_path files)
              then temp_path :: files else files in
            let body :=
              match open_result io with
              | Raise e => Raise e
              | Ok _ => response_text io
              end in
            let spoken := match body with Ok context => [context] | Raise _ => [] end in
            let returned := match body with Ok context => Some context | Raise _ => None end in
            if file_exists temp_path files1 then
              match unlink_result io with
              | Raise _ => (None, files1, spoken)
              | Ok _ => (returned, remove string_dec temp_path files1, spoken)
              end
            else (returned, files1, spoken)
        end
    end.

End FrameAnalysis.

(** ** A concrete environment, for running the model *)
Module Demo.

(** The world counts [get_voice_input] calls; the [n]-th call returns the
    [n]-th element of [inputs]; every handler succeeds. *)
Definition env (inputs : list (option string)) : Env nat := {|
  get_voice_input := fun n => (nth n inputs None, S n);
  analyze_scene := fun n => (Some "A street with parked cars.", n);
  recognize_object := fun n => (Some "A ceramic coffee mug.", n);
  extract_text_from_image := fun n => (Some "no text", n);
  analyze_environment := fun n => (Some "The path ahead is clear.", n);
  register_new_face := fun n => (Some "Alice", n);
  twilio_client := fun n => (Ok tt, n);
  get_location := fun n => ("Chennai, Tamil Nadu, IN", n);
  messages_create := fun _ _ _ n => (Ok "SM87f2c3a1b4d5e6f708192a3b4c5d6e7f", n);
  generate_content := fun _ n => (Ok "It holds about 300 ml.", n);
  TWILIO_PHONE_NUMBER := fun _ => "+15550000001";
  EMERGENCY_PHONE_NUMBER := fun _ => "+15550000002"
|}.

(** A camera that cannot be opened. *)
Definition closed_camera : Video.camera :=
  {| Video.cam_opened := false; Video.cam_fps := 30; Video.cam_ticks := [] |}.

(** A camera that opens and reads one frame, then fails. *)
Definition one_frame_camera : Video.camera :=
  {| Video.cam_opened := true; Video.cam_fps := 30;
     Video.cam_ticks := [{| Video.read_ok := true; Video.clock := "2025-01-01 12:00:00";
                            Video.key_q := false |}] |}.

(** Image paths of two registrations. *)
Definition alice_jpg : string := "registered_faces/Alice_20250101_120000.jpg".
Definition bob_jpg : string := "registered_faces/Bob_20250101_120500.jpg".

(** A registration in which [name] is spoken at [timestamp] and the image
    is written. *)
Definition spoken_registration (name timestamp : string) : FaceRegistry.registration_io := {|
  FaceRegistry.frame_captured := true;
  FaceRegistry.faces_found := 1;
  FaceRegistry.spoken_name := Some name;
  FaceRegistry.typed_name := Raise "EOF when reading a line";
  FaceRegistry.timestamp := timestamp;
  FaceRegistry.imwrite_result := Ok true;
  FaceRegistry.image_bytes := "JPEG"
|}.

(** A disk holding [files], on which no operation raises. *)
Definition disk (files : list (string * string)) : FS.fs :=
  {| FS.files := files; FS.raises := fun _ _ => false |}.

(** A network camera that times out, and a local camera that opens. *)
Definition offline_esp32 : Capture.Devices nat := {|
  Capture.esp32_fetch := fun _ _ => Raise "timed out";
  Capture.local_open := fun _ => Ok true;
  Capture.local_read := fun _ => Ok (false, None)
|}.

End Demo.

(** Spoken texts of the follow-up sub-session, and the events it may
    produce on [context]: speech, listening, and the contextual-response
    call on that same [context]. *)
Definition follow_up_prompt : string :=
  "You can ask follow-up questions or say 'exit' to end.".

Definition follow_up_retry : string :=
  "No valid input detected. Please try again or say 'exit' to end.".

Definition follow_up_event (context : string) (e : event) : Prop :=
  match e with
  | EvSpeak _ | EvListen => True
  | EvContextual _ c => c = Some context
  | EvServo _ | EvHandler _ => False
  end.

(** * Properties *)

Example demo_describe_scene :
  trace_of (start_cycle (Demo.env [Some "can you describe the scene"]) 3 0) =
  [EvListen; EvServo 115; EvHandler Scene; EvSpeak "A street with parked cars."].
Proof. reflexivity. Qed.

Example demo_sos_exit :
  start_cycle (Demo.env [Some "help sos emergency exit"]) 3 0 =
  Done true 1 [EvListen; EvHandler Sos; EvSpeak "Failed to send SOS message";
               EvSpeak "Exiting now."].
Proof. reflexivity. Qed.

(** ** Facts about UTF-8 text and [str.lower] *)


Ltac zcase :=
  repeat match goal with
  | |- context [(?x <=? ?y)%Z] => destruct (Z.leb_spec x y)
  | |- context [(?x <? ?y)%Z] => destruct (Z.ltb_spec x y)
  | |- context [(?x =? ?y)%Z] => destruct (Z.eqb_spec x y)
  end.

Lemma cont_ascii (a : ascii) : (byte_val a < 128)%Z -> cont a = false.
Proof. unfold cont, byte_in. intros H. zcase; try lia; reflexivity. Qed.

Lemma second3_ascii (a b : ascii) : (byte_val b < 128)%Z -> second3 a b = false.
Proof. unfold second3, cont, byte_in. intros H. zcase; try lia; reflexivity. Qed.

Lemma second4_ascii (a b : ascii) : (byte_val b < 128)%Z -> second4 a b = false.
Proof. unfold second4, cont, byte_in. intros H. zcase; try lia; reflexivity. Qed.

Lemma decode_ascii_cons (a : ascii) (s : string) :
  (byte_val a < 128)%Z -> decode (String a s) = UChar (byte_val a) :: decode s.
Proof. intros H. cbn [decode]. destruct (Z.ltb_spec (byte_val a) 128); [reflexivity|lia]. Qed.

Lemma decode_cons_eq (a : ascii) (s1 : string) :
  decode (String a s1) =
      if (byte_val a <? 128)%Z then UChar (byte_val a) :: decode s1
      else if byte_in 194 223 a then
        match s1 with
        | String b s2 =>
            if cont b then UChar ((byte_val a - 192) * 64 + (byte_val b - 128))%Z :: decode s2
            else UByte a :: decode s1
        | EmptyString => UByte a :: decode s1
        end
      else if byte_in 224 239 a then
        match s1 with
        | String b (String c s3) =>
            if second3 a b && cont c
            then UChar ((byte_val a - 224) * 4096 + (byte_val b - 128) * 64 + (byte_val c - 128))%Z
                   :: decode s3
            else UByte a :: decode s1
        | _ => UByte a :: decode s1
        end
      else if byte_in 240 244 a then
        match s1 with
        | String b (String c (String d s4)) =>
            if second4 a b && cont c && cont d
            then UChar ((byte_val a - 240) * 262144 + (byte_val b - 128) * 4096
                        + (byte_val c - 128) * 64 + (byte_val d - 128))%Z :: decode s4
            else UByte a :: decode s1
        | _ => UByte a :: decode s1
        end
      else UByte a :: decode s1.
Proof. reflexivity. Qed.

Lemma decode_app_ascii (a : ascii) (y : string) :
  (byte_val a < 128)%Z ->
  forall x, decode (x ++ String a y) = (decode x ++ UChar (byte_val a) :: decode y)%list.
Proof.
  intros Ha.
  assert (Hlt : decode (String a y) = UChar (byte_val a) :: decode y)
    by (apply decode_ascii_cons; exact Ha).
  assert (Hc : cont a = false) by (apply cont_ascii; exact Ha).
  assert (H3 : forall b, second3 b a = false) by (intros; apply second3_ascii; exact Ha).
  assert (H4 : forall b, second4 b a = false) by (intros; apply second4_ascii; exact Ha).
  assert (H : forall n x, String.length x <= n ->
            decode (x ++ String a y) = (decode x ++ UChar (byte_val a) :: decode y)%list).
  { induction n as [|n IH]; intros x Hx.
    { destruct x; [exact Hlt|simpl in Hx; lia]. }
    destruct x as [|b x1]; [exact Hlt|]. simpl in Hx.
    cbn [append]. rewrite (decode_cons_eq b (x1 ++ String a y)), (decode_cons_eq b x1).
    destruct (byte_val b <? 128)%Z.
    { cbn [app]. f_equal. apply IH. lia. }
    destruct (byte_in 194 223 b).
    { destruct x1 as [|c x2]; cbn [append app].
      - rewrite Hc, Hlt. reflexivity.
      - destruct (cont c); cbn [app]; f_equal;
          [apply IH; simpl in Hx; lia|apply (IH (String c x2)); simpl in *; lia]. }
    destruct (byte_in 224 239 b).
    { destruct x1 as [|c [|d x3]]; cbn [append app].
      - destruct y as [|f y]; [rewrite Hlt; reflexivity|].
        rewrite H3. cbn [andb app]. rewrite Hlt. reflexivity.
      - rewrite Hc, andb_false_r. cbn [andb app]. f_equal. apply (IH (String c "")). simpl in *. lia.
      - destruct (second3 b c && cont d); cbn [app]; f_equal;
          [apply IH; simpl in *; lia|apply (IH (String c (String d x3))); simpl in *; lia]. }
    destruct (byte_in 240 244 b).
    { destruct x1 as [|c [|d [|e x4]]]; cbn [append app].
      - destruct y as [|f [|g y]]; [rewrite Hlt; reflexivity|rewrite Hlt; reflexivity|].
        rewrite H4. cbn [andb app]. rewrite Hlt. reflexivity.
      - destruct y as [|f y].
        + cbn [app]. f_equal. apply (IH (String c "")). simpl in *. lia.
        + rewrite Hc, andb_false_r. cbn [andb app]. f_equal. apply (IH (String c "")). simpl in *. lia.
      - rewrite Hc, andb_false_r. cbn [andb app]. f_equal. apply (IH (String c (String d ""))). simpl in *. lia.
      - destruct (second4 b c && cont d && cont e); cbn [app]; f_equal;
          [apply IH; simpl in *; lia|apply (IH (String c (String d (String e x4)))); simpl in *; lia]. }
    cbn [app]. f_equal. apply IH. lia. }
  intros x. apply (H (String.length x)). lia.
Qed.








Lemma decode_ascii_str (s : string) :
  Forall (fun a => (byte_val a < 128)%Z) (list_ascii_of_string s) ->
  decode s = map (fun a => UChar (byte_val a)) (list_ascii_of_string s).
Proof.
  induction s as [|a s IH]; intros H; [reflexivity|].
  inversion H; subst. rewrite decode_ascii_cons by assumption.
  simpl. f_equal. apply IH. assumption.
Qed.


Lemma str_app_assoc (a b c : string) : (a ++ b) ++ c = a ++ (b ++ c).
Proof. induction a as [|x a IH]; simpl; [reflexivity|]. rewrite IH. reflexivity. Qed.


















(** ** Facts about the voice loop *)
Section DispatcherFacts.
Context {World : Type} (E : Env World).

Ltac monad_unfold :=
  unfold bind, prepend, emit, lift, speak_text, set_servo_angle, ret, call,
    listen in *.

Lemma trace_of_prepend {A} (t : list event) (o : outcome World A) :
  trace_of (prepend t o) = (t ++ trace_of o)%list.
Proof. destruct o; reflexivity. Qed.

Lemma bind_Done {A B} (m : M World A) (k : A -> M World B) w b w2 tr :
  bind m k w = Done b w2 tr ->
  exists a w1 t1 t2, m w = Done a w1 t1 /\ k a w1 = Done b w2 t2 /\ tr = (t1 ++ t2)%list.
Proof.
  unfold bind. destruct (m w) as [a w1 t1|t1]; [|discriminate].
  destruct (k a w1) as [b' w2' t2|t2] eqn:Hk; simpl; intros H; inversion H; subst.
  exists a, w1, t1, t2. auto.
Qed.

Lemma trace_of_bind {A B} (m : M World A) (k : A -> M World B) w :
  trace_of (bind m k w) =
  match m w with
  | Done a w1 t1 => (t1 ++ trace_of (k a w1))%list
  | OutOfFuel t => t
  end.
Proof.
  unfold bind. destruct (m w); [apply trace_of_prepend | reflexivity].
Qed.

Lemma handler_events_app (a b : list event) :
  handler_events (a ++ b)%list = (handler_events a ++ handler_events b)%list.
Proof.
  induction a as [|e a IH]; [reflexivity|].
  destruct e; simpl; rewrite ?IH; reflexivity.
Qed.

(** The events a follow-up sub-session on [context] may produce. *)
Lemma generate_contextual_response_eq (user_input : string)
    (context : option string) (w : World) :
  generate_contextual_response E user_input context w =
  match as_truthy context with
  | Some ctx =>
      let (r, w1) := generate_content _ E (ctx ++ nl ++ "User: " ++ user_input) w in
      Done (match r with
            | Ok text => text
            | Raise _ => "Sorry, I couldn't process your request."
            end) w1 [EvContextual user_input context]
  | None =>
      Done "There is no context available to respond to your question." w
        [EvContextual user_input context]
  end.
Proof.
  unfold generate_contextual_response. monad_unfold. simpl.
  destruct (as_truthy context) as [ctx|]; [|reflexivity].
  destruct (generate_content _ E _ w) as [[text|e] w1]; reflexivity.
Qed.

Lemma generate_contextual_response_Done (user_input : string)
    (context : option string) (w : World) :
  exists r w1, generate_contextual_response E user_input context w =
               Done r w1 [EvContextual user_input context].
Proof.
  rewrite generate_contextual_response_eq.
  destruct (as_truthy context) as [ctx|]; [|eauto].
  destruct (generate_content _ E _ w) as [r w1]. eauto.
Qed.

Ltac monad_step :=
  unfold listen, speak_text, set_servo_angle, call;
  unfold bind, lift, emit, prepend, ret;
  cbn beta iota zeta.

Lemma follow_up_events (fuel : nat) (context : string) (w : World) :
  Forall (follow_up_event context)
    (trace_of (handle_follow_up_queries E fuel context w)).
Proof.
  revert w. induction fuel as [|fuel IH]; intros w; [constructor|].
  cbn [handle_follow_up_queries]. monad_step.
  destruct (get_voice_input _ E w) as [o w1]. cbn beta iota zeta.
  destruct (as_truthy o) as [q|].
  - destruct (contains "exit" (lower q)).
    + repeat constructor.
    + destruct (generate_contextual_response_Done (lower q) (Some context) w1)
        as (r & w2 & Hg).
      rewrite Hg. cbn beta iota zeta.
      specialize (IH w2).
      destruct (handle_follow_up_queries E fuel context w2); simpl in *;
        repeat constructor; assumption.
  - specialize (IH w1).
    destruct (handle_follow_up_queries E fuel context w1); simpl in *;
      repeat constructor; assumption.
Qed.

Lemma follow_up_no_handler (fuel : nat) (context : string) (w : World) :
  handler_events (trace_of (handle_follow_up_queries E fuel context w)) = [].
Proof.
  pose proof (follow_up_events fuel context w) as H.
  induction H as [|e tr He _ IH]; [reflexivity|].
  destruct e; simpl in *; tauto.
Qed.

Lemma send_sos_message_Done (w : World) :
  exists r w1, send_sos_message E w = Done r w1 [].
Proof.
  unfold send_sos_message.
  destruct (twilio_client _ E w) as [[c|e] w1]; [|eauto].
  destruct (get_location _ E w1) as [loc w2].
  match goal with |- context [messages_create _ _ ?a ?b ?c ?d] =>
    destruct (messages_create _ E a b c d) as [[sid|e] w3] end; eauto.
Qed.

Ltac block_done :=
  match goal with
  | |- context [if ?b then _ else _] =>
      destruct b; [|eexists _, _; split; reflexivity]
  end;
  monad_step;
  repeat match goal with
  | |- context [match ?f ?w with pair _ _ => _ end] =>
      destruct (f w) as [? ?]; cbn beta iota zeta
  | |- context [as_truthy ?o] => destruct (as_truthy o); cbn beta iota zeta
  end;
  eexists _, _; split; reflexivity.

Lemma scene_block_Done (u : string) (w : World) :
  exists w1 tr, scene_block E u w = Done tt w1 tr /\
    handler_events tr = if any_in scene_trigger u then [Scene] else [].
Proof. unfold scene_block. block_done. Qed.

Lemma ocr_block_Done (u : string) (w : World) :
  exists w1 tr, ocr_block E u w = Done tt w1 tr /\
    handler_events tr = if any_in ocr_trigger u then [Ocr] else [].
Proof. unfold ocr_block. block_done. Qed.

Lemma nav_block_Done (u : string) (w : World) :
  exists w1 tr, nav_block E u w = Done tt w1 tr /\
    handler_events tr = if any_in nav_trigger u then [Navigation] else [].
Proof. unfold nav_block. block_done. Qed.

Lemma face_block_Done (u : string) (w : World) :
  exists w1 tr, face_block E u w = Done tt w1 tr /\
    handler_events tr = if any_in face_trigger u then [Face] else [].
Proof. unfold face_block. block_done. Qed.

Lemma sos_block_eq (u : string) (w : World) :
  sos_block E u w =
  if any_in sos_trigger u then
    match send_sos_message E w with
    | Done result w1 t =>
        Done tt w1 (EvHandler Sos :: t ++
          [EvSpeak (if contains "SID" result then "SOS message sent successfully"
                    else "Failed to send SOS message")])
    | OutOfFuel t => OutOfFuel (EvHandler Sos :: t)
    end
  else Done tt w [].
Proof.
  unfold sos_block. destruct (any_in sos_trigger u); [|reflexivity].
  monad_step. destruct (send_sos_message E w) as [r w1 t|t]; [|reflexivity].
  destruct (contains "SID" r); reflexivity.
Qed.

Lemma sos_block_Done (u : string) (w : World) :
  exists w1 tr, sos_block E u w = Done tt w1 tr /\
    handler_events tr = if any_in sos_trigger u then [Sos] else [].
Proof.
  rewrite sos_block_eq. destruct (any_in sos_trigger u); [|eauto].
  destruct (send_sos_message_Done w) as (r & w1 & Hs). rewrite Hs.
  eexists _, _; split; [reflexivity|].
  destruct (contains "SID" r); reflexivity.
Qed.

Lemma sensory_block_eq (fuel : nat) (u : string) (w : World) :
  sensory_block E fuel u w =
  if any_in sensory_trigger u then
    let (object_info, w1) := recognize_object _ E w in
    match as_truthy object_info with
    | Some info => prepend [EvHandler Sensory] (handle_follow_up_queries E fuel info w1)
    | None => Done tt w1 [EvHandler Sensory; EvSpeak "Failed to recognize object"]
    end
  else Done tt w [].
Proof.
  unfold sensory_block. destruct (any_in sensory_trigger u); [|reflexivity].
  monad_step. destruct (recognize_object _ E w) as [o w1]. cbn beta iota zeta.
  destruct (as_truthy o) as [info|]; [|reflexivity].
  destruct (handle_follow_up_queries E fuel info w1); reflexivity.
Qed.

Lemma sensory_block_handlers (fuel : nat) (u : string) (w : World) :
  handler_events (trace_of (sensory_block E fuel u w)) =
  if any_in sensory_trigger u then [Sensory] else [].
Proof.
  rewrite sensory_block_eq. destruct (any_in sensory_trigger u); [|reflexivity].
  destruct (recognize_object _ E w) as [o w1].
  destruct (as_truthy o) as [info|]; [|reflexivity].
  rewrite trace_of_prepend. simpl.
  rewrite follow_up_no_handler. reflexivity.
Qed.

Lemma dispatch_after_sensory_Done (u : string) (w : World) :
  exists w1 tr,
    dispatch_after_sensory E u w =
      Done (contains "exit" u) w1
        (tr ++ if contains "exit" u then [EvSpeak "Exiting now."] else [])%list /\
    handler_events tr = filter (fun c => any_in (trigger_words c) u) [Ocr; Sos; Navigation; Face].
Proof.
  unfold dispatch_after_sensory, bind.
  destruct (ocr_block_Done u w) as (w1 & t1 & H1 & E1). rewrite H1.
  destruct (sos_block_Done u w1) as (w2 & t2 & H2 & E2). rewrite H2.
  destruct (nav_block_Done u w2) as (w3 & t3 & H3 & E3). rewrite H3.
  destruct (face_block_Done u w3) as (w4 & t4 & H4 & E4). rewrite H4.
  unfold exit_check. destruct (contains "exit" u).
  - monad_step. exists w4, (t1 ++ t2 ++ t3 ++ t4)%list. split.
    + simpl. rewrite <- !app_assoc. reflexivity.
    + rewrite !handler_events_app, E1, E2, E3, E4. cbn [filter trigger_words].
      destruct (any_in ocr_trigger u), (any_in sos_trigger u),
        (any_in nav_trigger u), (any_in face_trigger u); reflexivity.
  - exists w4, (t1 ++ t2 ++ t3 ++ t4)%list. split.
    + unfold ret. simpl. rewrite !app_nil_r. reflexivity.
    + rewrite !handler_events_app, E1, E2, E3, E4. cbn [filter trigger_words].
      destruct (any_in ocr_trigger u), (any_in sos_trigger u),
        (any_in nav_trigger u), (any_in face_trigger u); reflexivity.
Qed.

Lemma start_cycle_eq (fuel : nat) (w : World) :
  start_cycle E fuel w =
  let (user_talk, w1) := get_voice_input _ E w in
  prepend [EvListen]
    match as_truthy user_talk with
    | Some u => dispatch E fuel u w1
    | None => Done false w1 [EvSpeak "No Input"]
    end.
Proof.
  unfold start_cycle. monad_step.
  destruct (get_voice_input _ E w) as [o w1]. cbn beta iota zeta.
  destruct (as_truthy o) as [u|]; [|reflexivity].
  destruct (dispatch E fuel u w1); reflexivity.
Qed.

Lemma matched_split (u : string) :
  matched u =
  ((if any_in scene_trigger u then [Scene] else []) ++
   (if any_in sensory_trigger u then [Sensory] else []) ++
   filter (fun c => any_in (trigger_words c) u) [Ocr; Sos; Navigation; Face])%list.
Proof.
  unfold matched. cbn [filter trigger_words dispatch_order].
  destruct (any_in scene_trigger u), (any_in sensory_trigger u); reflexivity.
Qed.

Lemma as_truthy_Some (u : string) : u <> "" -> as_truthy (Some u) = Some u.
Proof. destruct u; [contradiction|reflexivity]. Qed.

Lemma exit_tail_no_handler (u : string) :
  handler_events (if contains "exit" u then [EvSpeak "Exiting now."] else []) = [].
Proof. destruct (contains "exit" u); reflexivity. Qed.

(** C1: for a non-null utterance [u] of one capture cycle, the handlers
    called in that cycle are exactly the categories one of whose trigger
    words occurs in [u] as a (case-sensitive) substring, each called once,
    in the order scene, object, ocr, sos, navigation, face.  This holds of
    every finished cycle; a cycle whose follow-up sub-session is still
    running has called a prefix of that list. *)
Theorem dispatch_invokes_matched_handlers (fuel : nat) (w w1 : World) (u : string) :
  get_voice_input _ E w = (Some u, w1) ->
  (forall stop w' tr, start_cycle E fuel w = Done stop w' tr ->
     handler_events tr = matched u) /\
  (exists rest, matched u = (handler_events (trace_of (start_cycle E fuel w)) ++ rest)%list).
Proof.
  intros Hget. rewrite start_cycle_eq, Hget.
  destruct (string_dec u "") as [->|Hne].
  - split; [intros stop w' tr H; inversion H; reflexivity | exists []; reflexivity].
  - rewrite (as_truthy_Some u Hne).
    unfold dispatch, bind.
    destruct (scene_block_Done u w1) as (w2 & t1 & Hs & Es). rewrite Hs.
    pose proof (sensory_block_handlers fuel u w2) as Hh.
    destruct (sensory_block E fuel u w2) as [a w3 t2|t2]; cbn [trace_of] in Hh.
    + destruct (dispatch_after_sensory_Done u w3) as (w4 & t3 & Hd & Ed).
      rewrite Hd. cbn [prepend].
      assert (Hev : handler_events (EvListen :: t1 ++ t2 ++ t3 ++
                       (if contains "exit" u then [EvSpeak "Exiting now."] else []))
                    = matched u).
      { cbn [handler_events]. rewrite !handler_events_app, Es, Hh, Ed,
          exit_tail_no_handler, app_nil_r, matched_split. reflexivity. }
      split.
      * intros stop w' tr H. injection H as _ _ <-. exact Hev.
      * exists []. cbn [trace_of]. rewrite app_nil_r. symmetry. exact Hev.
    + split; [intros stop w' tr H; discriminate H|].
      exists (filter (fun c => any_in (trigger_words c) u) [Ocr; Sos; Navigation; Face]).
      cbn [prepend trace_of app handler_events].
      rewrite handler_events_app, Es, Hh, matched_split, app_assoc. reflexivity.
Qed.

Lemma start_loop_S (n fuel : nat) (w : World) :
  start_loop E (S n) fuel w =
  match start_cycle E fuel w with
  | Done stop w' tr => if stop then Done tt w' tr else prepend tr (start_loop E n fuel w')
  | OutOfFuel t => OutOfFuel t
  end.
Proof.
  cbn [start_loop]. unfold bind.
  destruct (start_cycle E fuel w) as [[|] w' tr|t]; [|reflexivity|reflexivity].
  unfold ret. cbn [prepend]. rewrite app_nil_r. reflexivity.
Qed.

Lemma start_cycle_Done_shape (fuel : nat) (w w1 : World) (u : string)
    (stop : bool) (w' : World) (tr : list event) :
  get_voice_input _ E w = (Some u, w1) -> u <> "" ->
  start_cycle E fuel w = Done stop w' tr ->
  exists tr0, stop = contains "exit" u /\
    tr = (tr0 ++ if contains "exit" u then [EvSpeak "Exiting now."] else [])%list /\
    handler_events tr0 = matched u.
Proof.
  intros Hget Hne H. rewrite start_cycle_eq, Hget, (as_truthy_Some u Hne) in H.
  unfold dispatch, bind in H.
  destruct (scene_block_Done u w1) as (w2 & t1 & Hs & Es). rewrite Hs in H.
  pose proof (sensory_block_handlers fuel u w2) as Hh.
  destruct (sensory_block E fuel u w2) as [a w3 t2|t2]; cbn [trace_of] in Hh;
    [|discriminate H].
  destruct (dispatch_after_sensory_Done u w3) as (w4 & t3 & Hd & Ed).
  rewrite Hd in H. cbn [prepend] in H. injection H as <- <- <-.
  exists (EvListen :: t1 ++ t2 ++ t3)%list. split; [reflexivity|]. split.
  - cbn [app]. rewrite <- !app_assoc. reflexivity.
  - cbn [handler_events]. rewrite !handler_events_app, Es, Hh, Ed, matched_split.
    reflexivity.
Qed.

(** C2: for a non-null utterance [u], the cycle ends the session exactly
    when "exit" occurs in [u]; it then speaks the farewell as its last act,
    after every handler matched by [u] has run; otherwise the loop goes on
    with the next capture cycle. *)
Theorem exit_checked_after_dispatch (fuel : nat) (w w1 : World) (u : string)
    (stop : bool) (w' : World) (tr : list event) :
  get_voice_input _ E w = (Some u, w1) ->
  start_cycle E fuel w = Done stop w' tr ->
  stop = contains "exit" u /\
  (contains "exit" u = true ->
     exists tr0, tr = (tr0 ++ [EvSpeak "Exiting now."])%list /\
                 handler_events tr0 = matched u) /\
  (forall n, start_loop E (S n) fuel w =
     if stop then Done tt w' tr else prepend tr (start_loop E n fuel w')).
Proof.
  intros Hget H. split; [|split].
  - destruct (string_dec u "") as [->|Hne].
    + rewrite start_cycle_eq, Hget in H. cbn in H. injection H as <- _ _.
      reflexivity.
    + destruct (start_cycle_Done_shape fuel w w1 u stop w' tr Hget Hne H)
        as (tr0 & Hstop & _ & _). exact Hstop.
  - intros Hexit.
    destruct (string_dec u "") as [->|Hne]; [discriminate Hexit|].
    destruct (start_cycle_Done_shape fuel w w1 u stop w' tr Hget Hne H)
      as (tr0 & _ & Htr & Hev).
    rewrite Hexit in Htr. exists tr0. auto.
  - intros n. rewrite start_loop_S, H. reflexivity.
Qed.

(** C4: a null or empty transcription calls no handler, does not end the
    session, speaks "No Input", and the loop captures again. *)
Theorem no_input_cycle (fuel : nat) (w w1 : World) (o : option string) :
  get_voice_input _ E w = (o, w1) -> (o = None \/ o = Some "") ->
  start_cycle E fuel w = Done false w1 [EvListen; EvSpeak "No Input"] /\
  (forall n, start_loop E (S n) fuel w =
     prepend [EvListen; EvSpeak "No Input"] (start_loop E n fuel w1)).
Proof.
  intros Hget Ho.
  assert (Hc : start_cycle E fuel w = Done false w1 [EvListen; EvSpeak "No Input"]).
  { rewrite start_cycle_eq, Hget. destruct Ho as [-> | ->]; reflexivity. }
  split; [exact Hc|]. intros n. rewrite start_loop_S, Hc. reflexivity.
Qed.

Lemma follow_up_Done_ends_with_exit (fuel : nat) (context : string)
    (w w' : World) (tr : list event) :
  handle_follow_up_queries E fuel context w = Done tt w' tr ->
  exists tr0, tr = (tr0 ++ [EvSpeak "Exiting follow-up session."])%list.
Proof.
  revert w w' tr. induction fuel as [|fuel IH]; intros w w' tr H; [discriminate H|].
  cbn [handle_follow_up_queries] in H.
  unfold listen, speak_text in H; unfold bind, lift, emit, prepend, ret in H.
  cbn beta iota zeta in H.
  destruct (get_voice_input _ E w) as [o w1]. cbn beta iota zeta in H.
  destruct (as_truthy o) as [q|].
  - destruct (contains "exit" (lower q)).
    + injection H as _ <-. exists [EvSpeak follow_up_prompt; EvListen]. reflexivity.
    + destruct (generate_contextual_response_Done (lower q) (Some context) w1)
        as (r & w2 & Hg).
      rewrite Hg in H. cbn beta iota zeta in H.
      destruct (handle_follow_up_queries E fuel context w2) as [a w3 t|t] eqn:Hf;
        [|discriminate H].
      destruct a. injection H as <- <-.
      destruct (IH w2 w3 t Hf) as (tr0 & ->).
      exists (EvSpeak follow_up_prompt :: EvListen ::
              EvContextual (lower q) (Some context) :: EvSpeak r :: tr0).
      reflexivity.
  - destruct (handle_follow_up_queries E fuel context w1) as [a w3 t|t] eqn:Hf;
      [|discriminate H].
    destruct a. injection H as <- <-.
    destruct (IH w1 w3 t Hf) as (tr0 & ->).
    exists (EvSpeak follow_up_prompt :: EvListen :: EvSpeak follow_up_retry :: tr0).
    reflexivity.
Qed.

Lemma follow_up_exit_step (fuel : nat) (context : string) (w w1 : World) (q : string) :
  get_voice_input _ E w = (Some q, w1) -> q <> "" -> contains "exit" (lower q) = true ->
  handle_follow_up_queries E (S fuel) context w =
    Done tt w1 [EvSpeak follow_up_prompt; EvListen; EvSpeak "Exiting follow-up session."].
Proof.
  intros Hget Hne Hexit. cbn [handle_follow_up_queries]. monad_step.
  rewrite Hget. cbn beta iota zeta. rewrite (as_truthy_Some q Hne), Hexit.
  reflexivity.
Qed.

(** C3 (as amended): inside the follow-up sub-session on [context], every
    call of the contextual-response generator gets the same [context], and
    no handler is called and the servo does not move; a null or empty
    transcription speaks the retry notice and goes on, a non-exit utterance
    is passed, lowercased, with [context] to the generator, whose answer
    is spoken, and the loop goes on, with no turn limit; the sub-session
    ends only on an utterance containing "exit" (after lowercasing).
    Control then goes back to the dispatch of the utterance that triggered
    object recognition, which runs its remaining checks (ocr, sos,
    navigation, face, exit) before the next capture cycle. *)
Theorem follow_up_session_behaviour (fuel : nat) (context : string) (w : World) :
  Forall (follow_up_event context)
    (trace_of (handle_follow_up_queries E fuel context w)) /\
  (forall w' tr, handle_follow_up_queries E fuel context w = Done tt w' tr ->
     exists tr0, tr = (tr0 ++ [EvSpeak "Exiting follow-up session."])%list) /\
  (forall o w1, get_voice_input _ E w = (o, w1) -> as_truthy o = None ->
     handle_follow_up_queries E (S fuel) context w =
       prepend [EvSpeak follow_up_prompt; EvListen; EvSpeak follow_up_retry]
         (handle_follow_up_queries E fuel context w1)) /\
  (forall q w1, get_voice_input _ E w = (Some q, w1) -> q <> "" ->
     contains "exit" (lower q) = false ->
     exists r w2,
       generate_contextual_response E (lower q) (Some context) w1 =
         Done r w2 [EvContextual (lower q) (Some context)] /\
       handle_follow_up_queries E (S fuel) context w =
         prepend [EvSpeak follow_up_prompt; EvListen;
                  EvContextual (lower q) (Some context); EvSpeak r]
           (handle_follow_up_queries E fuel context w2)) /\
  (forall q w1, get_voice_input _ E w = (Some q, w1) -> q <> "" ->
     contains "exit" (lower q) = true ->
     handle_follow_up_queries E (S fuel) context w =
       Done tt w1 [EvSpeak follow_up_prompt; EvListen;
                   EvSpeak "Exiting follow-up session."]) /\
  (forall u w0 t0 w1 tr w2,
     scene_block E u w0 = Done tt w t0 ->
     any_in sensory_trigger u = true ->
     recognize_object _ E w = (Some context, w1) -> context <> "" ->
     handle_follow_up_queries E fuel context w1 = Done tt w2 tr ->
     dispatch E fuel u w0 =
       prepend (t0 ++ EvHandler Sensory :: tr)%list (dispatch_after_sensory E u w2)).
Proof.
  split; [apply follow_up_events|].
  split; [intros w' tr; apply follow_up_Done_ends_with_exit|].
  split.
  { intros o w1 Hget Hnone. cbn [handle_follow_up_queries]. monad_step.
    rewrite Hget. cbn beta iota zeta. rewrite Hnone.
    destruct (handle_follow_up_queries E fuel context w1); reflexivity. }
  split.
  { intros q w1 Hget Hne Hexit. cbn [handle_follow_up_queries]. monad_step.
    rewrite Hget. cbn beta iota zeta. rewrite (as_truthy_Some q Hne), Hexit.
    destruct (generate_contextual_response_Done (lower q) (Some context) w1)
      as (r & w2 & Hg).
    rewrite Hg. exists r, w2. split; [reflexivity|]. cbn beta iota zeta.
    destruct (handle_follow_up_queries E fuel context w2); reflexivity. }
  split; [intros q w1; apply follow_up_exit_step|].
  intros u w0 t0 w1 tr w2 Hs Hsen Hrec Hne Hf.
  unfold dispatch. unfold bind at 1. rewrite Hs. cbn beta iota.
  unfold bind. rewrite sensory_block_eq, Hsen, Hrec, (as_truthy_Some context Hne), Hf.
  cbn [prepend]. destruct (dispatch_after_sensory E u w2); cbn [prepend];
    rewrite <- !app_assoc; reflexivity.
Qed.

(** C8: [generate_contextual_response] always returns a string and never
    raises: the fixed notice "There is no context available to respond to
    your question." when the context is falsy, the fixed apology "Sorry, I
    couldn't process your request." when the model call raises, and the
    model's answer otherwise. *)
Theorem contextual_response_fallbacks (user_input : string)
    (context : option string) (w : World) :
  exists r w1,
    generate_contextual_response E user_input context w =
      Done r w1 [EvContextual user_input context] /\
    r = match as_truthy context with
        | None => "There is no context available to respond to your question."
        | Some ctx =>
            match fst (generate_content _ E (ctx ++ nl ++ "User: " ++ user_input) w) with
            | Ok text => text
            | Raise _ => "Sorry, I couldn't process your request."
            end
        end.
Proof.
  rewrite generate_contextual_response_eq.
  destruct (as_truthy context) as [ctx|]; [|eauto].
  destruct (generate_content _ E (ctx ++ nl ++ "User: " ++ user_input) w) as [r w1].
  eauto.
Qed.

(** C6: [send_sos_message] never raises: it returns the message SID when
    the Twilio client and [messages.create] succeed, and
    "Failed to send SOS message: " followed by the exception text when
    either raises; the dispatcher announces success exactly when "SID"
    occurs in the returned string. *)
Theorem sos_result_and_announcement (w : World) :
  exists result w1,
    send_sos_message E w = Done result w1 [] /\
    ((exists c w2 location w3,
        twilio_client _ E w = (Ok c, w2) /\ get_location _ E w2 = (location, w3) /\
        messages_create _ E (TWILIO_PHONE_NUMBER _ E w3)
          ("🚨 SOS Alert 🚨" ++ nl ++ "Please send help!" ++ nl ++ "Location: " ++ location)
          (EMERGENCY_PHONE_NUMBER _ E w3) w3 = (Ok result, w1)) \/
     (exists e, result = "Failed to send SOS message: " ++ e /\
        (twilio_client _ E w = (Raise e, w1) \/
         exists c w2 location w3,
           twilio_client _ E w = (Ok c, w2) /\ get_location _ E w2 = (location, w3) /\
           messages_create _ E (TWILIO_PHONE_NUMBER _ E w3)
             ("🚨 SOS Alert 🚨" ++ nl ++ "Please send help!" ++ nl ++ "Location: " ++ location)
             (EMERGENCY_PHONE_NUMBER _ E w3) w3 = (Raise e, w1)))) /\
    (forall u, any_in sos_trigger u = true ->
       sos_block E u w =
         Done tt w1 [EvHandler Sos;
                     EvSpeak (if contains "SID" result then "SOS message sent successfully"
                              else "Failed to send SOS message")]).
Proof.
  unfold send_sos_message.
  destruct (twilio_client _ E w) as [[c|e] w1] eqn:Hc.
  - destruct (get_location _ E w1) as [loc w2] eqn:Hl.
    destruct (messages_create _ E (TWILIO_PHONE_NUMBER _ E w2)
               ("🚨 SOS Alert 🚨" ++ nl ++ "Please send help!" ++ nl ++ "Location: " ++ loc)
               (EMERGENCY_PHONE_NUMBER _ E w2) w2) as [[sid|e] w3] eqn:Hm.
    + exists sid, w3. split; [reflexivity|]. split.
      * left. exists c, w1, loc, w2. auto.
      * intros u Hu. rewrite sos_block_eq, Hu. unfold send_sos_message.
        rewrite Hc, Hl, Hm. reflexivity.
    + eexists _, w3. split; [reflexivity|]. split.
      * right. exists e. split; [reflexivity|]. right. exists c, w1, loc, w2. auto.
      * intros u Hu. rewrite sos_block_eq, Hu. unfold send_sos_message.
        rewrite Hc, Hl, Hm. reflexivity.
  - eexists _, w1. split; [reflexivity|]. split.
    + right. exists e. auto.
    + intros u Hu. rewrite sos_block_eq, Hu. unfold send_sos_message.
      rewrite Hc. reflexivity.
Qed.





End DispatcherFacts.

Lemma dispatch_invokes_matched_handlers_witness :
  get_voice_input _ (Demo.env [Some "read the notice, then help me find my route"]) 0 =
    (Some "read the notice, then help me find my route", 1) /\
  start_cycle (Demo.env [Some "read the notice, then help me find my route"]) 3 0 =
    Done false 1 [EvListen; EvServo 115; EvHandler Ocr; EvHandler Sos;
                  EvSpeak "Failed to send SOS message"; EvServo 90;
                  EvHandler Navigation] /\
  handler_events [EvListen; EvServo 115; EvHandler Ocr; EvHandler Sos;
                  EvSpeak "Failed to send SOS message"; EvServo 90;
                  EvHandler Navigation] =
    matched "read the notice, then help me find my route".
Proof.
  split; [reflexivity|]. split; [reflexivity|].
  destruct (dispatch_invokes_matched_handlers
              (Demo.env [Some "read the notice, then help me find my route"]) 3 0 1
              "read the notice, then help me find my route" eq_refl) as [H _].
  apply (H false 1). reflexivity.
Defined.

Lemma exit_checked_after_dispatch_witness :
  get_voice_input _ (Demo.env [Some "read the book then exit"]) 0 =
    (Some "read the book then exit", 1) /\
  start_cycle (Demo.env [Some "read the book then exit"]) 3 0 =
    Done true 1 [EvListen; EvServo 115; EvHandler Ocr; EvSpeak "Exiting now."] /\
  start_loop (Demo.env [Some "read the book then exit"]) 5 3 0 =
    Done tt 1 [EvListen; EvServo 115; EvHandler Ocr; EvSpeak "Exiting now."].
Proof.
  split; [reflexivity|]. split; [reflexivity|].
  destruct (exit_checked_after_dispatch (Demo.env [Some "read the book then exit"]) 3 0 1
              "read the book then exit" true 1
              [EvListen; EvServo 115; EvHandler Ocr; EvSpeak "Exiting now."]
              eq_refl eq_refl) as [_ [_ H]].
  exact (H 4).
Defined.

Lemma no_input_cycle_witness :
  get_voice_input _ (Demo.env [None]) 0 = (None, 1) /\
  start_cycle (Demo.env [None]) 3 0 = Done false 1 [EvListen; EvSpeak "No Input"].
Proof.
  split; [reflexivity|].
  exact (proj1 (no_input_cycle (Demo.env [None]) 3 0 1 None eq_refl (or_introl eq_refl))).
Defined.

Lemma follow_up_session_behaviour_witness :
  get_voice_input _ (Demo.env [Some "Exit please"]) 0 = (Some "Exit please", 1) /\
  handle_follow_up_queries (Demo.env [Some "Exit please"]) 3 "A ceramic coffee mug." 0 =
    Done tt 1 [EvSpeak follow_up_prompt; EvListen; EvSpeak "Exiting follow-up session."].
Proof.
  split; [reflexivity|].
  destruct (follow_up_session_behaviour (Demo.env [Some "Exit please"]) 2
              "A ceramic coffee mug." 0) as [_ [_ [_ [_ [H _]]]]].
  apply (H "Exit please" 1); [reflexivity | discriminate | reflexivity].
Defined.

Lemma sos_result_and_announcement_witness :
  sos_block (Demo.env []) "help" 0 =
    Done tt 0 [EvHandler Sos; EvSpeak "Failed to send SOS message"].
Proof.
  destruct (sos_result_and_announcement (Demo.env []) 0) as (r & w1 & Hs & _ & H).
  rewrite (H "help" eq_refl). vm_compute in Hs. injection Hs as <- <-. reflexivity.
Defined.


(** C3 (counterexample): the follow-up sub-session does not hand control
    back to listening: after "Exiting follow-up session." the dispatcher
    goes on with the remaining checks on the utterance that opened the
    sub-session, here the SOS handler for "search for help". *)
Lemma follow_up_exit_runs_sos_dispatch :
  start_cycle (Demo.env [Some "search for help"; Some "exit"]) 3 0 =
  Done false 2
    [EvListen; EvHandler Sensory; EvSpeak follow_up_prompt; EvListen;
     EvSpeak "Exiting follow-up session."; EvHandler Sos;
     EvSpeak "Failed to send SOS message"].
Proof. reflexivity. Qed.

(** ** Facts about [get_frame] *)

(** C7: [get_frame] always tries the network camera first with timeout 5;
    when that attempt raises or yields no decodable frame it tries the
    local camera before returning; it returns [None] only after both
    attempts; its result is a frame or [None], never an exception. *)
Theorem get_frame_fallback (Frame : Type) (d : Capture.Devices Frame)
    (ESP32_CAM_URL : string) (CAMERA_INDEX : nat) :
  hd_error (snd (Capture.get_frame d ESP32_CAM_URL CAMERA_INDEX)) =
    Some (Capture.NetAttempt ESP32_CAM_URL 5) /\
  ((forall f, Capture.esp32_fetch d ESP32_CAM_URL 5 <> Ok (Some f)) ->
   snd (Capture.get_frame d ESP32_CAM_URL CAMERA_INDEX) =
     [Capture.NetAttempt ESP32_CAM_URL 5; Capture.LocalAttempt CAMERA_INDEX]) /\
  (fst (Capture.get_frame d ESP32_CAM_URL CAMERA_INDEX) = None ->
   (forall f, Capture.esp32_fetch d ESP32_CAM_URL 5 <> Ok (Some f)) /\
   snd (Capture.get_frame d ESP32_CAM_URL CAMERA_INDEX) =
     [Capture.NetAttempt ESP32_CAM_URL 5; Capture.LocalAttempt CAMERA_INDEX]).
Proof.
  unfold Capture.get_frame.
  destruct (Capture.esp32_fetch d ESP32_CAM_URL 5) as [[f|]|e] eqn:Hf;
    cbn [fst snd hd_error].
  - split; [reflexivity|]. split.
    + intros H. exfalso. exact (H f eq_refl).
    + intros H. discriminate H.
  - repeat split; intros; discriminate.
  - repeat split; intros; discriminate.
Qed.

Lemma get_frame_fallback_witness :
  Capture.esp32_fetch Demo.offline_esp32 "http://192.168.1.50/cam-hi.jpg" 5
    = Raise "timed out" /\
  fst (Capture.get_frame Demo.offline_esp32 "http://192.168.1.50/cam-hi.jpg" 0) = None /\
  snd (Capture.get_frame Demo.offline_esp32 "http://192.168.1.50/cam-hi.jpg" 0) =
    [Capture.NetAttempt "http://192.168.1.50/cam-hi.jpg" 5; Capture.LocalAttempt 0].
Proof.
  destruct (get_frame_fallback nat Demo.offline_esp32 "http://192.168.1.50/cam-hi.jpg" 0)
    as [_ [Hnet Hnone]].
  split; [reflexivity|]. split; [reflexivity|].
  apply Hnet. intros f. discriminate.
Defined.

(** ** Facts about the face log *)

Lemma lstrip_cons_eq (a : ascii) (s1 : string) :
  lstrip (String a s1) =
      if is_space a then lstrip s1
      else match s1 with
           | String b s2 =>
               if is_space2 a b then lstrip s2
               else match s2 with
                    | String c s3 => if is_space3 a b c then lstrip s3 else String a s1
                    | EmptyString => String a s1
                    end
           | EmptyString => String a s1
           end.
Proof. reflexivity. Qed.

Lemma rstrip_cons_eq (a : ascii) (s1 : string) :
  rstrip (String a s1) = if lstrip (String a s1) =? "" then "" else String a (rstrip s1).
Proof. reflexivity. Qed.

Lemma is_space_comma : is_space "," = false.
Proof. reflexivity. Qed.

Lemma is_space2_comma (a : ascii) : is_space2 a "," = false /\ is_space2 "," a = false.
Proof. unfold is_space2. split; [apply andb_false_r|reflexivity]. Qed.

Lemma is_space3_comma (a b : ascii) :
  is_space3 a b "," = false /\ is_space3 a "," b = false /\ is_space3 "," a b = false.
Proof.
  unfold is_space3, byte_in. cbn [byte_val nat_of_ascii N_of_ascii N_of_digits].
  repeat split; repeat rewrite ?andb_false_r, ?orb_false_r; reflexivity.
Qed.

Lemma lstrip_cases (s : string) :
  lstrip s = s \/ String.length (lstrip s) < String.length s.
Proof.
  assert (H : forall n s, String.length s <= n ->
            lstrip s = s \/ String.length (lstrip s) < String.length s).
  { induction n as [|n IH]; intros [|a s1] Hs; simpl in Hs; try (left; reflexivity); try lia.
    rewrite lstrip_cons_eq.
    destruct (is_space a).
    { right. destruct (IH s1 ltac:(lia)) as [->|H]; simpl; lia. }
    destruct s1 as [|b s2]; [left; reflexivity|].
    destruct (is_space2 a b).
    { right. simpl in Hs. destruct (IH s2 ltac:(lia)) as [->|H]; simpl; lia. }
    destruct s2 as [|c s3]; [left; reflexivity|].
    destruct (is_space3 a b c); [|left; reflexivity].
    right. simpl in Hs. destruct (IH s3 ltac:(lia)) as [->|H]; simpl; lia. }
  exact (H _ s (le_n _)).
Qed.

Lemma rstrip_length (s : string) : String.length (rstrip s) <= String.length s.
Proof.
  induction s as [|c s IH]; [reflexivity|]. rewrite rstrip_cons_eq.
  destruct (lstrip (String c s) =? ""); simpl; lia.
Qed.

Lemma strip_fixed_lstrip (s : string) : strip s = s -> lstrip s = s.
Proof.
  unfold strip. intros H. destruct (lstrip_cases s) as [Hl|Hl]; [exact Hl|].
  pose proof (rstrip_length (lstrip s)) as Hr. rewrite H in Hr. lia.
Qed.

(** [strip] never removes a comma. *)
Lemma lstrip_comma_nonempty (x y : string) : lstrip (x ++ String "," y) <> "".
Proof.
  pose proof is_space_comma as H1.
  revert x.
  assert (H : forall n x, String.length x <= n -> lstrip (x ++ String "," y) <> "").
  { induction n as [|n IH]; intros x Hx.
    - destruct x; [|simpl in Hx; lia]. cbn [append]. rewrite lstrip_cons_eq, H1.
      destruct y as [|b [|c y]]; [discriminate|rewrite (proj2 (is_space2_comma b)); discriminate|].
      rewrite (proj2 (is_space2_comma b)), (proj2 (proj2 (is_space3_comma b c))). discriminate.
    - destruct x as [|a x1]; [apply (IH ""); simpl; lia|]. simpl in Hx.
      cbn [append]. rewrite lstrip_cons_eq.
      destruct (is_space a); [apply IH; lia|].
      destruct x1 as [|b [|c x3]]; cbn [append].
      + rewrite (proj1 (is_space2_comma a)).
        destruct y as [|d y]; [discriminate|].
        rewrite (proj1 (proj2 (is_space3_comma a d))). discriminate.
      + destruct (is_space2 a b); [apply (IH ""); simpl; lia|].
        rewrite (proj1 (is_space3_comma a b)). discriminate.
      + destruct (is_space2 a b); [apply (IH (String c x3)); simpl in *; lia|].
        destruct (is_space3 a b c); [apply IH; simpl in *; lia|discriminate]. }
  intros x. exact (H _ x (le_n _)).
Qed.

Lemma rstrip_comma (x y : string) :
  rstrip (x ++ String "," y) = x ++ String "," (rstrip y).
Proof.
  induction x as [|a x IH].
  - cbn [append]. rewrite rstrip_cons_eq.
    destruct (String.eqb_spec (lstrip (String "," y)) "") as [H|_];
      [exact (False_ind _ (lstrip_comma_nonempty "" y H))|reflexivity].
  - cbn [append]. rewrite rstrip_cons_eq.
    destruct (String.eqb_spec (lstrip (String a (x ++ String "," y))) "") as [H|_];
      [exact (False_ind _ (lstrip_comma_nonempty (String a x) y H))|].
    rewrite IH. reflexivity.
Qed.

(** A string that [lstrip] leaves unchanged keeps doing so when a comma
    and anything else follow it. *)
Lemma lstrip_comma (N t : string) :
  lstrip N = N -> lstrip (N ++ String "," t) = N ++ String "," t.
Proof.
  intros H.
  destruct N as [|a [|b [|c N3]]]; cbn [append]; rewrite lstrip_cons_eq in *.
  - rewrite is_space_comma. destruct t as [|b [|c t]]; [reflexivity|..].
    + rewrite (proj2 (is_space2_comma b)). reflexivity.
    + rewrite (proj2 (is_space2_comma b)), (proj2 (proj2 (is_space3_comma b c))). reflexivity.
  - destruct (is_space a).
    { exfalso. apply (f_equal String.length) in H. simpl in H. lia. }
    rewrite (proj1 (is_space2_comma a)).
    destruct t as [|d t]; [reflexivity|].
    rewrite (proj1 (proj2 (is_space3_comma a d))). reflexivity.
  - destruct (is_space a).
    { exfalso. destruct (lstrip_cases (String b "")) as [H'|H']; rewrite H in H';
        [apply (f_equal String.length) in H'|]; simpl in H'; lia. }
    destruct (is_space2 a b).
    { exfalso. apply (f_equal String.length) in H. simpl in H. lia. }
    rewrite (proj1 (is_space3_comma a b)). reflexivity.
  - destruct (is_space a).
    { exfalso. destruct (lstrip_cases (String b (String c N3))) as [H'|H']; rewrite H in H';
        [apply (f_equal String.length) in H'|]; simpl in H'; lia. }
    destruct (is_space2 a b).
    { exfalso. destruct (lstrip_cases (String c N3)) as [H'|H']; rewrite H in H';
        [apply (f_equal String.length) in H'|]; simpl in H'; lia. }
    destruct (is_space3 a b c); [|reflexivity].
    exfalso. destruct (lstrip_cases N3) as [H'|H']; rewrite H in H';
      [apply (f_equal String.length) in H'|]; simpl in H'; lia.
Qed.

Lemma str_app_nil_r (a : string) : a ++ "" = a.
Proof. induction a as [|x a IH]; simpl; [reflexivity|]. rewrite IH. reflexivity. Qed.

Lemma writelines_app (ls ls' : list string) :
  writelines (ls ++ ls')%list = writelines ls ++ writelines ls'.
Proof.
  induction ls as [|l ls IH]; simpl; [reflexivity|]. unfold writelines in *.
  simpl. rewrite IH, str_app_assoc. reflexivity.
Qed.

Lemma writelines_cons (l : string) (ls : list string) :
  writelines (l :: ls) = l ++ writelines ls.
Proof. reflexivity. Qed.

Lemma no_cr_app (a b : string) :
  FaceLog.no_cr (a ++ b) = FaceLog.no_cr a && FaceLog.no_cr b.
Proof. induction a as [|c a IH]; [reflexivity|]. simpl. rewrite IH, andb_assoc. reflexivity. Qed.

Lemma universal_newlines_no_cr (s : string) :
  FaceLog.no_cr s = true -> universal_newlines s = s.
Proof.
  induction s as [|c s IH]; intros H; [reflexivity|]. simpl in H.
  apply andb_true_iff in H as [Hc H]. apply negb_true_iff in Hc.
  cbn [universal_newlines]. rewrite Hc, (IH H). reflexivity.
Qed.

Lemma readlines_line (l s : string) :
  FaceLog.line_ok l = true -> readlines (l ++ s) = l :: readlines s.
Proof.
  induction l as [|c l IH]; intros H; [discriminate H|].
  simpl in H |- *. destruct (Ascii.eqb c newline) eqn:Hc.
  - apply String.eqb_eq in H. subst l. apply Ascii.eqb_eq in Hc. subst c. reflexivity.
  - rewrite (IH H). reflexivity.
Qed.

Lemma readlines_writelines (ls : list string) :
  forallb FaceLog.line_ok ls = true -> readlines (writelines ls) = ls.
Proof.
  induction ls as [|l ls IH]; intros H; [reflexivity|].
  simpl in H. apply andb_prop in H as [Hl Hls].
  rewrite writelines_cons, (readlines_line l _ Hl), (IH Hls). reflexivity.
Qed.

Lemma utf8_valid_cons_inv (u : uchar) (s : string) :
  forallb (fun u => match u with UChar _ => true | UByte _ => false end) (u :: decode s) = true ->
  (exists c, u = UChar c) /\ utf8_valid s = true.
Proof.
  intros H. cbn [forallb] in H. apply andb_true_iff in H as [Hu Hs].
  split; [destruct u as [c|b]; [exists c; reflexivity|discriminate Hu]|exact Hs].
Qed.

(** Decoding a well-formed text and then more bytes reads the text
    first. *)
Lemma decode_app_valid (a b : string) :
  utf8_valid a = true -> decode (a ++ b) = (decode a ++ decode b)%list.
Proof.
  assert (H : forall n a, String.length a <= n -> utf8_valid a = true ->
            decode (a ++ b) = (decode a ++ decode b)%list).
  { induction n as [|n IH]; intros [|x a1] Ha Hv; simpl in Ha; try reflexivity; try lia.
    unfold utf8_valid in Hv. cbn [append].
    rewrite (decode_cons_eq x (a1 ++ b)), (decode_cons_eq x a1).
    rewrite (decode_cons_eq x a1) in Hv.
    destruct (byte_val x <? 128)%Z.
    { apply utf8_valid_cons_inv in Hv as [_ Hv]. cbn [app]. f_equal. apply IH; [lia|exact Hv]. }
    destruct (byte_in 194 223 x).
    { destruct a1 as [|c a2]; [apply utf8_valid_cons_inv in Hv as [[? Hu] _]; discriminate Hu|].
      cbn [append]. destruct (cont c);
        apply utf8_valid_cons_inv in Hv as [[? Hu] Hv]; try discriminate Hu.
      cbn [app]. f_equal. apply IH; [simpl in Ha; lia|exact Hv]. }
    destruct (byte_in 224 239 x).
    { destruct a1 as [|c [|d a3]];
        try (apply utf8_valid_cons_inv in Hv as [[? Hu] _]; discriminate Hu).
      cbn [append]. destruct (second3 x c && cont d);
        apply utf8_valid_cons_inv in Hv as [[? Hu] Hv]; try discriminate Hu.
      cbn [app]. f_equal. apply IH; [simpl in Ha; lia|exact Hv]. }
    destruct (byte_in 240 244 x).
    { destruct a1 as [|c [|d [|e a4]]];
        try (apply utf8_valid_cons_inv in Hv as [[? Hu] _]; discriminate Hu).
      cbn [append]. destruct (second4 x c && cont d && cont e);
        apply utf8_valid_cons_inv in Hv as [[? Hu] Hv]; try discriminate Hu.
      cbn [app]. f_equal. apply IH; [simpl in Ha; lia|exact Hv]. }
    apply utf8_valid_cons_inv in Hv as [[? Hu] _]; discriminate Hu. }
  exact (H _ a (le_n _)).
Qed.

Lemma utf8_valid_app (a b : string) :
  utf8_valid a = true -> utf8_valid b = true -> utf8_valid (a ++ b) = true.
Proof.
  intros Ha Hb. unfold utf8_valid in *. rewrite (decode_app_valid a b Ha), forallb_app, Ha, Hb.
  reflexivity.
Qed.

Section FaceLogFacts.
Import FS FaceLog.

Lemma lookup_filter (p q : string) (l : list (string * string)) :
  p <> q -> lookup q (filter (fun e => negb (fst e =? p)) l) = lookup q l.
Proof.
  intros Hpq. induction l as [|[r b] l IH]; [reflexivity|]. cbn [filter fst].
  destruct (String.eqb_spec r p) as [->|Hr]; cbn [negb].
  - cbn [lookup]. destruct (String.eqb_spec p q); [contradiction|exact IH].
  - cbn [lookup]. rewrite IH. reflexivity.
Qed.

Lemma read_bytes_put (F : fs) (p q b : string) :
  read_bytes (put F p b) q = if p =? q then Some b else read_bytes F q.
Proof.
  unfold read_bytes, put. cbn [files lookup].
  destruct (String.eqb_spec p q); [reflexivity|]. apply lookup_filter. assumption.
Qed.

Lemma read_bytes_put_same (F : fs) (p b : string) : read_bytes (put F p b) p = Some b.
Proof. rewrite read_bytes_put, String.eqb_refl. reflexivity. Qed.

Lemma read_bytes_put_other (F : fs) (p q b : string) :
  p <> q -> read_bytes (put F p b) q = read_bytes F q.
Proof. intros H. rewrite read_bytes_put. destruct (String.eqb_spec p q); [contradiction|reflexivity]. Qed.

Lemma read_bytes_drop_other (F : fs) (p q : string) :
  p <> q -> read_bytes (drop F p) q = read_bytes F q.
Proof. intros H. unfold read_bytes, drop. cbn [files]. apply lookup_filter. exact H. Qed.

Lemma raises_put (F : fs) (p b : string) : raises (put F p b) = raises F.
Proof. reflexivity. Qed.

Lemma raises_drop (F : fs) (p : string) : raises (drop F p) = raises F.
Proof. reflexivity. Qed.

Lemma unlink_existing_ok (F : fs) (paths : list string) :
  (forall p, raises F OpUnlink p = false) ->
  exists F1, unlink_existing F paths = (F1, Ok tt) /\ raises F1 = raises F.
Proof.
  revert F. induction paths as [|p paths IH]; intros F HF; [exists F; split; reflexivity|].
  cbn [unlink_existing]. destruct (path_exists F p) eqn:He; [|apply IH; exact HF].
  unfold unlink. rewrite HF. unfold path_exists in He.
  destruct (read_bytes F p) as [b|]; [|discriminate He].
  destruct (IH (drop F p) HF) as (F1 & Hu & Hr). exists F1. split; [exact Hu|exact Hr].
Qed.

(** The last characters of two strings. *)
Lemma app_last_neq (x y : string) (c d : ascii) :
  c <> d -> x ++ String c "" <> y ++ String d "".
Proof.
  intros Hcd. revert y. induction x as [|a x IH]; intros y H.
  - destruct y as [|b y]; [injection H as H; contradiction|].
    injection H as _ H. destruct y; discriminate H.
  - destruct y as [|b y]; [injection H as _ H; destruct x; discriminate H|].
    injection H as _ H. exact (IH y H).
Qed.

Lemma join_suffix (a b : string) : exists x, OsPath.join a b = x ++ b.
Proof.
  unfold OsPath.join.
  destruct (String.prefix "/" b); [exists ""; reflexivity|].
  destruct ((a =? "") || OsPath.ends_with_slash a); [exists a; reflexivity|].
  exists (a ++ "/"). rewrite str_app_assoc. reflexivity.
Qed.

(** The image of a registration, whose name ends in ".jpg", is never the
    log, whose name ends in ".txt". *)
Lemma image_path_not_log (dir name : string) :
  OsPath.join dir (name ++ ".jpg") <> log_file_path dir.
Proof.
  unfold log_file_path. destruct (join_suffix dir (name ++ ".jpg")) as [x ->].
  destruct (join_suffix dir "face_log.txt") as [y ->].
  replace (x ++ name ++ ".jpg") with ((x ++ name ++ ".jp") ++ "g")
    by (rewrite !str_app_assoc; reflexivity).
  replace (y ++ "face_log.txt") with ((y ++ "face_log.tx") ++ "t")
    by (rewrite !str_app_assoc; reflexivity).
  apply app_last_neq. discriminate.
Qed.

Lemma split_comma_app (N z : string) :
  split_comma N = None -> split_comma (N ++ String "," z) = Some (N, z).
Proof.
  induction N as [|c N IH]; intros H; [reflexivity|]. simpl in H |- *.
  destruct (Ascii.eqb c ",") ; [discriminate H|].
  destruct (split_comma N) as [[a b]|]; [discriminate H|]. rewrite (IH eq_refl).
  reflexivity.
Qed.

Lemma strip_log_line (N p : string) :
  strip N = N ->
  strip (log_line N p) = N ++ String "," (rstrip (String " " (p ++ nl))).
Proof.
  intros HN. unfold strip, log_line.
  change (", " ++ p ++ nl) with (String "," (String " " (p ++ nl))).
  rewrite (lstrip_comma N _ (strip_fixed_lstrip N HN)). apply rstrip_comma.
Qed.

Lemma log_line_named (N p : string) :
  strip N = N -> split_comma N = None ->
  name_field (log_line N p) = Some N /\ has_comma (strip (log_line N p)) = true.
Proof.
  intros HN Hc. unfold name_field, has_comma. rewrite (strip_log_line N p HN).
  rewrite (split_comma_app N _ Hc), HN. split; reflexivity.
Qed.

Lemma scan_registrations_ok (N : string) (ls : list string) :
  forallb (fun l => (strip l =? "") || has_comma (strip l)) ls = true ->
  exists deleted, scan_registrations N ls = Ok (filter (kept N) ls, deleted).
Proof.
  induction ls as [|l ls IH]; intros H; [exists []; reflexivity|].
  simpl in H. apply andb_prop in H as [Hl Hls]. destruct (IH Hls) as [del Hdel].
  unfold kept at 1, named, name_field. simpl.
  destruct (strip l =? "") eqn:Hb; [exists del; exact Hdel|].
  unfold has_comma in Hl. simpl in Hl.
  destruct (split_comma (strip l)) as [[name file_path]|]; [|discriminate Hl].
  rewrite Hdel. destruct (strip name =? N); simpl.
  - exists (strip file_path :: del). reflexivity.
  - exists del. reflexivity.
Qed.

Lemma scan_registrations_bad (N : string) (ls : list string) :
  existsb bad_line ls = true -> exists e, scan_registrations N ls = Raise e.
Proof.
  induction ls as [|l ls IH]; intros H; [discriminate H|].
  simpl in H |- *. unfold bad_line, has_comma in H.
  destruct (strip l =? ""); simpl in H; [exact (IH H)|].
  destruct (split_comma (strip l)) as [[name file_path]|]; [|eexists; reflexivity].
  simpl in H. destruct (IH H) as [e He]. rewrite He. eexists; reflexivity.
Qed.

Lemma register_new_face_Some (io : FaceRegistry.registration_io) (dir N : string) (F F1 : fs) :
  FaceRegistry.register_new_face io dir F = (Some N, F1) ->
  read_bytes F1 (log_file_path dir) =
    Some (match read_bytes F (log_file_path dir) with Some b => b | None => "" end ++
          log_line N (OsPath.join dir (N ++ "_" ++ FaceRegistry.timestamp io ++ ".jpg"))) /\
  raises F1 = raises F.
Proof.
  unfold FaceRegistry.register_new_face. intros H.
  destruct (FaceRegistry.frame_captured io); [|discriminate H]. cbn [negb] in H.
  destruct (Nat.eqb (FaceRegistry.faces_found io) 0); [discriminate H|].
  destruct (as_truthy (FaceRegistry.spoken_name io)) as [name|].
  2: destruct (FaceRegistry.typed_name io) as [typed|e]; [|discriminate H].
  2: destruct (as_truthy (Some (strip typed))) as [name|]; [|discriminate H].
  all: cbn beta iota in H.
  all: destruct (FaceRegistry.imwrite_result io) as [written|e]; [|discriminate H].
  all: assert (Hne : OsPath.join dir (name ++ "_" ++ FaceRegistry.timestamp io ++ ".jpg")
                <> log_file_path dir)
    by (replace (name ++ "_" ++ FaceRegistry.timestamp io ++ ".jpg")
          with ((name ++ "_" ++ FaceRegistry.timestamp io) ++ ".jpg")
          by (rewrite !str_app_assoc; reflexivity);
        apply image_path_not_log).
  all: match type of H with
  | context [append_text ?G ?p ?t] => destruct (append_text G p t) as [F2|e] eqn:Ha
  end; [|discriminate H].
  all: injection H as <- <-; unfold append_text in Ha.
  all: destruct written; rewrite ?raises_put in Ha.
  all: destruct (raises F OpAppend (log_file_path dir)); [discriminate Ha|].
  all: injection Ha as <-; rewrite (read_bytes_put_same _ (log_file_path dir)), ?raises_put.
  all: try rewrite (read_bytes_put_other F _ _ _ Hne).
  all: split; reflexivity.
Qed.

Lemma delete_face_registration_ok (dir N : string) (F : fs) (ls : list string) :
  read_bytes F (log_file_path dir) = Some (writelines ls) ->
  forallb registration_line ls = true -> utf8_valid (writelines ls) = true ->
  raises F OpRead (log_file_path dir) = false ->
  raises F OpWrite (log_file_path dir) = false ->
  (forall p, raises F OpUnlink p = false) ->
  exists F2, delete_face_registration dir N F = (true, F2) /\
    read_bytes F2 (log_file_path dir) = Some (writelines (filter (kept N) ls)).
Proof.
  intros Hlog Hls Hv Hr Hw Hu.
  assert (Hline : forall l, In l ls ->
            line_ok l = true /\ no_cr l = true /\ ((strip l =? "") || has_comma (strip l)) = true).
  { intros l Hin. apply (proj1 (forallb_forall _ _) Hls) in Hin.
    unfold registration_line in Hin. apply andb_true_iff in Hin as [Hin H3].
    apply andb_true_iff in Hin as [H1 H2]. auto. }
  assert (Hcr : no_cr (writelines ls) = true).
  { clear -Hline. induction ls as [|l ls IH]; [reflexivity|].
    rewrite writelines_cons, no_cr_app. destruct (Hline l (or_introl eq_refl)) as [_ [-> _]].
    apply IH. intros l' Hl'. apply Hline. right. exact Hl'. }
  assert (Hread : readlines (writelines ls) = ls).
  { apply readlines_writelines, forallb_forall. intros l Hin. apply Hline. exact Hin. }
  destruct (scan_registrations_ok N ls) as [del Hscan].
  { apply forallb_forall. intros l Hin. apply Hline. exact Hin. }
  destruct (unlink_existing_ok F del Hu) as (F1 & Hul & HF1).
  unfold delete_face_registration, path_exists, read_text.
  rewrite Hlog, Hr, Hv. cbn [negb]. rewrite (universal_newlines_no_cr _ Hcr), Hread, Hscan, Hul.
  unfold write_text. rewrite HF1, Hw.
  exists (put F1 (log_file_path dir) (writelines (filter (kept N) ls))).
  split; [reflexivity|]. apply read_bytes_put_same.
Qed.

Lemma delete_face_registration_bad (dir N : string) (F : fs) (s : string) :
  read_bytes F (log_file_path dir) = Some s ->
  raises F OpRead (log_file_path dir) = false -> utf8_valid s = true ->
  existsb bad_line (readlines (universal_newlines s)) = true ->
  delete_face_registration dir N F = (false, F).
Proof.
  intros Hlog Hr Hv Hbad.
  destruct (scan_registrations_bad N _ Hbad) as [e He].
  unfold delete_face_registration, path_exists, read_text.
  rewrite Hlog, Hr, Hv. cbn [negb]. rewrite He. reflexivity.
Qed.

End FaceLogFacts.

(** C5 (counterexample): deleting "Alice" does not leave the other lines
    of the log byte for byte: a blank line is dropped, and a line written
    with a CRLF ending comes back with a bare LF, since the log is read
    with universal newlines. *)
Lemma face_log_blank_line_dropped :
  let log := FaceLog.log_file_path "registered_faces" in
  let reg io F := snd (FaceRegistry.register_new_face io "registered_faces" F) in
  let alice := Demo.spoken_registration "Alice" "20250101_120000" in
  let bob := Demo.spoken_registration "Bob" "20250101_120500" in
  FaceLog.delete_face_registration "registered_faces" "Alice"
    (reg bob (reg alice (Demo.disk [(log, nl)]))) =
    (true, Demo.disk [(log, FaceLog.log_line "Bob" Demo.bob_jpg);
                      ("registered_faces/Bob_20250101_120500.jpg", "JPEG")]) /\
  FaceLog.delete_face_registration "registered_faces" "Alice"
    (reg alice (Demo.disk [(log, "Carol, registered_faces/Carol.jpg" ++ String cr nl)])) =
    (true, Demo.disk [(log, "Carol, registered_faces/Carol.jpg" ++ nl)]).
Proof. split; vm_compute; reflexivity. Qed.

(** C5 (as amended): registering [N] appends to the log, created if
    absent, exactly the line ["N, path\n"], [path] being the image path
    [os.path.join(FACE_OUTPUT_DIR, f"{N}_{timestamp}.jpg")].  Take a log of
    newline-terminated UTF-8 lines with no carriage return, each blank or
    holding a comma, a name with no comma that [strip()] leaves unchanged,
    a new line with no carriage return, and no [OSError] on the log or the
    images.  Then deleting [N] afterwards returns [True] and rewrites the
    log as its lines minus those whose stripped name field is [N] and minus
    the blank lines, every other line written back unchanged.  A non-blank
    line with no comma makes the deletion return [False] and leaves the
    files as they were.  Registering "Alice" and "Bob" then deleting
    "Alice" leaves exactly Bob's line. *)
Theorem face_log_round_trip (io : FaceRegistry.registration_io) (dir N : string)
    (F F1 : FS.fs) (ls : list string) :
  let log := FaceLog.log_file_path dir in
  let line := FaceLog.log_line N
                (OsPath.join dir (N ++ "_" ++ FaceRegistry.timestamp io ++ ".jpg")) in
  FaceRegistry.register_new_face io dir F = (Some N, F1) ->
  FS.read_bytes F1 log =
    Some (match FS.read_bytes F log with Some b => b | None => "" end ++ line) /\
  (strip N = N -> split_comma N = None ->
   FaceLog.line_ok line = true -> FaceLog.no_cr line = true -> utf8_valid line = true ->
   match FS.read_bytes F log with Some b => b | None => "" end = writelines ls ->
   forallb FaceLog.registration_line ls = true -> utf8_valid (writelines ls) = true ->
   FS.raises F FS.OpRead log = false -> FS.raises F FS.OpWrite log = false ->
   (forall p, FS.raises F FS.OpUnlink p = false) ->
   exists F2, FaceLog.delete_face_registration dir N F1 = (true, F2) /\
     FS.read_bytes F2 log = Some (writelines (filter (FaceLog.kept N) ls))) /\
  (forall G s, FS.read_bytes G log = Some s -> FS.raises G FS.OpRead log = false ->
     utf8_valid s = true ->
     existsb FaceLog.bad_line (readlines (universal_newlines s)) = true ->
     FaceLog.delete_face_registration dir N G = (false, G)) /\
  (let reg io F := snd (FaceRegistry.register_new_face io "registered_faces" F) in
   FaceLog.delete_face_registration "registered_faces" "Alice"
     (reg (Demo.spoken_registration "Bob" "20250101_120500")
        (reg (Demo.spoken_registration "Alice" "20250101_120000") (Demo.disk []))) =
     (true, Demo.disk [(FaceLog.log_file_path "registered_faces",
                        FaceLog.log_line "Bob" Demo.bob_jpg);
                       (Demo.bob_jpg, "JPEG")])).
Proof.
  intros log line Hreg.
  destruct (register_new_face_Some io dir N F F1 Hreg) as [Hlog Hraises].
  fold log in Hlog, Hraises. fold line in Hlog.
  split; [exact Hlog|]. split; [|split].
  - intros HN Hc Hl Hcr Hv Hold Hls Hvls Hr Hw Hu.
    destruct (log_line_named N (OsPath.join dir (N ++ "_" ++ FaceRegistry.timestamp io ++ ".jpg"))
                HN Hc) as [Hname Hcomma].
    fold line in Hname, Hcomma.
    assert (Hline : FaceLog.registration_line line = true).
    { unfold FaceLog.registration_line. rewrite Hl, Hcr, Hcomma, orb_true_r. reflexivity. }
    rewrite Hold in Hlog.
    destruct (delete_face_registration_ok dir N F1 (ls ++ [line])) as (F2 & Hdel & HF2).
    + fold log. rewrite Hlog, writelines_app.
      change (writelines [line]) with (line ++ ""). rewrite str_app_nil_r. reflexivity.
    + rewrite forallb_app, Hls. cbn [forallb]. rewrite Hline. reflexivity.
    + rewrite writelines_app. apply utf8_valid_app; [exact Hvls|].
      change (writelines [line]) with (line ++ ""). rewrite str_app_nil_r. exact Hv.
    + rewrite Hraises. exact Hr.
    + rewrite Hraises. exact Hw.
    + rewrite Hraises. exact Hu.
    + exists F2. split; [exact Hdel|]. unfold log. rewrite HF2, filter_app. cbn [filter].
      unfold FaceLog.kept at 2, FaceLog.named. rewrite Hname, String.eqb_refl, andb_false_r.
      rewrite app_nil_r. reflexivity.
  - intros G s. apply delete_face_registration_bad.
  - vm_compute. reflexivity.
Qed.

Lemma face_log_round_trip_witness :
  exists F2,
    FaceLog.delete_face_registration "registered_faces" "Bob"
      (snd (FaceRegistry.register_new_face (Demo.spoken_registration "Bob" "20250101_120500")
              "registered_faces"
              (Demo.disk [(FaceLog.log_file_path "registered_faces",
                           FaceLog.log_line "Alice" Demo.alice_jpg ++ nl)]))) = (true, F2) /\
    FS.read_bytes F2 (FaceLog.log_file_path "registered_faces") =
      Some (writelines (filter (FaceLog.kept "Bob") [FaceLog.log_line "Alice" Demo.alice_jpg; nl])).
Proof.
  destruct (face_log_round_trip (Demo.spoken_registration "Bob" "20250101_120500")
              "registered_faces" "Bob"
              (Demo.disk [(FaceLog.log_file_path "registered_faces",
                           FaceLog.log_line "Alice" Demo.alice_jpg ++ nl)])
              (snd (FaceRegistry.register_new_face (Demo.spoken_registration "Bob" "20250101_120500")
                      "registered_faces"
                      (Demo.disk [(FaceLog.log_file_path "registered_faces",
                                   FaceLog.log_line "Alice" Demo.alice_jpg ++ nl)])))
              [FaceLog.log_line "Alice" Demo.alice_jpg; nl])
    as [_ [H _]]; [vm_compute; reflexivity|].
  apply H; try (vm_compute; reflexivity).
  
Defined.


(** ** Facts about [video_analyzer] *)

(** C9 (a defect of the code): when the camera cannot be opened,
    [capture_frames] returns before putting the [None] sentinel, so the
    queue stays empty, [describe_frames] waits in [frame_queue.get()]
    forever and [start_video_analysis] never returns; the same happens when
    the capture loop raises, as with [interval = 0]
    ([ZeroDivisionError] in [frame_count % frame_interval]). *)
Theorem capture_frames_missing_sentinel (output_folder : string) (interval : nat)
    (describe : Video.entry -> string) :
  Video.capture_frames output_folder Demo.closed_camera [] interval = [] /\
  Video.start_video_analysis output_folder Demo.closed_camera interval describe = None /\
  Video.capture_frames output_folder Demo.one_frame_camera [] 0 = [] /\
  Video.start_video_analysis output_folder Demo.one_frame_camera 0 describe = None.
Proof. repeat split; reflexivity. Qed.

(** ** Facts about the rest of [emergency_handler] *)
Section EmergencyFacts.
Import Emergency.

Lemma str_length_app (a b : string) : String.length (a ++ b) = String.length a + String.length b.
Proof. induction a as [|c a IH]; simpl; [reflexivity|]. rewrite IH. reflexivity. Qed.

Lemma get_location_Ok_available (data : list (string * string)) :
  get_location (Ok data) <> "Location unavailable".
Proof.
  unfold get_location. intros H. apply (f_equal String.length) in H.
  rewrite !str_length_app in H. cbn [String.length] in H. lia.
Qed.


(** X1: [get_location] returns "Location unavailable" exactly when the
    geolocation request or the decoding of its answer raised; a decoded
    answer, whatever fields it lacks, always gives a formatted location. *)
Theorem get_location_unavailable_iff_failed (response : result (list (string * string))) :
  get_location response = "Location unavailable" <-> exists e, response = Raise e.
Proof.
  split.
  - destruct response as [data|e]; intros H.
    + exfalso. exact (get_location_Ok_available data H).
    + exists e. reflexivity.
  - intros [e ->]. reflexivity.
Qed.

(** X2: in [test_emergency_system], [location_service] is true exactly
    when the geolocation request succeeded, whatever happens to Twilio;
    [message_composition] is true exactly when neither the client
    construction nor the account fetch raised, and [twilio_connection]
    exactly when the fetch also returned an account. *)
Theorem test_emergency_system_results (ipinfo : result (list (string * string)))
    (client : result unit) (fetch : result (option unit)) :
  (location_service (test_emergency_system ipinfo client fetch) = true <->
     exists data, ipinfo = Ok data) /\
  (message_composition (test_emergency_system ipinfo client fetch) = true <->
     client = Ok tt /\ exists account, fetch = Ok account) /\
  (twilio_connection (test_emergency_system ipinfo client fetch) = true <->
     client = Ok tt /\ exists account, fetch = Ok (Some account)).
Proof.
  assert (Hloc : negb (get_location ipinfo =? "Location unavailable") = true <->
                 exists data, ipinfo = Ok data).
  { destruct ipinfo as [data|e].
    - split; [intros _; exists data; reflexivity|intros _].
      destruct (String.eqb_spec (get_location (Ok data)) "Location unavailable") as [H|H].
      + exfalso. exact (get_location_Ok_available data H).
      + reflexivity.
    - split; [intros H; discriminate H | intros [data H]; discriminate H]. }
  unfold test_emergency_system.
  destruct client as [[]|ec]; [destruct fetch as [account|ef]|]; cbn [location_service
    message_composition twilio_connection].
  - split; [exact Hloc|]. split.
    + split; [intros _; split; [reflexivity|exists account; reflexivity]|intros _].
      apply Nat.ltb_lt. rewrite str_length_app. simpl. lia.
    + destruct account as [a|]; split.
      * intros _. split; [reflexivity|exists a; reflexivity].
      * intros _. reflexivity.
      * intros H. discriminate H.
      * intros [_ [a H]]. discriminate H.
  - split; [exact Hloc|]. split; split; intros H; try discriminate H;
      destruct H as [_ [a H]]; discriminate H.
  - split; [exact Hloc|]. split; split; intros H; try discriminate H;
      destruct H as [H _]; discriminate H.
Qed.


End EmergencyFacts.

Lemma get_location_unavailable_iff_failed_witness :
  Emergency.get_location (Raise "HTTPSConnectionPool: Read timed out.") =
    "Location unavailable" /\
  exists e, (Raise "HTTPSConnectionPool: Read timed out." : result (list (string * string)))
            = Raise e.
Proof.
  split; [reflexivity|].
  apply (proj1 (get_location_unavailable_iff_failed _)). reflexivity.
Defined.


(** ** Facts about the rest of [face_recognition] *)

Lemma utf8_valid_split (a : ascii) (x y : string) :
  (byte_val a < 128)%Z ->
  utf8_valid (x ++ String a y) = utf8_valid x && utf8_valid y.
Proof.
  intros Ha. unfold utf8_valid. rewrite (decode_app_ascii a y Ha x), forallb_app. reflexivity.
Qed.

Lemma utf8_valid_ascii_cons (a : ascii) (y : string) :
  (byte_val a < 128)%Z -> utf8_valid (String a y) = utf8_valid y.
Proof. intros Ha. exact (utf8_valid_split a "" y Ha). Qed.

Lemma byte_val_newline : (byte_val newline < 128)%Z.
Proof. vm_compute. reflexivity. Qed.

Lemma byte_val_cr : (byte_val cr < 128)%Z.
Proof. vm_compute. reflexivity. Qed.

Lemma no_cr_split (s : string) :
  FaceLog.no_cr s = true \/ exists x y, FaceLog.no_cr x = true /\ s = x ++ String cr y.
Proof.
  induction s as [|c s IH]; [left; reflexivity|]. cbn [FaceLog.no_cr].
  destruct (Ascii.eqb_spec c cr) as [->|Hc].
  - right. exists "", s. split; reflexivity.
  - cbn [negb andb]. destruct IH as [H|(x & y & Hx & ->)]; [left; exact H|].
    right. exists (String c x), y. split; [|reflexivity].
    cbn [FaceLog.no_cr]. destruct (Ascii.eqb_spec c cr); [contradiction|exact Hx].
Qed.

Lemma universal_newlines_no_cr_app (x t : string) :
  FaceLog.no_cr x = true -> universal_newlines (x ++ t) = x ++ universal_newlines t.
Proof.
  induction x as [|c x IH]; intros H; [reflexivity|]. cbn [FaceLog.no_cr] in H.
  apply andb_true_iff in H as [Hc H]. apply negb_true_iff in Hc.
  cbn [append universal_newlines]. rewrite Hc, (IH H). reflexivity.
Qed.

Lemma universal_newlines_cr (y : string) :
  universal_newlines (String cr y) =
    String newline (universal_newlines
      (match y with String b y' => if Ascii.eqb b newline then y' else y | EmptyString => "" end)).
Proof.
  cbn [universal_newlines]. rewrite Ascii.eqb_refl.
  destruct y as [|b y']; [reflexivity|]. destruct (Ascii.eqb b newline); reflexivity.
Qed.

(** Universal newlines keep a text well formed. *)
Lemma utf8_valid_universal_newlines (s : string) :
  utf8_valid s = true -> utf8_valid (universal_newlines s) = true.
Proof.
  revert s.
  assert (H : forall n s, String.length s <= n ->
            utf8_valid s = true -> utf8_valid (universal_newlines s) = true).
  { induction n as [|n IH]; intros s Hs Hv.
    - destruct s; [reflexivity|simpl in Hs; lia].
    - destruct (no_cr_split s) as [Hc|(x & y & Hx & ->)].
      { rewrite (universal_newlines_no_cr s Hc). exact Hv. }
      rewrite (utf8_valid_split cr x y byte_val_cr) in Hv.
      apply andb_true_iff in Hv as [Hvx Hvy].
      rewrite (universal_newlines_no_cr_app x _ Hx), universal_newlines_cr.
      rewrite (utf8_valid_split newline _ _ byte_val_newline), Hvx. cbn [andb].
      rewrite str_length_app in Hs. simpl in Hs.
      destruct y as [|b y']; [reflexivity|].
      destruct (Ascii.eqb_spec b newline) as [->|_].
      + rewrite (utf8_valid_ascii_cons newline y' byte_val_newline) in Hvy.
        apply IH; [simpl in Hs; lia|exact Hvy].
      + apply IH; [lia|exact Hvy]. }
  intros s Hv. exact (H _ s (le_n _) Hv).
Qed.

Lemma no_cr_universal_newlines (s : string) : FaceLog.no_cr (universal_newlines s) = true.
Proof.
  revert s.
  assert (H : forall n s, String.length s <= n -> FaceLog.no_cr (universal_newlines s) = true).
  { induction n as [|n IH]; intros [|a s1] Hs; simpl in Hs; try reflexivity; try lia.
    cbn [universal_newlines]. destruct (Ascii.eqb a cr) eqn:Ha.
    - cbn [FaceLog.no_cr]. change (Ascii.eqb newline cr) with false. cbn [negb andb].
      destruct s1 as [|b s2]; [reflexivity|]. simpl in Hs.
      destruct (Ascii.eqb b newline); apply IH; simpl; lia.
    - cbn [FaceLog.no_cr]. rewrite Ha. apply IH. lia. }
  intros s. exact (H _ s (le_n _)).
Qed.

(** After universal newlines, the text up to a newline keeps its lines. *)
Lemma universal_newlines_nl_app (s0 : string) :
  exists u, forall t, universal_newlines (s0 ++ nl ++ t) = u ++ nl ++ universal_newlines t.
Proof.
  revert s0.
  assert (H : forall n s0, String.length s0 <= n ->
            exists u, forall t, universal_newlines (s0 ++ nl ++ t) = u ++ nl ++ universal_newlines t).
  { induction n as [|n IH]; intros s0 Hs.
    - destruct s0; [|simpl in Hs; lia]. exists "". intros t. reflexivity.
    - destruct s0 as [|a s1]; [exists ""; intros t; reflexivity|]. simpl in Hs.
      cbn [append universal_newlines]. destruct (Ascii.eqb a cr) eqn:Ha.
      + destruct s1 as [|b s2].
        * exists "". intros t. reflexivity.
        * simpl in Hs. cbn [append]. destruct (Ascii.eqb b newline).
          -- destruct (IH s2 ltac:(lia)) as [u Hu]. exists (String newline u).
             intros t. rewrite Hu. reflexivity.
          -- destruct (IH (String b s2) ltac:(simpl; lia)) as [u Hu]. exists (String newline u).
             intros t. specialize (Hu t). cbn [append] in Hu. rewrite Hu. reflexivity.
      + destruct (IH s1 ltac:(lia)) as [u Hu]. exists (String a u).
        intros t. rewrite Hu. reflexivity. }
  intros s0. exact (H _ s0 (le_n _)).
Qed.

Lemma no_cr_readlines (s : string) :
  FaceLog.no_cr s = true -> forallb FaceLog.no_cr (readlines s) = true.
Proof.
  induction s as [|c s IH]; intros H; [reflexivity|]. cbn [FaceLog.no_cr] in H.
  apply andb_true_iff in H as [Hc H]. cbn [readlines].
  destruct (Ascii.eqb c newline); [exact (IH H)|].
  specialize (IH H). destruct (readlines s) as [|l ls].
  - cbn [forallb FaceLog.no_cr]. rewrite Hc. reflexivity.
  - cbn [forallb FaceLog.no_cr] in IH |- *. rewrite Hc. exact IH.
Qed.

Lemma no_cr_writelines (ls : list string) :
  forallb FaceLog.no_cr ls = true -> FaceLog.no_cr (writelines ls) = true.
Proof.
  induction ls as [|l ls IH]; intros H; [reflexivity|]. cbn [forallb] in H.
  apply andb_true_iff in H as [Hl H]. rewrite writelines_cons, no_cr_app, Hl. exact (IH H).
Qed.

Lemma utf8_valid_writelines (ls : list string) :
  forallb utf8_valid ls = true -> utf8_valid (writelines ls) = true.
Proof.
  induction ls as [|l ls IH]; intros H; [reflexivity|]. cbn [forallb] in H.
  apply andb_true_iff in H as [Hl H]. rewrite writelines_cons.
  exact (utf8_valid_app _ _ Hl (IH H)).
Qed.

Lemma no_newline_split (s : string) :
  FaceRegistry.no_newline s = true \/
  exists x y, FaceRegistry.no_newline x = true /\ s = x ++ String newline y.
Proof.
  induction s as [|c s IH]; [left; reflexivity|]. cbn [FaceRegistry.no_newline].
  destruct (Ascii.eqb_spec c newline) as [->|Hc].
  - right. exists "", s. split; reflexivity.
  - cbn [negb andb]. destruct IH as [H|(x & y & Hx & ->)]; [left; exact H|].
    right. exists (String c x), y. split; [|reflexivity].
    cbn [FaceRegistry.no_newline]. destruct (Ascii.eqb_spec c newline); [contradiction|exact Hx].
Qed.

Lemma no_newline_readlines (l : string) :
  l <> "" -> FaceRegistry.no_newline l = true -> readlines l = [l].
Proof.
  induction l as [|c l IH]; intros Hne H; [contradiction|]. simpl in H |- *.
  apply andb_prop in H as [Hc H]. apply negb_true_iff in Hc. rewrite Hc.
  destruct l as [|d l]; [reflexivity|]. rewrite (IH ltac:(discriminate) H). reflexivity.
Qed.

Lemma line_ok_no_newline (x : string) :
  FaceRegistry.no_newline x = true -> FaceLog.line_ok (x ++ nl) = true.
Proof.
  induction x as [|c x IH]; intros H; [reflexivity|]. cbn [FaceRegistry.no_newline] in H.
  apply andb_true_iff in H as [Hc H]. apply negb_true_iff in Hc.
  cbn [append FaceLog.line_ok]. rewrite Hc. exact (IH H).
Qed.

(** The lines of a well-formed text are well formed. *)
Lemma utf8_valid_readlines (s : string) :
  utf8_valid s = true -> forallb utf8_valid (readlines s) = true.
Proof.
  revert s.
  assert (H : forall n s, String.length s <= n ->
            utf8_valid s = true -> forallb utf8_valid (readlines s) = true).
  { induction n as [|n IH]; intros s Hs Hv.
    - destruct s; [reflexivity|simpl in Hs; lia].
    - destruct (no_newline_split s) as [Hn|(x & y & Hx & ->)].
      + destruct s as [|c s']; [reflexivity|].
        rewrite (no_newline_readlines (String c s') ltac:(discriminate) Hn). cbn [forallb].
        rewrite Hv. reflexivity.
      + rewrite (utf8_valid_split newline x y byte_val_newline) in Hv.
        apply andb_true_iff in Hv as [Hvx Hvy].
        change (String newline y) with (nl ++ y). rewrite <- str_app_assoc.
        rewrite (readlines_line _ y (line_ok_no_newline x Hx)). cbn [forallb].
        rewrite (utf8_valid_app x nl Hvx eq_refl). cbn [andb].
        rewrite str_length_app in Hs. simpl in Hs. apply IH; [lia|exact Hvy]. }
  intros s Hv. exact (H _ s (le_n _) Hv).
Qed.

Lemma forallb_filter {A : Type} (p q : A -> bool) (l : list A) :
  forallb p l = true -> forallb p (filter q l) = true.
Proof.
  induction l as [|x l IH]; intros H; [reflexivity|]. cbn [forallb] in H.
  apply andb_true_iff in H as [Hx H]. cbn [filter].
  destruct (q x); [cbn [forallb]; rewrite Hx|]; exact (IH H).
Qed.

Section FaceRegistryFacts.
Import FS FaceLog FaceRegistry.

Lemma first_field_cons (c : ascii) (r : string) :
  Ascii.eqb c "," = false -> first_field (String c r) = String c (first_field r).
Proof.
  intros H. unfold first_field. cbn [split_comma]. rewrite H.
  destruct (split_comma r) as [[a b]|]; reflexivity.
Qed.

Lemma first_field_comma (r : string) : first_field (String "," r) = "".
Proof. reflexivity. Qed.

(** [line.split(",")[0]] and [lstrip] commute: no whitespace character
    has a comma byte. *)
Lemma first_field_lstrip (l : string) : first_field (lstrip l) = lstrip (first_field l).
Proof.
  revert l.
  assert (H : forall n l, String.length l <= n -> first_field (lstrip l) = lstrip (first_field l)).
  { induction n as [|n IH]; intros [|a s1] Hl; simpl in Hl; try reflexivity; try lia.
    destruct (Ascii.eqb_spec a ",") as [->|Ha].
    - rewrite first_field_comma, lstrip_cons_eq, is_space_comma.
      destruct s1 as [|b [|c s3]]; [reflexivity|..].
      + rewrite (proj2 (is_space2_comma b)). reflexivity.
      + rewrite (proj2 (is_space2_comma b)), (proj2 (proj2 (is_space3_comma b c))). reflexivity.
    - apply Ascii.eqb_neq in Ha. rewrite (first_field_cons a s1 Ha), !lstrip_cons_eq.
      destruct (is_space a); [apply IH; lia|].
      destruct s1 as [|b s2]; [rewrite (first_field_cons a "" Ha); reflexivity|].
      destruct (Ascii.eqb_spec b ",") as [->|Hb].
      + rewrite first_field_comma, (proj1 (is_space2_comma a)).
        destruct s2 as [|c s3]; [|rewrite (proj1 (proj2 (is_space3_comma a c)))];
          rewrite (first_field_cons a _ Ha); reflexivity.
      + apply Ascii.eqb_neq in Hb. rewrite (first_field_cons b s2 Hb).
        destruct (is_space2 a b); [apply IH; simpl in Hl; lia|].
        destruct s2 as [|c s3];
          [rewrite (first_field_cons a _ Ha), (first_field_cons b _ Hb); reflexivity|].
        destruct (Ascii.eqb_spec c ",") as [->|Hc].
        * rewrite first_field_comma, (proj1 (is_space3_comma a b)).
          rewrite (first_field_cons a _ Ha), (first_field_cons b _ Hb). reflexivity.
        * apply Ascii.eqb_neq in Hc. rewrite (first_field_cons c s3 Hc).
          destruct (is_space3 a b c); [apply IH; simpl in Hl; lia|].
          rewrite (first_field_cons a _ Ha), (first_field_cons b _ Hb), (first_field_cons c _ Hc).
          reflexivity. }
  intros l. exact (H _ l (le_n _)).
Qed.

Lemma lstrip_idem (s : string) : lstrip (lstrip s) = lstrip s.
Proof.
  revert s.
  assert (H : forall n s, String.length s <= n -> lstrip (lstrip s) = lstrip s).
  { induction n as [|n IH]; intros [|a s1] Hs; simpl in Hs; try reflexivity; try lia.
    rewrite (lstrip_cons_eq a s1). destruct (is_space a) eqn:Hsa; [apply IH; lia|].
    destruct s1 as [|b s2]; [rewrite lstrip_cons_eq, Hsa; reflexivity|].
    destruct (is_space2 a b) eqn:H2; [apply IH; simpl in Hs; lia|].
    destruct s2 as [|c s3]; [rewrite lstrip_cons_eq, Hsa; cbn beta iota; rewrite H2; reflexivity|].
    destruct (is_space3 a b c) eqn:H3; [apply IH; simpl in Hs; lia|].
    rewrite lstrip_cons_eq, Hsa; cbn beta iota; rewrite H2; cbn beta iota; rewrite H3.
    reflexivity. }
  intros s. exact (H _ s (le_n _)).
Qed.

Lemma split_comma_rstrip_None (x : string) :
  split_comma x = None -> split_comma (rstrip x) = None.
Proof.
  induction x as [|c r IH]; intros H; [reflexivity|]. cbn [split_comma] in H.
  destruct (Ascii.eqb c ",") eqn:Hc; [discriminate H|].
  destruct (split_comma r) as [[a b]|]; [discriminate H|].
  rewrite rstrip_cons_eq. destruct (lstrip (String c r) =? ""); [reflexivity|].
  cbn [split_comma]. rewrite Hc, (IH eq_refl). reflexivity.
Qed.

Lemma split_comma_Some_inv (x a b : string) :
  split_comma x = Some (a, b) -> x = a ++ String "," b /\ split_comma a = None.
Proof.
  revert a. induction x as [|c r IH]; intros a H; [discriminate H|]. cbn [split_comma] in H.
  destruct (Ascii.eqb c ",") eqn:Hc.
  - injection H as <- <-. apply Ascii.eqb_eq in Hc. subst c. split; reflexivity.
  - destruct (split_comma r) as [[a' b']|] eqn:Hr; [|discriminate H].
    injection H as <- <-. destruct (IH a' eq_refl) as [-> Ha'].
    split; [reflexivity|]. cbn [split_comma]. rewrite Hc, Ha'. reflexivity.
Qed.

(** On a line with a comma, [delete_face_registration] and
    [get_registered_faces] read the same name. *)
Lemma name_field_registered (l : string) :
  has_comma (strip l) = true -> name_field l = Some (registered_name l).
Proof.
  unfold has_comma, name_field, registered_name, strip. intros H.
  destruct (split_comma (lstrip l)) as [[a b]|] eqn:Hx.
  - destruct (split_comma_Some_inv _ _ _ Hx) as [Heq Ha].
    rewrite Heq, rstrip_comma, (split_comma_app a _ Ha).
    assert (Hff : first_field (lstrip l) = a) by (unfold first_field; rewrite Hx; reflexivity).
    rewrite first_field_lstrip in Hff. rewrite <- Hff, lstrip_idem. reflexivity.
  - rewrite (split_comma_rstrip_None _ Hx) in H. discriminate H.
Qed.

Lemma scan_registrations_Ok_inv (N : string) (ls : list string) r :
  scan_registrations N ls = Ok r ->
  forallb (fun l => (strip l =? "") || has_comma (strip l)) ls = true.
Proof.
  revert r. induction ls as [|l ls IH]; intros r H; [reflexivity|]. cbn [scan_registrations] in H.
  cbn [forallb]. destruct (strip l =? ""); [exact (IH r H)|]. unfold has_comma.
  destruct (split_comma (strip l)) as [[name file_path]|]; [|discriminate H].
  destruct (scan_registrations N ls) as [r'|e] eqn:Hs; [|discriminate H].
  exact (IH r' eq_refl).
Qed.

Lemma kept_registered (N l : string) :
  (strip l =? "") || has_comma (strip l) = true ->
  kept N l = negb (strip l =? "") && negb (registered_name l =? N).
Proof.
  unfold kept, named. destruct (strip l =? "") eqn:Hb; [reflexivity|]. cbn [orb negb andb].
  intros H. rewrite (name_field_registered l H). reflexivity.
Qed.

Lemma existsb_eqb_In (n : string) (acc : list string) :
  existsb (String.eqb n) acc = true <-> In n acc.
Proof.
  rewrite existsb_exists. split.
  - intros [x [Hx Heq]]. apply String.eqb_eq in Heq. subst x. exact Hx.
  - intros H. exists n. split; [exact H|apply String.eqb_refl].
Qed.

Lemma existsb_filter_eqb (q : string -> bool) (n : string) (acc : list string) :
  q n = true -> existsb (String.eqb n) (filter q acc) = existsb (String.eqb n) acc.
Proof.
  intros Hq. induction acc as [|a acc IH]; [reflexivity|]. simpl.
  destruct (q a) eqn:Ha; simpl; rewrite IH; [reflexivity|].
  destruct (String.eqb_spec n a) as [->|]; [rewrite Hq in Ha; discriminate Ha|reflexivity].
Qed.

Lemma collect_names_filter (q : string -> bool) (ls acc : list string) :
  collect_names (filter q acc)
    (filter (fun l => negb (strip l =? "") && q (registered_name l)) ls) =
  filter q (collect_names acc ls).
Proof.
  revert acc. induction ls as [|l ls IH]; intros acc; [reflexivity|]. simpl.
  destruct (strip l =? "") eqn:Hb; simpl; [apply IH|].
  destruct (q (registered_name l)) eqn:Hq.
  - simpl. rewrite Hb, (existsb_filter_eqb q _ acc Hq).
    destruct (existsb (String.eqb (registered_name l)) acc); [apply IH|].
    rewrite <- IH, filter_app. simpl. rewrite Hq. reflexivity.
  - destruct (existsb (String.eqb (registered_name l)) acc); [apply IH|].
    rewrite <- IH, filter_app. simpl. rewrite Hq, app_nil_r. reflexivity.
Qed.

Lemma collect_names_spec (ls acc : list string) :
  NoDup acc ->
  NoDup (collect_names acc ls) /\
  (forall n, In n (collect_names acc ls) <->
     In n acc \/ exists l, In l ls /\ strip l <> "" /\ registered_name l = n).
Proof.
  revert acc. induction ls as [|l ls IH]; intros acc Hacc.
  - split; [exact Hacc|]. intros n. split; [intros H; left; exact H|].
    intros [H|[l [[] _]]]. exact H.
  - simpl. destruct (String.eqb_spec (strip l) "") as [Hb|Hb].
    + destruct (IH acc Hacc) as [Hnd Hin]. split; [exact Hnd|]. intros n.
      rewrite Hin. split.
      * intros [H|[l' [H1 H2]]]; [left; exact H|right; exists l'; split; [right; exact H1|exact H2]].
      * intros [H|[l' [[<-|H1] [H2 H3]]]]; [left; exact H|contradiction|].
        right. exists l'. split; [exact H1|split; assumption].
    + destruct (existsb (String.eqb (registered_name l)) acc) eqn:He.
      * apply existsb_eqb_In in He. destruct (IH acc Hacc) as [Hnd Hin].
        split; [exact Hnd|]. intros n. rewrite Hin. split.
        -- intros [H|[l' [H1 H2]]]; [left; exact H|right; exists l'; split; [right; exact H1|exact H2]].
        -- intros [H|[l' [[<-|H1] [H2 H3]]]]; [left; exact H| left; subst n; exact He|].
           right. exists l'. split; [exact H1|split; assumption].
      * assert (Hnot : ~ In (registered_name l) acc).
        { intros H. apply existsb_eqb_In in H. rewrite H in He. discriminate He. }
        assert (Hacc' : NoDup (acc ++ [registered_name l])).
        { apply NoDup_app; [exact Hacc|constructor; [intros []|constructor]|].
          intros x Hx [<-|[]]. exact (Hnot Hx). }
        destruct (IH _ Hacc') as [Hnd Hin]. split; [exact Hnd|]. intros n.
        rewrite Hin, in_app_iff. simpl. split.
        -- intros [[H|[H|[]]]|[l' [H1 H2]]]; [left; exact H| |].
           ++ right. exists l. split; [left; reflexivity|split; [exact Hb|exact H]].
           ++ right. exists l'. split; [right; exact H1|exact H2].
        -- intros [H|[l' [[<-|H1] [H2 H3]]]]; [left; left; exact H|left; right; left; exact H3|].
           right. exists l'. split; [exact H1|split; assumption].
Qed.

Lemma collect_names_app (acc ls1 ls2 : list string) :
  collect_names acc (ls1 ++ ls2) = collect_names (collect_names acc ls1) ls2.
Proof.
  revert acc. induction ls1 as [|l ls1 IH]; intros acc; [reflexivity|]. simpl.
  destruct (strip l =? ""); [apply IH|].
  destruct (existsb (String.eqb (registered_name l)) acc); apply IH.
Qed.

Lemma collect_names_length (acc ls : list string) :
  List.length (collect_names acc ls) <= List.length acc + List.length ls.
Proof.
  revert acc. induction ls as [|l ls IH]; intros acc; simpl; [lia|].
  destruct (strip l =? ""); [specialize (IH acc); lia|].
  destruct (existsb (String.eqb (registered_name l)) acc);
    [specialize (IH acc); lia|].
  specialize (IH (acc ++ [registered_name l])%list). rewrite length_app in IH. simpl in IH. lia.
Qed.

Lemma readlines_cons_nonempty (c : ascii) (s : string) : readlines (String c s) <> [].
Proof.
  simpl. destruct (Ascii.eqb c newline); [discriminate|].
  destruct (readlines s); discriminate.
Qed.

Lemma readlines_nl_app (s0 t : string) :
  readlines (s0 ++ nl ++ t) = (readlines (s0 ++ nl) ++ readlines t)%list.
Proof.
  induction s0 as [|c s0 IH]; [reflexivity|]. cbn [append readlines].
  destruct (Ascii.eqb c newline); [rewrite IH; reflexivity|].
  rewrite IH. destruct (readlines (s0 ++ nl)) as [|l ls] eqn:Hr.
  - exfalso. destruct s0; exact (readlines_cons_nonempty _ _ Hr).
  - reflexivity.
Qed.

Lemma text_lines_cons (l : string) (ls : list string) :
  ls <> [] -> text_lines (l :: ls) = line_ok l && text_lines ls.
Proof. destruct ls; [contradiction|reflexivity]. Qed.

Lemma text_lines_tail (l : string) (ls : list string) :
  text_lines (l :: ls) = true -> text_lines ls = true.
Proof.
  destruct ls as [|l' ls]; [reflexivity|]. intros H.
  rewrite text_lines_cons in H by discriminate. apply andb_prop in H as [_ H]. exact H.
Qed.

Lemma readlines_text_lines (s : string) : text_lines (readlines s) = true.
Proof.
  induction s as [|c s IH]; [reflexivity|]. simpl.
  destruct (Ascii.eqb c newline) eqn:Hc.
  - destruct (readlines s) as [|l ls]; [reflexivity|].
    rewrite text_lines_cons by discriminate. exact IH.
  - destruct (readlines s) as [|l ls] eqn:Hr.
    + cbn [text_lines line_ok no_newline]. rewrite Hc. reflexivity.
    + destruct ls as [|l' ls].
      * cbn [text_lines line_ok no_newline] in IH |- *. rewrite Hc.
        destruct (line_ok l); [reflexivity|]. simpl in IH |- *.
        apply andb_prop in IH as [_ IH]. exact IH.
      * rewrite text_lines_cons in IH |- * by discriminate.
        cbn [line_ok]. rewrite Hc. exact IH.
Qed.

Lemma text_lines_filter (p : string -> bool) (ls : list string) :
  text_lines ls = true -> text_lines (filter p ls) = true.
Proof.
  induction ls as [|l ls IH]; intros H; [reflexivity|]. simpl.
  pose proof (IH (text_lines_tail l ls H)) as Hf.
  destruct (p l); [|exact Hf].
  destruct ls as [|l' ls']; [exact H|].
  rewrite text_lines_cons in H by discriminate. apply andb_prop in H as [Hl _].
  destruct (filter p (l' :: ls')) as [|x xs]; [simpl; rewrite Hl; reflexivity|].
  rewrite text_lines_cons by discriminate. rewrite Hl. exact Hf.
Qed.

Lemma readlines_writelines_text (ls : list string) :
  text_lines ls = true -> readlines (writelines ls) = ls.
Proof.
  induction ls as [|l ls IH]; intros H; [reflexivity|].
  change (writelines (l :: ls)) with (l ++ writelines ls).
  destruct ls as [|l' ls'].
  - simpl in H. change (writelines []) with "". rewrite str_app_nil_r.
    apply orb_true_iff in H as [H|H].
    + rewrite <- (str_app_nil_r l) at 1. rewrite (readlines_line l "" H). reflexivity.
    + apply andb_prop in H as [Hne H]. apply negb_true_iff in Hne.
      apply no_newline_readlines; [|exact H]. intros ->. discriminate Hne.
  - rewrite text_lines_cons in H by discriminate. apply andb_prop in H as [Hl Hls].
    rewrite (readlines_line l _ Hl), (IH Hls). reflexivity.
Qed.

Lemma registered_name_log_line (N path : string) :
  strip N = N -> split_comma N = None -> registered_name (log_line N path) = N.
Proof.
  intros HN Hc. unfold registered_name, first_field, log_line.
  change (", " ++ path ++ nl) with (String "," (String " " (path ++ nl))).
  rewrite (split_comma_app N _ Hc). exact HN.
Qed.

Lemma strip_log_line_nonblank (N path : string) :
  strip N = N -> (strip (log_line N path) =? "") = false.
Proof.
  intros HN. rewrite (strip_log_line N path HN). destruct N; reflexivity.
Qed.

Lemma path_exists_false_raise (F : fs) (p : string) :
  path_exists F p = false -> exists e, read_text F p = Raise e.
Proof.
  unfold path_exists, read_text. intros H.
  destruct (raises F OpRead p); [eexists; reflexivity|].
  destruct (read_bytes F p); [discriminate H|eexists; reflexivity].
Qed.

Lemma read_text_Ok (F : fs) (p text : string) :
  read_text F p = Ok text ->
  raises F OpRead p = false /\
  exists b, read_bytes F p = Some b /\ utf8_valid b = true /\ text = universal_newlines b.
Proof.
  unfold read_text. destruct (raises F OpRead p); [discriminate|].
  destruct (read_bytes F p) as [b|]; [|discriminate].
  destruct (utf8_valid b) eqn:Hv; [|discriminate]. intros H. injection H as <-.
  split; [reflexivity|]. exists b. auto.
Qed.

Lemma unlink_existing_raises (F : fs) (paths : list string) :
  raises (fst (unlink_existing F paths)) = raises F.
Proof.
  revert F. induction paths as [|p paths IH]; intros F; [reflexivity|].
  cbn [unlink_existing]. destruct (path_exists F p); [|apply IH].
  unfold unlink. destruct (raises F OpUnlink p); [reflexivity|].
  destruct (read_bytes F p); [|reflexivity]. rewrite IH. apply raises_drop.
Qed.

Lemma get_registered_faces_eq (dir : string) (F : fs) :
  get_registered_faces dir F =
    match read_text F (log_file_path dir) with
    | Ok text => collect_names [] (readlines text)
    | Raise _ => []
    end.
Proof.
  unfold get_registered_faces. cbv zeta.
  destruct (path_exists F (log_file_path dir)) eqn:Hp; [reflexivity|].
  destruct (path_exists_false_raise F _ Hp) as [e ->]. reflexivity.
Qed.

Lemma as_truthy_nonempty (o : option string) (s : string) : as_truthy o = Some s -> s <> "".
Proof. destruct o as [[|c t]|]; cbn; intros H; try discriminate H. injection H as <-. discriminate. Qed.

Lemma as_truthy_Some_inv (s t : string) : as_truthy (Some s) = Some t -> s = t.
Proof. destruct s as [|c s]; cbn; intros H; [discriminate H|injection H as <-; reflexivity]. Qed.

(** X4: [get_registered_faces] lists each name at most once; it is empty
    when the log does not exist or reading it raises (no log, a refused
    read, bytes that are not UTF-8), and otherwise lists exactly the names
    read off the non-blank lines of the text read (the first
    comma-separated field, stripped). *)
Theorem get_registered_faces_spec (dir : string) (F : fs) :
  NoDup (get_registered_faces dir F) /\
  (path_exists F (log_file_path dir) = false -> get_registered_faces dir F = []) /\
  (forall e, read_text F (log_file_path dir) = Raise e -> get_registered_faces dir F = []) /\
  (forall text, read_text F (log_file_path dir) = Ok text ->
     forall n, In n (get_registered_faces dir F) <->
       exists l, In l (readlines text) /\ strip l <> "" /\ registered_name l = n).
Proof.
  pose proof (path_exists_false_raise F (log_file_path dir)) as Hp.
  rewrite get_registered_faces_eq.
  destruct (read_text F (log_file_path dir)) as [text|e] eqn:Hr.
  - destruct (collect_names_spec (readlines text) [] (NoDup_nil _)) as [Hnd Hin].
    split; [exact Hnd|]. split.
    { intros H. destruct (Hp H) as [e He]. discriminate He. }
    split; [intros e He; discriminate He|].
    intros text' Ht n. injection Ht as <-. rewrite Hin. split.
    + intros [[]|H]. exact H.
    + intros H. right. exact H.
  - split; [constructor|]. split; [reflexivity|]. split; [reflexivity|].
    intros text Ht. discriminate Ht.
Qed.

(** X5: registering [N] (a name with no comma that [strip()] leaves as
    it is, whose log line has no other line break) on a log that is
    absent, empty or ends with a newline, and that can be read, leaves the
    registered names as they were and adds [N] at the end when it was not
    listed yet. *)
Theorem register_then_registered_faces (io : registration_io) (dir N : string) (F F1 : fs) :
  register_new_face io dir F = (Some N, F1) ->
  strip N = N -> split_comma N = None ->
  (let line := log_line N (OsPath.join dir (N ++ "_" ++ timestamp io ++ ".jpg")) in
   line_ok line = true /\ no_cr line = true /\ utf8_valid line = true) ->
  raises F OpRead (log_file_path dir) = false ->
  (read_bytes F (log_file_path dir) = None \/
   exists s, read_bytes F (log_file_path dir) = Some s /\ utf8_valid s = true /\
     (s = "" \/ exists s0, s = s0 ++ nl)) ->
  get_registered_faces dir F1 =
    if existsb (String.eqb N) (get_registered_faces dir F)
    then get_registered_faces dir F
    else (get_registered_faces dir F ++ [N])%list.
Proof.
  intros Hreg HN Hc Hl Hr Hold. cbv zeta in Hl. destruct Hl as (Hok & Hcr & Hv).
  set (line := log_line N (OsPath.join dir (N ++ "_" ++ timestamp io ++ ".jpg"))) in *.
  destruct (register_new_face_Some io dir N F F1 Hreg) as [Hlog1 Hraise1]. fold line in Hlog1.
  assert (Hone : readlines line = [line]).
  { rewrite <- (str_app_nil_r line) at 1. rewrite (readlines_line _ "" Hok). reflexivity. }
  assert (Hadd : forall acc, collect_names acc [line] =
            if existsb (String.eqb N) acc then acc else (acc ++ [N])%list).
  { intros acc. cbn [collect_names]. unfold line.
    rewrite (strip_log_line_nonblank N _ HN), (registered_name_log_line N _ HN Hc).
    destruct (existsb (String.eqb N) acc); reflexivity. }
  rewrite !get_registered_faces_eq. unfold read_text. rewrite Hraise1, Hr, Hlog1.
  destruct Hold as [Hnone|(s & Hs & Hvs & Hend)].
  - rewrite Hnone. cbn [append]. rewrite Hv, (universal_newlines_no_cr _ Hcr), Hone.
    apply Hadd.
  - rewrite Hs, (utf8_valid_app _ _ Hvs Hv), Hvs.
    destruct Hend as [->|[s0 ->]].
    + cbn [append universal_newlines readlines]. rewrite (universal_newlines_no_cr _ Hcr), Hone.
      apply Hadd.
    + destruct (universal_newlines_nl_app s0) as [u Hu].
      pose proof (Hu "") as Hu0. cbn [universal_newlines] in Hu0. rewrite !str_app_nil_r in Hu0.
      rewrite str_app_assoc, Hu, Hu0, (universal_newlines_no_cr _ Hcr), readlines_nl_app, Hone,
        collect_names_app.
      apply Hadd.
Qed.

(** X6: whenever [delete_face_registration N] returns [True], the
    registered names afterwards are the ones before, in the same order,
    with [N] left out. *)
Theorem delete_then_registered_faces (dir N : string) (F F2 : fs) :
  delete_face_registration dir N F = (true, F2) ->
  get_registered_faces dir F2 = filter (fun n => negb (n =? N)) (get_registered_faces dir F).
Proof.
  unfold delete_face_registration. cbv zeta. intros H.
  destruct (path_exists F (log_file_path dir)); cbn [negb] in H; [|discriminate H].
  destruct (read_text F (log_file_path dir)) as [text|e] eqn:Hr; [|discriminate H].
  destruct (scan_registrations N (readlines text)) as [[regs del]|e] eqn:Hs; [|discriminate H].
  destruct (unlink_existing F del) as [F1 [u|e]] eqn:Hu; [|discriminate H].
  unfold write_text in H. destruct (raises F1 OpWrite (log_file_path dir)); [discriminate H|].
  injection H as <-.
  destruct (read_text_Ok F _ text Hr) as [Hread [b (Hb & Hvb & ->)]].
  pose proof (scan_registrations_Ok_inv N _ _ Hs) as Hall.
  destruct (scan_registrations_ok N _ Hall) as [del' Hs'].
  rewrite Hs in Hs'. injection Hs' as -> _.
  assert (HF1 : raises F1 = raises F)
    by (pose proof (unlink_existing_raises F del) as HF; rewrite Hu in HF; exact HF).
  set (lines := readlines (universal_newlines b)) in *.
  assert (Hv : utf8_valid (writelines (filter (kept N) lines)) = true).
  { apply utf8_valid_writelines, forallb_filter, utf8_valid_readlines.
    apply utf8_valid_universal_newlines. exact Hvb. }
  assert (Hcr : no_cr (writelines (filter (kept N) lines)) = true).
  { apply no_cr_writelines, forallb_filter, no_cr_readlines, no_cr_universal_newlines. }
  rewrite !get_registered_faces_eq, Hr. unfold read_text at 1.
  rewrite raises_put, HF1, Hread, read_bytes_put_same, Hv, (universal_newlines_no_cr _ Hcr).
  rewrite readlines_writelines_text by (apply text_lines_filter, readlines_text_lines).
  rewrite (filter_ext_in (kept N)
             (fun l => negb (strip l =? "") && negb (registered_name l =? N))).
  - apply (collect_names_filter (fun n => negb (n =? N)) lines []).
  - intros l Hl. apply kept_registered.
    exact (proj1 (forallb_forall _ _) Hall l Hl).
Qed.

(** X7: [get_face_detection_stats] returns [{}] exactly when the log
    exists and reading it raises; otherwise [total_registrations] counts
    every line of the text read, blank and repeated ones included (0
    without a log), [registered_persons] is [get_registered_faces], and
    the total is never below the number of persons. *)
Theorem face_stats_total_bounds_persons (dir : string) (F : fs) :
  (get_face_detection_stats dir F = None <->
     path_exists F (log_file_path dir) = true /\ exists e, read_text F (log_file_path dir) = Raise e) /\
  (forall st, get_face_detection_stats dir F = Some st ->
     total_registrations st =
       match read_text F (log_file_path dir) with
       | Ok text => List.length (readlines text)
       | Raise _ => 0
       end /\
     registered_persons st = get_registered_faces dir F /\
     List.length (registered_persons st) <= total_registrations st).
Proof.
  unfold get_face_detection_stats. cbv zeta. rewrite get_registered_faces_eq.
  destruct (path_exists F (log_file_path dir)) eqn:Hp.
  - destruct (read_text F (log_file_path dir)) as [text|e] eqn:Hr.
    + split.
      * split; [intros H; discriminate H|intros [_ [e He]]; discriminate He].
      * intros st H. injection H as <-. cbn [total_registrations registered_persons].
        split; [reflexivity|split; [reflexivity|]].
        pose proof (collect_names_length [] (readlines text)) as H. cbn in H. exact H.
    + split.
      * split; [intros _; split; [reflexivity|exists e; reflexivity]|reflexivity].
      * intros st H. discriminate H.
  - destruct (path_exists_false_raise F _ Hp) as [e He]. rewrite He.
    split.
    + split; [intros H; discriminate H|intros [H _]; discriminate H].
    + intros st H. injection H as <-. cbn. split; [reflexivity|split; [reflexivity|lia]].
Qed.

(** X8: [register_new_face] never changes which operations raise; when
    it returns no name the log is left as it was; when it returns a name,
    that name is non-empty, is the transcription when there is one and
    otherwise the stripped typed line, and the log has exactly its line
    appended, with the image path
    [os.path.join(FACE_OUTPUT_DIR, f"{name}_{timestamp}.jpg")]. *)
Theorem register_new_face_log (io : registration_io) (dir : string) (F : fs) :
  raises (snd (register_new_face io dir F)) = raises F /\
  (fst (register_new_face io dir F) = None ->
     read_bytes (snd (register_new_face io dir F)) (log_file_path dir) =
       read_bytes F (log_file_path dir)) /\
  (forall name, fst (register_new_face io dir F) = Some name ->
     name <> "" /\
     (as_truthy (spoken_name io) = Some name \/
      (as_truthy (spoken_name io) = None /\
       exists typed, typed_name io = Ok typed /\ strip typed = name)) /\
     read_bytes (snd (register_new_face io dir F)) (log_file_path dir) =
       Some (match read_bytes F (log_file_path dir) with Some b => b | None => "" end ++
             log_line name (OsPath.join dir (name ++ "_" ++ timestamp io ++ ".jpg")))).
Proof.
  pose proof (register_new_face_Some io dir) as HS.
  destruct (register_new_face io dir F) as [o F1] eqn:Hreg. pose proof Hreg as Hreg0.
  cbn [fst snd]. unfold register_new_face in Hreg.
  destruct (frame_captured io); cbn [negb] in Hreg;
    [|injection Hreg as <- <-; split; [reflexivity|split; [intros _; reflexivity|intros n' Hn'; discriminate Hn']]].
  destruct (Nat.eqb (faces_found io) 0);
    [injection Hreg as <- <-; split; [reflexivity|split; [intros _; reflexivity|intros n' Hn'; discriminate Hn']]|].
  destruct (as_truthy (spoken_name io)) as [name|] eqn:Hsp.
  2: destruct (typed_name io) as [typed|e] eqn:Ht;
    [|injection Hreg as <- <-; split; [reflexivity|split; [intros _; reflexivity|intros n' Hn'; discriminate Hn']]].
  2: destruct (as_truthy (Some (strip typed))) as [name|] eqn:Hn;
    [|injection Hreg as <- <-; split; [reflexivity|split; [intros _; reflexivity|intros n' Hn'; discriminate Hn']]].
  all: cbn beta iota in Hreg.
  all: destruct (imwrite_result io) as [written|e];
    [|injection Hreg as <- <-; split; [reflexivity|split; [intros _; reflexivity|intros n' Hn'; discriminate Hn']]].
  all: assert (Hne : OsPath.join dir (name ++ "_" ++ timestamp io ++ ".jpg") <> log_file_path dir)
    by (replace (name ++ "_" ++ timestamp io ++ ".jpg")
          with ((name ++ "_" ++ timestamp io) ++ ".jpg")
          by (rewrite !str_app_assoc; reflexivity);
        apply image_path_not_log).
  all: match type of Hreg with
  | context [append_text ?G ?p ?t] => destruct (append_text G p t) as [F2|e] eqn:Ha
  end; injection Hreg as <- <-.
  all: try (split; [destruct written; reflexivity|split;
         [intros _; destruct written; [apply read_bytes_put_other; exact Hne|reflexivity]
         |intros n' Hn'; discriminate Hn']]; fail).
  all: destruct (HS _ _ _ Hreg0) as [Hlog Hraises].
  all: split; [exact Hraises|split; [intros H; discriminate H|intros name' H; injection H as <-]].
  - split; [exact (as_truthy_nonempty _ _ Hsp)|split; [left; reflexivity|exact Hlog]].
  - split; [exact (as_truthy_nonempty _ _ Hn)|].
    split; [|exact Hlog].
    right. split; [reflexivity|]. exists typed. split; [reflexivity|exact (as_truthy_Some_inv _ _ Hn)].
Qed.

End FaceRegistryFacts.

Lemma register_then_registered_faces_witness :
  let io := Demo.spoken_registration "Eve" "20250102_090000" in
  let F := Demo.disk [("registered_faces/face_log.txt",
                       "Alice, registered_faces/Alice_1.jpg" ++ String cr nl)] in
  let F1 := snd (FaceRegistry.register_new_face io "registered_faces" F) in
  FaceRegistry.register_new_face io "registered_faces" F = (Some "Eve", F1) /\
  FaceRegistry.get_registered_faces "registered_faces" F1 =
    (if existsb (String.eqb "Eve") (FaceRegistry.get_registered_faces "registered_faces" F)
     then FaceRegistry.get_registered_faces "registered_faces" F
     else (FaceRegistry.get_registered_faces "registered_faces" F ++ ["Eve"])%list).
Proof.
  intros io F F1.
  assert (Hreg : FaceRegistry.register_new_face io "registered_faces" F = (Some "Eve", F1))
    by (vm_compute; reflexivity).
  split; [exact Hreg|].
  apply (register_then_registered_faces io "registered_faces" "Eve" F F1 Hreg);
    [vm_compute; reflexivity|vm_compute; reflexivity|vm_compute; split; [|split]; reflexivity
    |vm_compute; reflexivity|].
  right. exists ("Alice, registered_faces/Alice_1.jpg" ++ String cr nl).
  split; [vm_compute; reflexivity|split; [vm_compute; reflexivity|]].
  right. exists ("Alice, registered_faces/Alice_1.jpg" ++ String cr ""). reflexivity.
Defined.

Lemma delete_then_registered_faces_witness :
  let F := Demo.disk
    [("registered_faces/face_log.txt",
      "Zoe, registered_faces/Zoe_1.jpg" ++ String cr
        ("Amy, registered_faces/Amy_1.jpg" ++ nl ++ "Zoe, registered_faces/Zoe_2.jpg" ++ nl));
     ("registered_faces/Amy_1.jpg", "JPEG")] in
  let F2 := snd (FaceLog.delete_face_registration "registered_faces" "Amy" F) in
  FaceLog.delete_face_registration "registered_faces" "Amy" F = (true, F2) /\
  FaceRegistry.get_registered_faces "registered_faces" F2 =
    filter (fun n => negb (n =? "Amy")) (FaceRegistry.get_registered_faces "registered_faces" F).
Proof.
  intros F F2.
  assert (H : FaceLog.delete_face_registration "registered_faces" "Amy" F = (true, F2))
    by (vm_compute; reflexivity).
  split; [exact H|exact (delete_then_registered_faces "registered_faces" "Amy" F F2 H)].
Defined.


(** ** Facts about the rest of [video_analyzer] *)
Section VideoFacts.
Import Video VideoFaces.

Lemma str_app_inv_l (p x y : string) : p ++ x = p ++ y -> x = y.
Proof.
  induction p as [|c p IH]; intros H; [exact H|]. injection H as H. exact (IH H).
Qed.

Lemma digits_aux_acc (f n : nat) (acc : string) :
  digits_aux f n acc = digits_aux f n EmptyString ++ acc.
Proof.
  revert n acc. induction f as [|f IH]; intros n acc; [reflexivity|]. cbn [digits_aux].
  destruct (Nat.ltb n 10); [reflexivity|].
  rewrite (IH _ (String _ acc)), (IH _ (String _ EmptyString)), str_app_assoc. reflexivity.
Qed.

Lemma digits_value_app (a : nat) (s t : string) :
  digits_value a (s ++ t) = digits_value (digits_value a s) t.
Proof. revert a. induction s as [|c s IH]; intros a; [reflexivity|]. apply IH. Qed.

Lemma digit_value (a n : nat) :
  digits_value a (String (ascii_of_nat (48 + n mod 10)) EmptyString) = a * 10 + n mod 10.
Proof.
  cbn [digits_value]. rewrite nat_ascii_embedding.
  - lia.
  - pose proof (Nat.mod_upper_bound n 10 ltac:(lia)). lia.
Qed.

Lemma digits_aux_value (f n : nat) : n < f -> digits_value 0 (digits_aux f n EmptyString) = n.
Proof.
  revert n. induction f as [|f IH]; intros n Hn; [lia|]. cbn [digits_aux].
  destruct (Nat.ltb_spec n 10) as [Hlt|Hge].
  - rewrite digit_value, Nat.mod_small by exact Hlt. reflexivity.
  - rewrite digits_aux_acc, digits_value_app, IH.
    + rewrite digit_value. pose proof (Nat.div_mod_eq n 10). lia.
    + pose proof (Nat.div_lt n 10 ltac:(lia) ltac:(lia)). lia.
Qed.

Lemma string_of_nat_inj (a b : nat) : string_of_nat a = string_of_nat b -> a = b.
Proof.
  unfold string_of_nat. intros H.
  rewrite <- (digits_aux_value (S a) a ltac:(lia)), <- (digits_aux_value (S b) b ltac:(lia)), H.
  reflexivity.
Qed.

Lemma str_replace_fuel_absent (f : nat) (old new s : string) :
  contains old s = false -> str_replace_fuel f old new s = s.
Proof.
  revert f. induction s as [|c s IH]; intros f H; destruct f; try reflexivity.
  cbn [contains] in H. cbn [str_replace_fuel].
  destruct (String.prefix old (String c s)); [discriminate H|].
  rewrite (IH f H). reflexivity.
Qed.

Lemma substring_full (s : string) : String.substring 0 (String.length s) s = s.
Proof. induction s as [|c s IH]; [reflexivity|]. simpl. rewrite IH. reflexivity. Qed.

Lemma str_replace_fuel_self (f : nat) (a : ascii) (s : string) :
  str_replace_fuel f (String a EmptyString) (String a EmptyString) s = s.
Proof.
  revert f. induction s as [|c s IH]; intros f; destruct f; try reflexivity.
  cbn [str_replace_fuel]. simpl String.prefix.
  destruct (ascii_dec a c) as [<-|Hne].
  - replace (String.length (String a s) - String.length (String a EmptyString))
      with (String.length s) by (simpl; lia).
    simpl String.substring. rewrite substring_full, IH. destruct (String.prefix "" s); reflexivity.
  - rewrite IH. reflexivity.
Qed.

Lemma rfind_dot_lt (p : string) (i : nat) : rfind_dot p = Some i -> i < String.length p.
Proof.
  revert i. induction p as [|c p IH]; intros i H; [discriminate H|]. simpl in H |- *.
  destruct (rfind_dot p) as [j|].
  - injection H as <-. specialize (IH j eq_refl). lia.
  - destruct (Ascii.eqb c "."); [injection H as <-; lia|discriminate H].
Qed.

Lemma substring_split (p : string) (i : nat) :
  i <= String.length p ->
  String.substring 0 i p ++ String.substring i (String.length p - i) p = p.
Proof.
  revert i. induction p as [|c p IH]; intros i H.
  - destruct i; [reflexivity|simpl in H; lia].
  - destruct i as [|i].
    + simpl. rewrite substring_full. reflexivity.
    + simpl in H |- *. rewrite IH by lia. reflexivity.
Qed.

Lemma splitext_app (p : string) : fst (splitext p) ++ snd (splitext p) = p.
Proof.
  unfold splitext. destruct (rfind_dot p) as [i|] eqn:Hr; [|apply str_app_nil_r].
  destruct (has_non_dot (String.substring 0 i p)); [|apply str_app_nil_r].
  apply substring_split. pose proof (rfind_dot_lt p i Hr). lia.
Qed.

Lemma load_loop_spec {Enc : Type} (encodings_of : string -> result (list Enc))
    (files : list string) (ke : list Enc) (kn : list string) ke' kn' :
  load_loop Enc encodings_of files ke kn = Ok (ke', kn') ->
  List.length ke = List.length kn ->
  List.length ke' = List.length kn' /\
  (forall n, In n kn' -> In n kn \/
     exists f, In f files /\ image_file f = true /\ n = fst (splitext f)).
Proof.
  revert ke kn. induction files as [|f files IH]; intros ke kn H Hlen.
  - injection H as <- <-. split; [exact Hlen|intros n Hn; left; exact Hn].
  - cbn [load_loop] in H. destruct (image_file f) eqn:Hf.
    + destruct (encodings_of f) as [[|enc encs]|e]; [| |discriminate H].
      * destruct (IH ke kn H Hlen) as [Hl Hin]. split; [exact Hl|].
        intros n Hn. destruct (Hin n Hn) as [Hk|[g [Hg1 Hg2]]]; [left; exact Hk|].
        right. exists g. split; [right; exact Hg1|exact Hg2].
      * assert (Hlen' : List.length (ke ++ [enc])%list = List.length (kn ++ [fst (splitext f)])%list)
          by (rewrite !length_app; simpl; lia).
        destruct (IH _ _ H Hlen') as [Hl Hin]. split; [exact Hl|].
        intros n Hn. destruct (Hin n Hn) as [Hk|[g [Hg1 Hg2]]].
        -- apply in_app_or in Hk as [Hk|[Hk|[]]]; [left; exact Hk|].
           right. exists f. split; [left; reflexivity|split; [exact Hf|symmetry; exact Hk]].
        -- right. exists g. split; [right; exact Hg1|exact Hg2].
    + destruct (IH ke kn H Hlen) as [Hl Hin]. split; [exact Hl|].
      intros n Hn. destruct (Hin n Hn) as [Hk|[g [Hg1 Hg2]]]; [left; exact Hk|].
      right. exists g. split; [right; exact Hg1|exact Hg2].
Qed.

(** X9: the two quote lines of [replace_special_characters] change
    nothing, so a text with no en dash, em dash, bullet and no occurrence
    of the 15 characters [quote_call] comes back unchanged, straight
    apostrophes and double quotes included. *)
Theorem replace_special_characters_identity (text : string) :
  contains quote_call text = false -> contains en_dash text = false ->
  contains em_dash text = false -> contains bullet text = false ->
  replace_special_characters text = text.
Proof.
  intros Hq Hen Hem Hb. unfold replace_special_characters, str_replace.
  rewrite !str_replace_fuel_self.
  rewrite (str_replace_fuel_absent _ _ _ _ Hq), (str_replace_fuel_absent _ _ _ _ Hen),
    (str_replace_fuel_absent _ _ _ _ Hem), (str_replace_fuel_absent _ _ _ _ Hb).
  reflexivity.
Qed.

(** X10: [load_known_faces] returns [([], [])] when the directory does
    not exist, when listing it raises and when loading an image raises;
    in every case it returns as many names as encodings, and each name is
    the name of an image file ([.png], [.jpg] or [.jpeg], any case) listed
    in the directory, with its extension removed. *)
Theorem load_known_faces_names {Enc : Type} (dir_exists : bool)
    (listdir : result (list string)) (encodings_of : string -> result (list Enc)) :
  (dir_exists = false -> load_known_faces Enc dir_exists listdir encodings_of = ([], [])) /\
  (forall e, listdir = Raise e -> load_known_faces Enc dir_exists listdir encodings_of = ([], [])) /\
  (forall files e, listdir = Ok files -> load_loop Enc encodings_of files [] [] = Raise e ->
     load_known_faces Enc dir_exists listdir encodings_of = ([], [])) /\
  List.length (fst (load_known_faces Enc dir_exists listdir encodings_of)) =
    List.length (snd (load_known_faces Enc dir_exists listdir encodings_of)) /\
  forall n, In n (snd (load_known_faces Enc dir_exists listdir encodings_of)) ->
    exists files f, listdir = Ok files /\ In f files /\ image_file f = true /\
      fst (splitext f) = n /\ n ++ snd (splitext f) = f.
Proof.
  unfold load_known_faces. split; [intros ->; reflexivity|].
  destruct (negb dir_exists).
  { split; [intros e _; reflexivity|]. split; [intros files e _ _; reflexivity|].
    split; [reflexivity|intros n []]. }
  destruct listdir as [files|e].
  2: { split; [intros e' _; reflexivity|]. split; [intros files e' H; discriminate H|].
       split; [reflexivity|intros n []]. }
  split; [intros e H; discriminate H|].
  split; [intros files' e H Hl; injection H as <-; rewrite Hl; reflexivity|].
  destruct (load_loop Enc encodings_of files [] []) as [[ke kn]|e] eqn:Hl;
    [|split; [reflexivity|intros n []]].
  destruct (load_loop_spec encodings_of files [] [] ke kn Hl eq_refl) as [Hlen Hin].
  split; [exact Hlen|]. intros n Hn.
  destruct (Hin n Hn) as [[]|[f [Hf1 [Hf2 Hf3]]]].
  exists files, f. split; [reflexivity|]. split; [exact Hf1|]. split; [exact Hf2|].
  split; [symmetry; exact Hf3|]. rewrite Hf3. apply splitext_app.
Qed.

End VideoFacts.

Lemma replace_special_characters_identity_witness :
  let text := "It's a " ++ VideoFaces.dq ++ "test" ++ VideoFaces.dq ++ "." in
  (contains VideoFaces.quote_call text = false /\ contains VideoFaces.en_dash text = false /\
   contains VideoFaces.em_dash text = false /\ contains VideoFaces.bullet text = false) /\
  VideoFaces.replace_special_characters text = text.
Proof.
  intros text.
  assert (H : contains VideoFaces.quote_call text = false /\
              contains VideoFaces.en_dash text = false /\
              contains VideoFaces.em_dash text = false /\
              contains VideoFaces.bullet text = false) by (vm_compute; repeat split).
  split; [exact H|]. destruct H as [H1 [H2 [H3 H4]]].
  exact (replace_special_characters_identity text H1 H2 H3 H4).
Defined.


(** ** Facts about [recognize_faces] *)
Section RecognizeFacts.
Import VideoFaces QArith.
Variable Enc : Type.
Variable face_distance : Enc -> Enc -> Q.

Lemma argmin_aux_spec (ds : list Q) (idx best : nat) (m : Q) :
  (argmin_aux ds idx best m = best /\ forall d', In d' ds -> m <= d') \/
  (exists j d, argmin_aux ds idx best m = (idx + j)%nat /\ nth_error ds j = Some d /\
     d < m /\ forall d', In d' ds -> d <= d').
Proof.
  revert idx best m. induction ds as [|d ds IH]; intros idx best m.
  - left. split; [reflexivity|intros d' []].
  - cbn [argmin_aux]. destruct (Qle_bool m d) eqn:Hmd; cbn [negb].
    + apply Qle_bool_iff in Hmd.
      destruct (IH (S idx) best m) as [[H1 H2]|[j [d2 [H1 [H2 [H3 H4]]]]]].
      * left. split; [exact H1|]. intros d' [<-|Hd']; [exact Hmd|exact (H2 d' Hd')].
      * right. exists (S j), d2. split; [rewrite H1; lia|]. split; [exact H2|].
        split; [exact H3|]. intros d' [<-|Hd']; [|exact (H4 d' Hd')].
        apply Qlt_le_weak, (Qlt_le_trans _ m); [exact H3|exact Hmd].
    + assert (Hdm : d < m).
      { apply Qnot_le_lt. intros Hle. apply Qle_bool_iff in Hle. rewrite Hle in Hmd. discriminate Hmd. }
      destruct (IH (S idx) idx d) as [[H1 H2]|[j [d2 [H1 [H2 [H3 H4]]]]]].
      * right. exists O, d. split; [rewrite H1; lia|]. split; [reflexivity|].
        split; [exact Hdm|]. intros d' [<-|Hd']; [apply Qle_refl|exact (H2 d' Hd')].
      * right. exists (S j), d2. split; [rewrite H1; lia|]. split; [exact H2|].
        split; [apply (Qlt_trans _ d); assumption|].
        intros d' [<-|Hd']; [apply Qlt_le_weak; exact H3|exact (H4 d' Hd')].
Qed.

Lemma argmin_spec (ds : list Q) :
  ds <> [] -> exists d, nth_error ds (argmin ds) = Some d /\ forall d', In d' ds -> d <= d'.
Proof.
  destruct ds as [|d ds]; [contradiction|]. intros _. unfold argmin.
  destruct (argmin_aux_spec ds 1 O d) as [[H1 H2]|[j [d2 [H1 [H2 [H3 H4]]]]]].
  - exists d. rewrite H1. split; [reflexivity|].
    intros d' [<-|Hd']; [apply Qle_refl|exact (H2 d' Hd')].
  - exists d2. rewrite H1. split; [exact H2|].
    intros d' [<-|Hd']; [apply Qlt_le_weak; exact H3|exact (H4 d' Hd')].
Qed.

Lemma face_label_spec (known_encodings : list Enc) (known_names : list string) (e : Enc) :
  List.length known_names = List.length known_encodings ->
  exists label, face_label Enc face_distance known_encodings known_names e = Some label /\
    ((label = "Unknown" /\ forall k, In k known_encodings -> tolerance < face_distance k e) \/
     (exists i k, nth_error known_encodings i = Some k /\ nth_error known_names i = Some label /\
        face_distance k e <= tolerance /\
        forall k', In k' known_encodings -> face_distance k e <= face_distance k' e)).
Proof.
  intros Hlen. unfold face_label.
  destruct known_encodings as [|k0 ks] eqn:Hk.
  { exists "Unknown". split; [reflexivity|]. left. split; [reflexivity|intros k []]. }
  rewrite <- Hk. rewrite <- Hk in Hlen.
  destruct (existsb (fun b => b) (map (fun d => Qle_bool d tolerance) (map (fun k => face_distance k e) known_encodings))) eqn:He.
  - apply existsb_exists in He as [b [Hb Hbt]]. subst b.
    apply in_map_iff in Hb as [d1 [Hd1 Hd1in]].
    apply in_map_iff in Hd1in as [k1 [Hk1 Hk1in]]. subst d1.
    apply Qle_bool_iff in Hd1.
    destruct (argmin_spec (map (fun k => face_distance k e) known_encodings)) as [d [Hnth Hmin]].
    { rewrite Hk. discriminate. }
    rewrite nth_error_map in Hnth.
    destruct (nth_error known_encodings (argmin (map (fun k => face_distance k e) known_encodings))) as [k|] eqn:Hki; [|simpl in Hnth; discriminate Hnth].
    injection Hnth as Hd.
    assert (Hlt : (argmin (map (fun k => face_distance k e) known_encodings) < List.length known_names)%nat).
    { rewrite Hlen. apply nth_error_Some. rewrite Hki. discriminate. }
    apply nth_error_Some in Hlt.
    destruct (nth_error known_names (argmin (map (fun k => face_distance k e) known_encodings))) as [label|] eqn:Hn; [|contradiction].
    exists label. split; [reflexivity|]. right. exists (argmin (map (fun k => face_distance k e) known_encodings)), k.
    split; [exact Hki|]. split; [exact Hn|]. rewrite Hd. split.
    + apply (Qle_trans _ (face_distance k1 e)); [|exact Hd1].
      apply Hmin. apply (in_map (fun k => face_distance k e)). exact Hk1in.
    + intros k' Hk'. apply Hmin. apply (in_map (fun k => face_distance k e)). exact Hk'.
  - exists "Unknown". split; [reflexivity|]. left. split; [reflexivity|].
    intros k Hkin. apply Qnot_le_lt. intros Hle. apply Qle_bool_iff in Hle.
    assert (Hex : existsb (fun b => b) (map (fun d => Qle_bool d tolerance) (map (fun k => face_distance k e) known_encodings)) = true).
    { apply existsb_exists. exists true. split; [|reflexivity].
      apply in_map_iff. exists (face_distance k e). split; [exact Hle|].
      apply (in_map (fun k => face_distance k e)). exact Hkin. }
    rewrite Hex in He. discriminate He.
Qed.

Lemma label_all_Forall2 (P : Enc -> string -> Prop) (known_encodings : list Enc)
    (known_names : list string) (encodings : list Enc) (acc : list string) :
  (forall e, In e encodings ->
     exists label, face_label Enc face_distance known_encodings known_names e = Some label /\ P e label) ->
  exists labels,
    label_all Enc face_distance known_encodings known_names encodings acc = Some (acc ++ labels)%list /\
    Forall2 P encodings labels.
Proof.
  revert acc. induction encodings as [|e es IH]; intros acc H.
  - exists []. rewrite app_nil_r. split; [reflexivity|constructor].
  - destruct (H e (or_introl eq_refl)) as [label [Hl HP]].
    cbn [label_all]. rewrite Hl.
    destruct (IH (acc ++ [label])%list (fun e' He' => H e' (or_intror He'))) as [labels [H1 H2]].
    exists (label :: labels). rewrite H1, <- app_assoc. split; [reflexivity|].
    constructor; assumption.
Qed.

End RecognizeFacts.

(** ** The theorem about [recognize_faces] *)
Section RecognizeTheorem.
Import VideoFaces QArith.

(** X11: when there are as many known names as known encodings,
    [recognize_faces] labels every face of a readable image, in order: a
    face is "Unknown" exactly when no known face is within the tolerance
    0.6, and is otherwise given the name of a known face whose distance is
    within the tolerance and the least of all distances. *)
Theorem recognize_faces_labels (Enc : Type) (face_distance : Enc -> Enc -> Q)
    (known_encodings : list Enc) (known_names : list string) (encodings : list Enc) :
  List.length known_names = List.length known_encodings ->
  Forall2 (fun e label =>
      (label = "Unknown" /\ forall k, In k known_encodings -> tolerance < face_distance k e) \/
      (exists i k, nth_error known_encodings i = Some k /\ nth_error known_names i = Some label /\
         face_distance k e <= tolerance /\
         forall k', In k' known_encodings -> face_distance k e <= face_distance k' e))
    encodings (recognize_faces Enc face_distance (Ok encodings) known_encodings known_names).
Proof.
  intros Hlen. unfold recognize_faces.
  destruct (label_all_Forall2 Enc face_distance _ known_encodings known_names encodings []
              (fun e _ => face_label_spec Enc face_distance known_encodings known_names e Hlen))
    as [labels [H1 H2]].
  rewrite H1. exact H2.
Qed.

Lemma recognize_faces_labels_witness :
  let face_distance := fun a b : nat => (Z.of_nat (a - b + (b - a)) # 10) in
  let known_encodings := [0%nat; 5%nat] in
  let known_names := ["Alice"; "Bob"] in
  List.length known_names = List.length known_encodings /\
  Forall2 (fun e label =>
      (label = "Unknown" /\ forall k, In k known_encodings -> tolerance < face_distance k e) \/
      (exists i k, nth_error known_encodings i = Some k /\ nth_error known_names i = Some label /\
         face_distance k e <= tolerance /\
         forall k', In k' known_encodings -> face_distance k e <= face_distance k' e))
    [4%nat; 20%nat]
    (recognize_faces nat face_distance (Ok [4%nat; 20%nat]) known_encodings known_names).
Proof.
  intros face_distance known_encodings known_names.
  assert (H : List.length known_names = List.length known_encodings) by reflexivity.
  split; [exact H|].
  exact (recognize_faces_labels nat face_distance known_encodings known_names
           [4%nat; 20%nat] H).
Defined.

End RecognizeTheorem.

(** ** Facts about [speech_manager], [set_servo_angle] and the object
    recognizer's frame analysis *)
Section DeviceFacts.
Import Speech IoT FrameAnalysis.

Lemma In_remove_iff (x p : string) (l : list string) :
  In p (remove string_dec x l) <-> In p l /\ p <> x.
Proof.
  split; [apply in_remove|]. intros [H1 H2]. apply in_in_remove; assumption.
Qed.

Lemma file_exists_In (p : string) (files : list string) :
  file_exists p files = true <-> In p files.
Proof. apply existsb_eqb_In. Qed.

(** X14: [transcribe_audio] returns [t] exactly when the file is read and
    the first result of the recognizer has [t] as its first alternative:
    the results after the first are never looked at. *)
Theorem transcribe_audio_first_result (read : result unit)
    (recognize : result (list (list string))) (t : string) :
  transcribe_audio read recognize = Some t <->
  (exists u, read = Ok u) /\ exists alternatives rest, recognize = Ok ((t :: alternatives) :: rest).
Proof.
  unfold transcribe_audio. split.
  - destruct read as [u|e]; [|intros H; discriminate H].
    destruct recognize as [results|e]; [|intros H; discriminate H].
    destruct results as [|[|t' alts] rest]; intros H; try discriminate H.
    injection H as <-. split; [exists u; reflexivity|]. exists alts, rest. reflexivity.
  - intros [[u ->] [alts [rest ->]]]. reflexivity.
Qed.

(** X15: [get_voice_input] creates a fresh temporary [.wav] file and
    removes it only after a successful recording: the file is left behind
    exactly when the recording fails or [os.unlink] raises, no other file
    is touched, and a transcript is returned only when recording,
    transcription and removal all succeed. *)
Theorem get_voice_input_temp_file (io : voice_io) (files : list string) :
  ~ In (temp_audio_path io) files ->
  (forall p, p <> temp_audio_path io ->
     (In p (snd (get_voice_input io files)) <-> In p files)) /\
  (In (temp_audio_path io) (snd (get_voice_input io files)) <->
     (exists u, temp_file_result io = Ok u) /\
     (record_audio_ok io = false \/ exists e, Speech.unlink_result io = Raise e)) /\
  (forall t, fst (get_voice_input io files) = Some t <->
     (exists u, temp_file_result io = Ok u) /\ record_audio_ok io = true /\
     (exists u, Speech.unlink_result io = Ok u) /\
     transcribe_audio (read_result io) (recognize_result io) = Some t).
Proof.
  intros Hfresh. unfold get_voice_input.
  destruct (temp_file_result io) as [u|e].
  2: { split; [intros p _; reflexivity|]. split.
       - split; [intros H; contradiction|intros [[u' H] _]; discriminate H].
       - intros t. split; [intros H; discriminate H|intros [[u' H] _]; discriminate H]. }
  destruct (record_audio_ok io) eqn:Hrec.
  - destruct (Speech.unlink_result io) as [v|e].
    + cbn [fst snd]. split; [|split].
      * intros p Hp. rewrite In_remove_iff. simpl. split.
        -- intros [[H|H] _]; [symmetry in H; contradiction|exact H].
        -- intros H. split; [right; exact H|exact Hp].
      * rewrite In_remove_iff. split; [intros [_ H]; contradiction|].
        intros [_ [H|[e H]]]; discriminate H.
      * intros t. split.
        -- intros H. split; [exists u; reflexivity|]. split; [reflexivity|].
           split; [exists v; reflexivity|exact H].
        -- intros [_ [_ [_ H]]]. exact H.
    + cbn [fst snd]. split; [|split].
      * intros p Hp. simpl. split; [intros [H|H]; [symmetry in H; contradiction|exact H]|].
        intros H. right. exact H.
      * split; [intros _; split; [exists u; reflexivity|right; exists e; reflexivity]|].
        intros _. left. reflexivity.
      * intros t. split; [intros H; discriminate H|intros [_ [_ [[v H] _]]]; discriminate H].
  - cbn [fst snd]. split; [|split].
    + intros p Hp. simpl. split; [intros [H|H]; [symmetry in H; contradiction|exact H]|].
      intros H. right. exact H.
    + split; [intros _; split; [exists u; reflexivity|left; reflexivity]|].
      intros _. left. reflexivity.
    + intros t. split; [intros H; discriminate H|intros [_ [H _]]; discriminate H].
Qed.

(** X16: [set_servo_angle] reports success exactly when the request for
    its URL answers with status 200, and different angles are sent as
    different URLs. *)
Theorem set_servo_angle_request (ESP32_SERVO_URL : string) (get : string -> result nat)
    (angle : nat) :
  (IoT.set_servo_angle ESP32_SERVO_URL get angle = true <->
     get (servo_url ESP32_SERVO_URL angle) = Ok 200) /\
  (forall angle', servo_url ESP32_SERVO_URL angle = servo_url ESP32_SERVO_URL angle' ->
     angle = angle').
Proof.
  split.
  - unfold IoT.set_servo_angle. destruct (get (servo_url ESP32_SERVO_URL angle)) as [st|e].
    + rewrite Nat.eqb_eq. split; [intros ->; reflexivity|intros H; injection H as H; exact H].
    + split; intros H; discriminate H.
  - intros angle' H. unfold servo_url in H.
    apply str_app_inv_l, str_app_inv_l, string_of_nat_inj in H. exact H.
Qed.

(** X17: [recognize_object] and [analyze_multiple_objects] never leave
    their temporary image behind when [os.unlink] does not raise: the files
    afterwards are the files before; and when they return a description,
    it is the one text they spoke. *)
Theorem frame_analysis_cleans_up (io : analysis_io) (files : list string) :
  ~ In (temp_image_path io) files ->
  ((exists u, FrameAnalysis.unlink_result io = Ok u) ->
     snd (fst (frame_analysis io files)) = files) /\
  (forall context, fst (fst (frame_analysis io files)) = Some context ->
     snd (frame_analysis io files) = [context]).
Proof.
  intros Hfresh. unfold frame_analysis.
  destruct (negb (got_frame io)); [split; [reflexivity|intros c H; discriminate H]|].
  destruct (cvt_result io); [|split; [reflexivity|intros c H; discriminate H]].
  destruct (imwrite_result io) as [written|e]; [|split; [reflexivity|intros c H; discriminate H]].
  assert (Hne : file_exists (temp_image_path io) files = false).
  { destruct (file_exists (temp_image_path io) files) eqn:E; [|reflexivity].
    apply file_exists_In in E. contradiction. }
  rewrite Hne. cbn [negb]. rewrite andb_true_r.
  destruct written.
  - assert (Hex : file_exists (temp_image_path io) (temp_image_path io :: files) = true)
      by (apply file_exists_In; left; reflexivity).
    rewrite Hex.
    destruct (open_result io); [destruct (response_text io) as [c|e]|].
    all: destruct (FrameAnalysis.unlink_result io) as [v|e'].
    all: split; [intros [u Hu]; first [discriminate Hu|
                   cbn [fst snd remove];
                   destruct (string_dec _ _) as [_|C]; [apply notin_remove; exact Hfresh
                                                      |contradiction C; reflexivity]]
               |intros c' H; cbn in H |- *; first [discriminate H|injection H as <-; reflexivity]].
  - rewrite Hne.
    destruct (open_result io); [destruct (response_text io) as [c|e]|].
    all: split; [intros _; reflexivity
               |intros c' H; cbn in H |- *; first [discriminate H|injection H as <-; reflexivity]].
Qed.

End DeviceFacts.

Lemma get_voice_input_temp_file_witness :
  let io := {| Speech.temp_audio_path := "/tmp/tmpk2x9.wav"; Speech.temp_file_result := Ok tt;
               Speech.record_audio_ok := false; Speech.read_result := Ok tt;
               Speech.recognize_result := Ok []; Speech.unlink_result := Ok tt |} in
  let files := ["/tmp/notes.txt"] in
  ~ In (Speech.temp_audio_path io) files /\
  (forall p, p <> Speech.temp_audio_path io ->
     (In p (snd (Speech.get_voice_input io files)) <-> In p files)) /\
  (In (Speech.temp_audio_path io) (snd (Speech.get_voice_input io files)) <->
     (exists u, Speech.temp_file_result io = Ok u) /\
     (Speech.record_audio_ok io = false \/ exists e, Speech.unlink_result io = Raise e)) /\
  (forall t, fst (Speech.get_voice_input io files) = Some t <->
     (exists u, Speech.temp_file_result io = Ok u) /\ Speech.record_audio_ok io = true /\
     (exists u, Speech.unlink_result io = Ok u) /\
     Speech.transcribe_audio (Speech.read_result io) (Speech.recognize_result io) = Some t).
Proof.
  intros io files.
  assert (H : ~ In (Speech.temp_audio_path io) files).
  { simpl. intros [H|[]]. discriminate H. }
  split; [exact H|exact (get_voice_input_temp_file io files H)].
Defined.

Lemma frame_analysis_cleans_up_witness :
  let io := {| FrameAnalysis.got_frame := true; FrameAnalysis.cvt_result := Ok tt;
               FrameAnalysis.temp_image_path := "/tmp/tmp7q1c.jpg";
               FrameAnalysis.imwrite_result := Ok true; FrameAnalysis.open_result := Ok tt;
               FrameAnalysis.response_text := Ok "A ceramic coffee mug.";
               FrameAnalysis.unlink_result := Ok tt |} in
  let files := ["/tmp/notes.txt"] in
  ~ In (FrameAnalysis.temp_image_path io) files /\
  ((exists u, FrameAnalysis.unlink_result io = Ok u) ->
     snd (fst (FrameAnalysis.frame_analysis io files)) = files) /\
  (forall context, fst (fst (FrameAnalysis.frame_analysis io files)) = Some context ->
     snd (FrameAnalysis.frame_analysis io files) = [context]).
Proof.
  intros io files.
  assert (H : ~ In (FrameAnalysis.temp_image_path io) files).
  { simpl. intros [H|[]]. discriminate H. }
  split; [exact H|exact (frame_analysis_cleans_up io files H)].
Defined.

(** ** The custom emergency alert *)
Section CustomAlertFacts.
Import Emergency.

(** X18: with a working Twilio client and a [create] that accepts the
    message, [send_custom_emergency_message] sends its alert whatever the
    geolocation does: the body is the banner line, the custom message and
    [Location: ] followed by the text of [get_location] ("Location
    unavailable" when the geolocation raises), and the SID of that message
    is returned; when nothing is sent the result is the failure text. *)
Theorem send_custom_emergency_message_sent (client : result unit)
    (ipinfo : result (list (string * string))) (create : string -> result string)
    (custom_message : string) :
  ((exists u, client = Ok u) -> (forall body, exists sid, create body = Ok sid) ->
   exists body,
     snd (send_custom_emergency_message client ipinfo create custom_message) = Some body /\
     body = custom_alert_banner ++ nl ++ custom_message ++ nl ++ "Location: " ++ get_location ipinfo /\
     create body = Ok (fst (send_custom_emergency_message client ipinfo create custom_message))) /\
  (snd (send_custom_emergency_message client ipinfo create custom_message) = None ->
   exists e, fst (send_custom_emergency_message client ipinfo create custom_message) =
             "Failed to send custom emergency message: " ++ e).
Proof.
  unfold send_custom_emergency_message. split.
  - intros [u ->] Hcreate.
    set (body := custom_alert_banner ++ nl ++ custom_message ++ nl ++ "Location: " ++ get_location ipinfo).
    destruct (Hcreate body) as [sid Hsid]. rewrite Hsid.
    exists body. split; [reflexivity|]. split; [reflexivity|exact Hsid].
  - destruct client as [u|e]; [|intros _; exists e; reflexivity].
    destruct (create _) as [sid|e]; [intros H; discriminate H|intros _; exists e; reflexivity].
Qed.

End CustomAlertFacts.

Lemma send_custom_emergency_message_sent_witness :
  let create := fun body : string => @Ok string "SM0123456789abcdef" in
  ((exists u, @Ok unit tt = Ok u) /\ (forall body, exists sid, create body = Ok sid)) /\
  exists body,
    snd (Emergency.send_custom_emergency_message (Ok tt) (Raise "timeout") create "I fell") =
      Some body /\
    body = Emergency.custom_alert_banner ++ nl ++ "I fell" ++ nl ++ "Location: " ++
             Emergency.get_location (Raise "timeout") /\
    create body = Ok (fst (Emergency.send_custom_emergency_message (Ok tt) (Raise "timeout")
                             create "I fell")).
Proof.
  intros create.
  assert (H1 : exists u, @Ok unit tt = Ok u) by (exists tt; reflexivity).
  assert (H2 : forall body, exists sid, create body = Ok sid)
    by (intros body; exists "SM0123456789abcdef"; reflexivity).
  split; [split; [exact H1|exact H2]|].
  exact (proj1 (send_custom_emergency_message_sent (Ok tt) (Raise "timeout") create "I fell") H1 H2).
Defined.
